(** * Zero: the documentation chatbot and the document console

    A shallow embedding of the two React components of the repository,
    [src/components/DocumentChatbot.tsx] and [src/Zero.tsx], and the
    properties of their logic: the answer formatter [formatResponse], the
    retrieval driver [processQuery], the submit handler [handleSubmit] and
    the upload handler [handleFileUpload].

    JavaScript values are modelled as the language defines them: a string is
    a sequence of UTF-16 code units, a number is a binary64 float (Rocq's
    primitive floats, read through [Prim2SF]), an optional property is an
    [option], and a call that may reject is a [Completion]. *)

From Stdlib Require Import ZArith NArith List Bool Lia.
From Stdlib Require Import Strings.String Strings.Ascii.
From Stdlib Require Import Floats.
Import ListNotations.

Set Warnings "-inexact-float".

(* ================================================================== *)
(** * JavaScript strings and numbers *)
(* ================================================================== *)

Module JS.

(** A string is a finite sequence of 16-bit code units. *)
Definition char16 := N.
Definition jsstring := list char16.

(** An ASCII literal of the source, as code units. *)
Definition str (s : string) : jsstring :=
  map N_of_ascii (list_ascii_of_string s).

(** The line feed of the escapes [\n] in the source's literals. *)
Definition LF : jsstring := [10%N].

(** Equality of strings (the [===] and SameValueZero of strings). *)
Fixpoint jsstring_eqb (a b : jsstring) : bool :=
  match a, b with
  | [], [] => true
  | x :: a', y :: b' => N.eqb x y && jsstring_eqb a' b'
  | _, _ => false
  end.

(** [p] is a prefix of [s]. *)
Fixpoint isPrefixOf (p s : jsstring) : bool :=
  match p, s with
  | [], _ => true
  | _ :: _, [] => false
  | a :: p', b :: s' => N.eqb a b && isPrefixOf p' s'
  end.

(** [String.prototype.includes]: [p] occurs in [s] as a contiguous run. *)
Fixpoint includes (s p : jsstring) : bool :=
  isPrefixOf p s ||
  match s with
  | [] => false
  | _ :: s' => includes s' p
  end.

(** [String.prototype.toLowerCase] on one code unit.  The letters A-Z map to
    a-z.  Outside A-Z the Unicode lower-case mapping produces an ASCII letter
    in two cases only, which are kept: U+0130 (to [i] followed by U+0307) and
    the Kelvin sign U+212A (to [k]).  Every other code unit is left as it is:
    its Unicode image is not ASCII either, so [includes] with an ASCII needle
    (the only use the components make of the lowered string) gives the same
    answer on this model as on the full mapping. *)
Definition lowerUnit (c : char16) : jsstring :=
  if (65 <=? c)%N && (c <=? 90)%N then [(c + 32)%N]
  else if (c =? 304)%N then [105%N; 775%N]
  else if (c =? 8490)%N then [107%N]
  else [c].

Definition toLowerCase (s : jsstring) : jsstring := flat_map lowerUnit s.

(** The WhiteSpace and LineTerminator code points of ECMA-262, all of them in
    the Basic Multilingual Plane, which [trim] strips. *)
Definition isWhiteSpace (c : char16) : bool :=
  ((9 <=? c)%N && (c <=? 13)%N)
  || (c =? 32)%N || (c =? 160)%N || (c =? 5760)%N
  || ((8192 <=? c)%N && (c <=? 8202)%N)
  || (c =? 8232)%N || (c =? 8233)%N || (c =? 8239)%N || (c =? 8287)%N
  || (c =? 12288)%N || (c =? 65279)%N.

Fixpoint trimStart (s : jsstring) : jsstring :=
  match s with
  | [] => []
  | c :: s' => if isWhiteSpace c then trimStart s' else s
  end.

Definition trimEnd (s : jsstring) : jsstring := rev (trimStart (rev s)).

(** [String.prototype.trim]. *)
Definition trim (s : jsstring) : jsstring := trimEnd (trimStart s).

(** Truthiness of a string: the empty string is falsy. *)
Definition truthy (s : jsstring) : bool :=
  match s with [] => false | _ :: _ => true end.

(** [String.prototype.split] with a one-unit separator. *)
Fixpoint split_from (sep : char16) (s cur : jsstring) : list jsstring :=
  match s with
  | [] => [rev cur]
  | c :: s' =>
      if N.eqb c sep then rev cur :: split_from sep s' []
      else split_from sep s' (c :: cur)
  end.

Definition split (sep : char16) (s : jsstring) : list jsstring :=
  split_from sep s [].

(** ** Decimal digits *)

Fixpoint digits_of_uint (u : Decimal.uint) : jsstring :=
  match u with
  | Decimal.Nil => []
  | Decimal.D0 u' => 48%N :: digits_of_uint u'
  | Decimal.D1 u' => 49%N :: digits_of_uint u'
  | Decimal.D2 u' => 50%N :: digits_of_uint u'
  | Decimal.D3 u' => 51%N :: digits_of_uint u'
  | Decimal.D4 u' => 52%N :: digits_of_uint u'
  | Decimal.D5 u' => 53%N :: digits_of_uint u'
  | Decimal.D6 u' => 54%N :: digits_of_uint u'
  | Decimal.D7 u' => 55%N :: digits_of_uint u'
  | Decimal.D8 u' => 56%N :: digits_of_uint u'
  | Decimal.D9 u' => 57%N :: digits_of_uint u'
  end.

(** The decimal representation of a natural number, ["0"] for zero. *)
Definition decimal (n : N) : jsstring := digits_of_uint (N.to_uint n).

Definition decimalZ (z : Z) : jsstring := decimal (Z.to_N z).

Definition zeros (n : nat) : jsstring := repeat 48%N n.

(** ** Number::toString (radix 10)

    A finite non-zero double is [m * 2^e] with [m] its integral significand
    ([Prim2SF]).  The reals that round to it are those between the midpoints
    to its two neighbours, the midpoints included when [m] is even.  All
    comparisons are done on integers: with [E = e - 2] the double is
    [4m * 2^E] and the midpoints are [(4m - lo) * 2^E] and [(4m + 2) * 2^E]. *)

Definition pow2 (z : Z) : Z := (2 ^ Z.max z 0)%Z.
Definition pow10 (z : Z) : Z := (10 ^ Z.max z 0)%Z.

(** Half the gap to the lower neighbour, in units of [2^(e-2)]: the gap
    halves below a power of two, except at the bottom of the normal range. *)
Definition lower_half_gap (m : positive) (e : Z) : Z :=
  if (Z.pos m =? 2 ^ 52)%Z && (-1074 <? e)%Z then 1%Z else 2%Z.

(** [v < 10^n] for [v = 4m * 2^E]. *)
Definition below_pow10 (m : positive) (E n : Z) : bool :=
  (4 * Z.pos m * pow2 E * pow10 (- n) <? pow10 n * pow2 (- E))%Z.

(** The least [n] from [n] on with [v < 10^n]. *)
Fixpoint decimal_exponent (fuel : nat) (m : positive) (E n : Z) : Z :=
  match fuel with
  | O => n
  | S fuel' =>
      if below_pow10 m E n then n
      else decimal_exponent fuel' m E (n + 1)%Z
  end.

(** A starting point for the search that lies at or below the decimal
    exponent of [m * 2^e]: the binary exponent times 0.30103, which exceeds
    [log10 2] by less than 5e-9, less one. *)
Definition decimal_exponent_start (m : positive) (e : Z) : Z :=
  ((Z.log2 (Z.pos m) + e) * 30103 / 100000 - 1)%Z.

(** The candidates with [k] digits at decimal exponent [n]: the digit string
    [s] below [v / 10^(n-k)] and the one above, each kept when [s * 10^(n-k)]
    rounds to the double; the closer one wins, the even one on a tie. *)
Definition shortest_at (m : positive) (e n k : Z) : option Z :=
  let E := (e - 2)%Z in
  let p := (n - k)%Z in
  let A := (pow2 E * pow10 (- p))%Z in
  let B := (pow2 (- E) * pow10 p)%Z in
  let V := (4 * Z.pos m * A)%Z in
  let LO := ((4 * Z.pos m - lower_half_gap m e) * A)%Z in
  let HI := ((4 * Z.pos m + 2) * A)%Z in
  let closed := Z.even (Z.pos m) in
  let inside (s : Z) :=
    if closed then (LO <=? s * B)%Z && (s * B <=? HI)%Z
    else (LO <? s * B)%Z && (s * B <? HI)%Z in
  let s0 := (V / B)%Z in
  let s1 := (s0 + 1)%Z in
  match inside s0, inside s1 with
  | true, true =>
      let d0 := (V - s0 * B)%Z in
      let d1 := (s1 * B - V)%Z in
      if (d0 <? d1)%Z then Some s0
      else if (d1 <? d0)%Z then Some s1
      else if Z.even s0 then Some s0 else Some s1
  | true, false => Some s0
  | false, true => Some s1
  | false, false => None
  end.

(** The least number of digits [k] (from [k] on) with a candidate.  Seventeen
    digits identify every double, so the search ends before the fuel does;
    the digits below the double stand in when it is called without fuel. *)
Fixpoint shortest_from (fuel : nat) (m : positive) (e n k : Z) : Z * Z :=
  match fuel with
  | O => (k, (4 * Z.pos m * pow2 (e - 2) * pow10 (k - n)
               / (pow2 (2 - e) * pow10 (n - k)))%Z)
  | S fuel' =>
      match shortest_at m e n k with
      | Some s => (k, s)
      | None => shortest_from fuel' m e n (k + 1)%Z
      end
  end.

(** The integers [n], [k], [s] of Number::toString: [s] has [k] digits,
    [s * 10^(n-k)] rounds to the double, and [k] is least. *)
Definition shortest (m : positive) (e : Z) : Z * Z * Z :=
  let n := decimal_exponent 8 m (e - 2) (decimal_exponent_start m e) in
  let (k, s) := shortest_from 17 m e n 1 in
  if (s =? 10 ^ k)%Z then ((n + 1)%Z, 1%Z, 1%Z) else (n, k, s).

Definition exponent_part (n : Z) : jsstring :=
  let x := (n - 1)%Z in
  str "e" ++ (if (x <? 0)%Z then str "-" else str "+") ++ decimalZ (Z.abs x).

(** Steps 6 to 10 of Number::toString: the digits laid out by [n]. *)
Definition layout (n k s : Z) : jsstring :=
  let ds := decimalZ s in
  if (k <=? n)%Z && (n <=? 21)%Z then
    ds ++ zeros (Z.to_nat (n - k))
  else if (0 <? n)%Z && (n <=? 21)%Z then
    firstn (Z.to_nat n) ds ++ str "." ++ skipn (Z.to_nat n) ds
  else if (-6 <? n)%Z && (n <=? 0)%Z then
    str "0." ++ zeros (Z.to_nat (- n)) ++ ds
  else if (k =? 1)%Z then
    ds ++ exponent_part n
  else
    firstn 1 ds ++ str "." ++ skipn 1 ds ++ exponent_part n.

Definition positiveToString (m : positive) (e : Z) : jsstring :=
  let '(n, k, s) := shortest m e in layout n k s.

(** [Number::toString(x)], the conversion a template literal applies. *)
Definition NumberToString (x : float) : jsstring :=
  match Prim2SF x with
  | S754_nan => str "NaN"
  | S754_zero _ => str "0"
  | S754_infinity false => str "Infinity"
  | S754_infinity true => str "-Infinity"
  | S754_finite false m e => positiveToString m e
  | S754_finite true m e => str "-" ++ positiveToString m e
  end.

(** ** Number.prototype.toFixed *)

(** The integer [n] for which [n / 10^f - m * 2^e] is closest to zero, the
    larger one when there are two. *)
Definition nearest_scaled (f : nat) (m : positive) (e : Z) : Z :=
  let t := (Z.pos m * 10 ^ Z.of_nat f)%Z in
  if (0 <=? e)%Z then (t * 2 ^ e)%Z
  else ((2 * t + 2 ^ (- e)) / (2 * 2 ^ (- e)))%Z.

(** Step 10 of toFixed: the digits of [n] with the point [f] places from the
    right, padded with zeros on the left up to [f + 1] digits. *)
Definition fixed_digits (f : nat) (n : Z) : jsstring :=
  let m := decimalZ n in
  match f with
  | O => m
  | S _ =>
      let k := List.length m in
      let m' := if (k <=? f)%nat then zeros (f + 1 - k) ++ m else m in
      let k' := List.length m' in
      firstn (k' - f) m' ++ str "." ++ skipn (k' - f) m'
  end.

Definition toFixed_finite (f : nat) (m : positive) (e : Z) : jsstring :=
  if (10 ^ 21 * pow2 (- e) <=? Z.pos m * pow2 e)%Z
  then positiveToString m e
  else fixed_digits f (nearest_scaled f m e).

(** [x.toFixed(f)] for [0 <= f <= 100]. *)
Definition toFixed (f : nat) (x : float) : jsstring :=
  match Prim2SF x with
  | S754_nan => str "NaN"
  | S754_infinity false => str "Infinity"
  | S754_infinity true => str "-Infinity"
  | S754_zero _ => fixed_digits f 0
  | S754_finite false m e => toFixed_finite f m e
  | S754_finite true m e => str "-" ++ toFixed_finite f m e
  end.

End JS.

(* ================================================================== *)
(** * Completions and effects *)
(* ================================================================== *)

Module Effects.
Import JS.

(** A thrown or rejected value.  The components never inspect one; they log
    it and replace it by a fixed string. *)
Record JSError := mkError { err_message : jsstring }.

(** How an awaited call ends: with a value, or by throwing. *)
Inductive Completion (A : Type) : Type :=
| Normal (a : A)
| Throw (e : JSError).
Arguments Normal {A} a.
Arguments Throw {A} e.

(** A computation over a world [W]: the component's state together with the
    trace of what it did to the outside. *)
Definition Eff (W A : Type) : Type := W -> Completion A * W.

Definition ret {W A} (a : A) : Eff W A := fun w => (Normal a, w).

Definition bind {W A B} (m : Eff W A) (k : A -> Eff W B) : Eff W B :=
  fun w =>
    match m w with
    | (Normal a, w') => k a w'
    | (Throw e, w') => (Throw e, w')
    end.

Definition throw {W A} (e : JSError) : Eff W A := fun w => (Throw e, w).

(** [try { body } catch (error) { handler }]. *)
Definition try_catch {W A} (body : Eff W A) (handler : JSError -> Eff W A)
  : Eff W A :=
  fun w =>
    match body w with
    | (Normal a, w') => (Normal a, w')
    | (Throw e, w') => handler e w'
    end.

(** The completion of an awaited call, resumed or rethrown. *)
Definition await {W A} (c : Completion A) : Eff W A := fun w => (c, w).

Definition modify {W} (f : W -> W) : Eff W unit := fun w => (Normal tt, f w).

Definition get {W} : Eff W W := fun w => (Normal w, w).

End Effects.

Declare Scope eff_scope.
Delimit Scope eff_scope with eff.
Notation "x <- m ;; k" := (Effects.bind m (fun x => k))
  (at level 61, m at next level, right associativity) : eff_scope.
Notation "m ;;; k" := (Effects.bind m (fun _ => k))
  (at level 61, right associativity) : eff_scope.

(* ================================================================== *)
(** * The documentation chatbot (DocumentChatbot.tsx) *)
(* ================================================================== *)

Module Chatbot.
Import JS Effects.

(** ** Data model: the records of the retrieval service *)

(** A result of [queries.topDocuments]. *)
Record Document := mkDocument {
  d_path : jsstring;
  d_score : float;
  d_metadata : list (jsstring * jsstring)
}.

(** A result of [queries.topSnippets]; [page_span] may be missing. *)
Record Snippet := mkSnippet {
  s_content : jsstring;
  s_path : jsstring;
  s_score : float;
  s_page_span : option (float * float)
}.

(** A result of [queries.topPages]. *)
Record Page := mkPage {
  p_path : jsstring;
  p_page_index : float;
  p_content : jsstring
}.

(** ** Array and Set helpers *)

(** [Array.prototype.forEach]: the callback receives the element and its
    index and updates the variable it closes over. *)
Fixpoint forEach_from {A R : Type} (f : A -> nat -> R -> R)
  (l : list A) (i : nat) (acc : R) : R :=
  match l with
  | [] => acc
  | x :: l' => forEach_from f l' (S i) (f x i acc)
  end.

Definition forEach {A R : Type} (f : A -> nat -> R -> R) (l : list A)
  (acc : R) : R :=
  forEach_from f l 0 acc.

(** A [Set] of strings: its elements in insertion order, none twice. *)
Definition JSSet := list jsstring.

Definition Set_has (s : JSSet) (x : jsstring) : bool :=
  existsb (jsstring_eqb x) s.

(** [Set.prototype.add]: appends a value the set does not hold yet. *)
Definition Set_add (s : JSSet) (x : jsstring) : JSSet :=
  if Set_has s x then s else s ++ [x].

(** [new Set(iterable)] adds the values in order. *)
Definition new_Set (l : list jsstring) : JSSet := fold_left Set_add l [].

(** [Array.from(set)] lists the set in insertion order. *)
Definition Array_from (s : JSSet) : list jsstring := s.

(** ** formatResponse (lines 87-141) *)

Record FormatArgs := mkArgs {
  documents : list Document;
  snippets : list Snippet;
  pages : option (list Page);
  query : jsstring
}.

(** The object [formatResponse] returns.  The not-found object has no
    [documents] and no [pages] property. *)
Record Response := mkResponse {
  r_content : jsstring;
  r_snippets : list Snippet;
  r_documents : option (list Document);
  r_pages : option (list Page)
}.

Definition notFoundMessage : jsstring :=
  str "I couldn't find any relevant information. Please try rephrasing your question.".

(** [pages?.length], as a truth value. *)
Definition pages_nonempty (ps : option (list Page)) : bool :=
  match ps with
  | Some (_ :: _) => true
  | _ => false
  end.

Definition is_empty {A} (l : list A) : bool :=
  match l with [] => true | _ :: _ => false end.

(** The condition of line 108-109. *)
Definition listing_intent (q : jsstring) : bool :=
  includes (toLowerCase q) (str "show") &&
  (includes (toLowerCase q) (str "document") ||
   includes (toLowerCase q) (str "all")).

(** Line 112: [response += `${i + 1}. **${path}**\n`]. *)
Definition listing_line (path : jsstring) (i : nat) (response : jsstring)
  : jsstring :=
  response ++ decimal (N.of_nat (i + 1)) ++ str ". **" ++ path ++ str "**" ++ LF.

(** Lines 118-119. *)
Definition page_block (page : Page) (_ : nat) (response : jsstring)
  : jsstring :=
  let response1 :=
    response ++ str "From document `" ++ p_path page ++ str "` (Page "
      ++ NumberToString (p_page_index page + 1)%float ++ str "):" ++ LF in
  response1 ++ p_content page ++ LF ++ LF.

(** [(snippet.score * 100).toFixed(1)]. *)
Definition relevance (snippet : Snippet) : jsstring :=
  toFixed 1 (s_score snippet * 100)%float.

(** Lines 126-131. *)
Definition snippet_block (snippet : Snippet) (_ : nat) (response : jsstring)
  : jsstring :=
  let response1 := response ++ s_content snippet ++ LF ++ LF in
  match s_page_span snippet with
  | Some (first, last) =>
      response1 ++ str "*Source: `" ++ s_path snippet ++ str "` (Pages "
        ++ NumberToString (first + 1)%float ++ str "-"
        ++ NumberToString (last + 1)%float ++ str ", Relevance: "
        ++ relevance snippet ++ str "%)*" ++ LF ++ LF
  | None =>
      response1 ++ str "*Source: `" ++ s_path snippet
        ++ str "` (Relevance: " ++ relevance snippet ++ str "%)*" ++ LF ++ LF
  end.

Definition formatResponse (a : FormatArgs) : Response :=
  if is_empty (documents a) && is_empty (snippets a)
     && negb (pages_nonempty (pages a))
  then
    {| r_content := notFoundMessage;
       r_snippets := [];
       r_documents := None;
       r_pages := None |}
  else
    let response :=
      if listing_intent (query a) then
        let uniqueDocs := Array_from (new_Set (map d_path (documents a))) in
        forEach listing_line uniqueDocs
          (str "Here are the available documents:" ++ LF ++ LF)
      else if pages_nonempty (pages a) then
        forEach page_block (match pages a with Some ps => ps | None => [] end)
          (str "Here are the relevant pages:" ++ LF ++ LF)
      else
        forEach snippet_block (snippets a)
          (str "Here's what I found:" ++ LF ++ LF) in
    {| r_content := response;
       r_snippets := snippets a;
       r_documents := Some (documents a);
       r_pages := pages a |}.

(** ** The retrieval service as the component sees it *)

(** The response object of a query: its [results] array. *)
Record QueryResponse (A : Type) := mkQueryResponse { results : list A }.
Arguments mkQueryResponse {A} results.
Arguments results {A} q.

(** The methods of [client.queries] the component calls.  Each takes the
    properties of its request object and resolves to a response or rejects. *)
Record ZeroEntropy := mkClient {
  topDocuments :
    jsstring -> jsstring -> N -> bool -> Completion (QueryResponse Document);
  topSnippets :
    jsstring -> jsstring -> N -> bool -> Completion (QueryResponse Snippet);
  topPages :
    jsstring -> jsstring -> N -> bool -> Completion (QueryResponse Page)
}.

(** What the component does to the outside, in order. *)
Inductive Event :=
| CallTopDocuments (collection_name q : jsstring) (k : N) (include_metadata : bool)
| CallTopSnippets (collection_name q : jsstring) (k : N) (precise_responses : bool)
| CallTopPages (collection_name q : jsstring) (k : N) (include_content : bool)
| ConsoleError (label : jsstring) (error : JSError)
| PreventDefault.

Definition is_retrieval_call (ev : Event) : bool :=
  match ev with
  | CallTopDocuments _ _ _ _ | CallTopSnippets _ _ _ _ | CallTopPages _ _ _ _ =>
      true
  | _ => false
  end.

Definition is_page_call (ev : Event) : bool :=
  match ev with
  | CallTopPages _ _ _ _ => true
  | _ => false
  end.

(** ** Chat messages and the component's state (lines 5-35) *)

Inductive Role := user | assistant | system.

(** [interface Message]: [snippets] is the only evidence property. *)
Record Message := mkMessage {
  m_id : jsstring;
  m_role : Role;
  m_content : jsstring;
  m_snippets : option (list Snippet)
}.

Record World := mkWorld {
  messages : list Message;
  input : jsstring;
  isLoading : bool;
  trace : list Event
}.

Definition emit (ev : Event) : Eff World unit :=
  modify (fun w =>
    {| messages := messages w; input := input w; isLoading := isLoading w;
       trace := trace w ++ [ev] |}).

(** [setMessages(prev => f prev)]. *)
Definition setMessages (f : list Message -> list Message) : Eff World unit :=
  modify (fun w =>
    {| messages := f (messages w); input := input w;
       isLoading := isLoading w; trace := trace w |}).

Definition setInput (v : jsstring) : Eff World unit :=
  modify (fun w =>
    {| messages := messages w; input := v; isLoading := isLoading w;
       trace := trace w |}).

Definition setIsLoading (b : bool) : Eff World unit :=
  modify (fun w =>
    {| messages := messages w; input := input w; isLoading := b;
       trace := trace w |}).

(** An awaited call on the client: the call is recorded, then the service's
    completion is resumed or rethrown. *)
Definition call {A} (ev : Event) (c : Completion A) : Eff World A :=
  (emit ev ;;; await c)%eff.

(** The world with further events on its trace and the state untouched. *)
Definition logged (evs : list Event) (w : World) : World :=
  {| messages := messages w; input := input w; isLoading := isLoading w;
     trace := trace w ++ evs |}.

(** ** processQuery (lines 45-85) *)

Definition errorMessage : jsstring :=
  str "Sorry, I encountered an error while searching the documentation.".

Definition errorResponse : Response :=
  {| r_content := errorMessage;
     r_snippets := [];
     r_documents := None;
     r_pages := None |}.

(** The test of line 64. *)
Definition wants_pages (q : jsstring) : bool :=
  includes (toLowerCase q) (str "page").

Definition processQuery (client : ZeroEntropy) (collectionName q : jsstring)
  : Eff World Response :=
  try_catch
    (docsResponse <-
       call (CallTopDocuments collectionName q 3 true)
            (topDocuments client collectionName q 3%N true) ;;
     snippetsResponse <-
       call (CallTopSnippets collectionName q 3 true)
            (topSnippets client collectionName q 3%N true) ;;
     pagesResponse <-
       (if wants_pages q then
          r <- call (CallTopPages collectionName q 3 true)
                    (topPages client collectionName q 3%N true) ;;
          ret (Some r)
        else ret None) ;;
     ret (formatResponse
            {| documents := results docsResponse;
               snippets := results snippetsResponse;
               pages := option_map results pagesResponse;
               query := q |}))%eff
    (fun error =>
       emit (ConsoleError (str "Error querying documents:") error) ;;;
       ret errorResponse)%eff.

(** ** handleSubmit (lines 143-168)

    [client] and [collectionName] are the component's props; [now1] and
    [now2] are the two readings of [Date.now()].  The handler reads [input]
    from the render it was created in, which is the state it is called on.
    The guard of line 145, [!input.trim() || !client], is the [None] branch
    and the test on [trim]; past it [client!] is the [c] of [Some c]. *)

Definition handleSubmit (client : option ZeroEntropy)
  (collectionName : jsstring) (now1 now2 : float) : Eff World unit :=
  (emit PreventDefault ;;;
   w <- get ;;
   match client with
   | None => ret tt
   | Some c =>
       if negb (truthy (trim (input w))) then ret tt
       else
         let userMessage :=
           {| m_id := NumberToString now1;
              m_role := user;
              m_content := input w;
              m_snippets := None |} in
         setMessages (fun prev => prev ++ [userMessage]) ;;;
         setInput [] ;;;
         setIsLoading true ;;;
         r <- processQuery c collectionName (input w) ;;
         let assistantMessage :=
           {| m_id := NumberToString (now2 + 1)%float;
              m_role := assistant;
              m_content := r_content r;
              m_snippets := Some (r_snippets r) |} in
         setMessages (fun prev => prev ++ [assistantMessage]) ;;;
         setIsLoading false
   end)%eff.

(** The text field's [onChange] (line 238). *)
Definition handleChange (v : jsstring) : Eff World unit := setInput v.

(** The events of the form, and a session of them run in order, each
    submission run to its end before the next event.  Submissions that
    overlap, the handler suspended at its [await]s, are in [Overlap]. *)
Inductive UIEvent :=
| Submit (client : option ZeroEntropy) (collectionName : jsstring)
         (now1 now2 : float)
| Change (v : jsstring).

Definition dispatch (ev : UIEvent) (w : World) : World :=
  match ev with
  | Submit client collectionName now1 now2 =>
      snd (handleSubmit client collectionName now1 now2 w)
  | Change v => snd (handleChange v w)
  end.

Definition run_session (evs : list UIEvent) (w : World) : World :=
  fold_left (fun w ev => dispatch ev w) evs w.

(** The state of the first render (lines 22-34). *)
Definition greeting : jsstring :=
  str "Hello! I can help you understand the ZeroEntropy documentation. Try asking questions like:"
    ++ LF ++ LF
    ++ [8226%N] ++ str " How do I install ZeroEntropy?" ++ LF
    ++ [8226%N] ++ str " How do I create a collection?" ++ LF
    ++ [8226%N] ++ str " What are the available query methods?" ++ LF
    ++ [8226%N] ++ str " How do I handle document metadata?".

Definition initialWorld : World :=
  {| messages :=
       [ {| m_id := str "0"; m_role := system; m_content := greeting;
            m_snippets := None |} ];
     input := [];
     isLoading := false;
     trace := [] |}.

(** ** Evidence of a message and of a response *)

(** The evidence properties an object carries, each possibly missing. *)
Record Evidence := mkEvidence {
  ev_snippets : option (list Snippet);
  ev_documents : option (list Document);
  ev_pages : option (list Page)
}.

(** A [Message] has no [documents] and no [pages] property. *)
Definition message_evidence (m : Message) : Evidence :=
  {| ev_snippets := m_snippets m; ev_documents := None; ev_pages := None |}.

Definition response_evidence (r : Response) : Evidence :=
  {| ev_snippets := Some (r_snippets r);
     ev_documents := r_documents r;
     ev_pages := r_pages r |}.

(** ** Sample records and services *)

(** A document with the given path. *)
Definition doc (path : string) : Document := mkDocument (str path) 0 [].

(** The snippet Y of b.pdf with score 0.842, with or without a page span. *)
Definition snippetY (span : option (float * float)) : Snippet :=
  mkSnippet (str "Y") (str "b.pdf") 0.842 span.

(** The first page of a.pdf, with content X. *)
Definition pageX : Page := mkPage (str "a.pdf") 0 (str "X").

Definition sampleDocument : Document := mkDocument (str "a.md") 1 [].

(** A service with one document, no snippet and no page for every query. *)
Definition oneDocumentService : ZeroEntropy :=
  {| topDocuments := fun _ _ _ _ => Normal (mkQueryResponse [sampleDocument]);
     topSnippets := fun _ _ _ _ => Normal (mkQueryResponse []);
     topPages := fun _ _ _ _ => Normal (mkQueryResponse []) |}.

(** A service whose document query is rejected. *)
Definition unreachableService : ZeroEntropy :=
  {| topDocuments := fun _ _ _ _ => Throw (mkError (str "Network Error"));
     topSnippets := fun _ _ _ _ => Normal (mkQueryResponse []);
     topPages := fun _ _ _ _ => Normal (mkQueryResponse []) |}.

(** The first render with a text typed into the field. *)
Definition typed (text : jsstring) : World :=
  snd (handleChange text initialWorld).

(** A listing query submitted to the one-document service, and what the
    formatter returns for it. *)
Definition listingSubmission : World :=
  snd (handleSubmit (Some oneDocumentService) (str "default") 1 2
         (typed (str "show all documents"))).

Definition listingResponse : Response :=
  formatResponse
    {| documents := [sampleDocument];
       snippets := [];
       pages := None;
       query := str "show all documents" |}.

(** A page query sent to the unreachable service. *)
Definition unreachablePageQuery : World :=
  snd (processQuery unreachableService (str "default") (str "page 3")
         initialWorld).

End Chatbot.

(* ================================================================== *)
(** * The document console (Zero.tsx) *)
(* ================================================================== *)

Module Console.
Import JS Effects.

(** ** Data model *)

(** A browser [File] chosen for upload. *)
Record File := mkFile {
  f_name : jsstring;
  f_type : jsstring;
  f_size : float
}.

(** An entry of [documents.getInfoList]. *)
Record DocumentInfo := mkDocumentInfo {
  di_path : jsstring;
  di_index_status : jsstring
}.

Inductive SortOrder := asc | desc.

(** The request object of [documents.add] (lines 142-155). *)
Record AddRequest := mkAddRequest {
  add_collection_name : jsstring;
  add_path : jsstring;
  add_content_type : jsstring;
  add_base64_data : jsstring;
  add_upload_timestamp : jsstring;
  add_filename : jsstring;
  add_file_content_type : jsstring;
  add_size : jsstring
}.

(** The methods of [client.documents] the upload path calls. *)
Record ZeroEntropy := mkClient {
  documents_add : AddRequest -> Completion unit;
  documents_getInfoList : jsstring -> N -> Completion (list DocumentInfo)
}.

(** [interface DocumentState] (lines 4-15). *)
Record DocumentState := mkState {
  apiKey : jsstring;
  client : option ZeroEntropy;
  files : list File;
  documents : list DocumentInfo;
  selectedDocument : option DocumentInfo;
  message : jsstring;
  loading : bool;
  searchQuery : jsstring;
  sortOrder : SortOrder;
  filterStatus : jsstring
}.

(** The parsed body of the collection endpoint's answer, as far as the
    handler reads it: [response.error] and its [message]. *)
Record ApiError := mkApiError { api_message : jsstring }.
Record CreationResponse := mkCreationResponse { error : option ApiError }.

(** How [FileReader.readAsDataURL] ends: [onload] with [reader.result], or
    [onerror] with [reader.error]. *)
Inductive ReadOutcome :=
| Loaded (result : option jsstring)
| ReadError (e : JSError).

(** The browser around the component: the completion of
    [fetch(...).then(response => response.json())] for a request, the file
    reader, and [new Date().toISOString()] at the n-th file. *)
Record Browser := mkBrowser {
  fetch_json :
    jsstring -> jsstring -> jsstring -> jsstring -> jsstring ->
    Completion CreationResponse;
  readAsDataURL : File -> ReadOutcome;
  toISOString_now : nat -> jsstring
}.

Inductive Event :=
| Fetch (url method authorization content_type body : jsstring)
| ReadAsDataURL (file : File)
| CallDocumentsAdd (req : AddRequest)
| CallGetInfoList (collection_name : jsstring) (limit : N)
| ConsoleLog (text : jsstring)
| ConsoleError (label : jsstring) (e : JSError).

Definition is_add_call (ev : Event) : bool :=
  match ev with CallDocumentsAdd _ => true | _ => false end.

Record World := mkWorld {
  state : DocumentState;
  trace : list Event
}.

Definition emit (ev : Event) : Eff World unit :=
  modify (fun w => {| state := state w; trace := trace w ++ [ev] |}).

(** [setState(prev => f prev)]. *)
Definition setState (f : DocumentState -> DocumentState) : Eff World unit :=
  modify (fun w => {| state := f (state w); trace := trace w |}).

Definition call {A} (ev : Event) (c : Completion A) : Eff World A :=
  (emit ev ;;; await c)%eff.

Definition with_loading (b : bool) (prev : DocumentState) : DocumentState :=
  {| apiKey := apiKey prev; client := client prev; files := files prev;
     documents := documents prev; selectedDocument := selectedDocument prev;
     message := message prev; loading := b;
     searchQuery := searchQuery prev; sortOrder := sortOrder prev;
     filterStatus := filterStatus prev |}.

Definition with_message (msg : jsstring) (b : bool) (prev : DocumentState)
  : DocumentState :=
  {| apiKey := apiKey prev; client := client prev; files := files prev;
     documents := documents prev; selectedDocument := selectedDocument prev;
     message := msg; loading := b;
     searchQuery := searchQuery prev; sortOrder := sortOrder prev;
     filterStatus := filterStatus prev |}.

Definition with_documents (docs : list DocumentInfo) (prev : DocumentState)
  : DocumentState :=
  {| apiKey := apiKey prev; client := client prev; files := files prev;
     documents := docs; selectedDocument := selectedDocument prev;
     message := message prev; loading := false;
     searchQuery := searchQuery prev; sortOrder := sortOrder prev;
     filterStatus := filterStatus prev |}.

Definition uploaded (prev : DocumentState) : DocumentState :=
  {| apiKey := apiKey prev; client := client prev; files := [];
     documents := documents prev; selectedDocument := selectedDocument prev;
     message := str "Files uploaded successfully!"; loading := false;
     searchQuery := searchQuery prev; sortOrder := sortOrder prev;
     filterStatus := filterStatus prev |}.

Definition uploadFailedMessage : jsstring :=
  str "Upload failed. Please try again.".

Definition DQ : jsstring := [34%N].

Definition is_empty {A} (l : list A) : bool :=
  match l with [] => true | _ :: _ => false end.

(** [JSON.stringify({ collection_name: 'default' })]. *)
Definition creationBody : jsstring :=
  str "{" ++ DQ ++ str "collection_name" ++ DQ ++ str ":"
    ++ DQ ++ str "default" ++ DQ ++ str "}".

Definition creationUrl : jsstring :=
  str "https://api.zeroentropy.dev/v1/collections/add-collection".

Section Handlers.

(** Lines 64-84 of [loadDocuments]: the search filter, the status filter and
    the sort by [localeCompare], from the search text, the status filter and
    the sort order.  Collation is the host's. *)
Variable arrange :
  jsstring -> jsstring -> SortOrder -> list DocumentInfo -> list DocumentInfo.

Variable browser : Browser.

(** ** loadDocuments (lines 54-99); [st] is the render's state *)

Definition loadDocuments (st : DocumentState) : Eff World unit :=
  match client st with
  | None => ret tt
  | Some c =>
      (setState (with_loading true) ;;;
       try_catch
         (response <-
            call (CallGetInfoList (str "default") 1000)
                 (documents_getInfoList c (str "default") 1000%N) ;;
          let filteredDocs :=
            arrange (searchQuery st) (filterStatus st) (sortOrder st) response in
          setState (with_documents filteredDocs))
         (fun e =>
            setState (with_message (str "Failed to load documents") false) ;;;
            emit (ConsoleError (str "Loading error:") e)))%eff
  end.

(** ** handleFileUpload (lines 101-173) *)

(** Lines 117-129: the request, the reading of its answer, and the [catch]
    that logs and rethrows. *)
Definition createCollection (st : DocumentState) : Eff World unit :=
  let authorization := str "Bearer " ++ apiKey st in
  let contentType := str "application/json" in
  try_catch
    (response <-
       call (Fetch creationUrl (str "POST") authorization contentType
                   creationBody)
            (fetch_json browser creationUrl (str "POST") authorization
                        contentType creationBody) ;;
     match error response with
     | Some err =>
         if includes (api_message err) (str "already exists") then
           emit (ConsoleLog
                   (str "Collection already exists, proceeding with upload."))
         else throw (mkError (api_message err))
     | None => ret tt
     end)%eff
    (fun err =>
       emit (ConsoleError (str "Error creating collection:") err) ;;;
       throw err)%eff.

(** Line 135: [reader.result?.toString().split(',')[1]]. *)
Definition base64Part (result : option jsstring) : option jsstring :=
  match result with
  | Some r => nth_error (split 44%N r) 1
  | None => None
  end.

(** Lines 132-140: how the promise around the file reader settles. *)
Definition readCompletion (file : File) : Completion jsstring :=
  match readAsDataURL browser file with
  | Loaded result =>
      match base64Part result with
      | Some piece =>
          if truthy piece then Normal piece
          else Throw (mkError (str "Failed to read file"))
      | None => Throw (mkError (str "Failed to read file"))
      end
  | ReadError e => Throw e
  end.

Definition readBase64 (file : File) : Eff World jsstring :=
  call (ReadAsDataURL file) (readCompletion file).

(** Lines 131-156: the files one after the other, [i] counting them. *)
Fixpoint uploadFiles (c : ZeroEntropy) (fs : list File) (i : nat)
  : Eff World unit :=
  match fs with
  | [] => ret tt
  | file :: rest =>
      (base64Content <- readBase64 file ;;
       let req :=
         {| add_collection_name := str "default";
            add_path := str "documents/" ++ f_name file;
            add_content_type := str "auto";
            add_base64_data := base64Content;
            add_upload_timestamp := toISOString_now browser i;
            add_filename := f_name file;
            add_file_content_type := f_type file;
            add_size := NumberToString (f_size file) |} in
       call (CallDocumentsAdd req) (documents_add c req) ;;;
       uploadFiles c rest (S i))%eff
  end.

Definition handleFileUpload (st : DocumentState) : Eff World unit :=
  match client st with
  | None => ret tt
  | Some c =>
      if is_empty (files st) then ret tt
      else
        (setState (with_loading true) ;;;
         try_catch
           (createCollection st ;;;
            uploadFiles c (files st) 0 ;;;
            loadDocuments st ;;;
            setState uploaded)
           (fun e =>
              setState (with_message uploadFailedMessage false) ;;;
              emit (ConsoleError (str "Upload error:") e)))%eff
  end.

End Handlers.

(** ** The steps of an upload, for the statements below *)

(** The world with further events on its trace and the state untouched. *)
Definition logged (evs : list Event) (w : World) : World :=
  {| state := state w; trace := trace w ++ evs |}.

(** The request that creates the collection, and how the browser ends it. *)
Definition creationFetch (st : DocumentState) : Event :=
  Fetch creationUrl (str "POST") (str "Bearer " ++ apiKey st)
        (str "application/json") creationBody.

Definition creationOutcome (browser : Browser) (st : DocumentState)
  : Completion CreationResponse :=
  fetch_json browser creationUrl (str "POST") (str "Bearer " ++ apiKey st)
             (str "application/json") creationBody.

(** What [handleFileUpload] does once the collection step has returned:
    the files, the reload, the success state, under the same [catch]. *)
Definition afterCreation
  (arrange : jsstring -> jsstring -> SortOrder -> list DocumentInfo ->
             list DocumentInfo)
  (browser : Browser) (c : ZeroEntropy) (st : DocumentState)
  : Eff World unit :=
  try_catch
    (uploadFiles browser c (files st) 0 ;;;
     loadDocuments arrange st ;;;
     setState uploaded)%eff
    (fun e =>
       setState (with_message uploadFailedMessage false) ;;;
       emit (ConsoleError (str "Upload error:") e))%eff.

(** A computation that only ever adds to the trace. *)
Definition extends {A} (m : Eff World A) : Prop :=
  forall w, exists evs, trace (snd (m w)) = trace w ++ evs.

(** A computation whose first addition to the trace is [ev]. *)
Definition starts_with {A} (ev : Event) (m : Eff World A) : Prop :=
  forall w, exists evs, trace (snd (m w)) = trace w ++ ev :: evs.

(** ** Sample browser and service *)

Definition sampleFile : File := mkFile (str "notes.txt") (str "text/plain") 5.

(** The view is left as the service lists it. *)
Definition plainArrange (_ _ : jsstring) (_ : SortOrder)
  (l : list DocumentInfo) : list DocumentInfo := l.

Definition sampleService : ZeroEntropy :=
  {| documents_add := fun _ => Normal tt;
     documents_getInfoList := fun _ _ =>
       Normal [mkDocumentInfo (str "documents/notes.txt") (str "indexed")] |}.

(** A browser whose collection request is answered with the given body. *)
Definition browserAnswering (body : CreationResponse) : Browser :=
  {| fetch_json := fun _ _ _ _ _ => Normal body;
     readAsDataURL := fun _ =>
       Loaded (Some (str "data:text/plain;base64,aGVsbG8="));
     toISOString_now := fun _ => str "2024-01-01T00:00:00.000Z" |}.

Definition alreadyExists : CreationResponse :=
  {| error := Some (mkApiError (str "Collection default already exists")) |}.

Definition quotaExceeded : CreationResponse :=
  {| error := Some (mkApiError (str "Quota exceeded")) |}.

(** A signed-in console with one file chosen. *)
Definition sampleState : DocumentState :=
  {| apiKey := str "key"; client := Some sampleService;
     files := [sampleFile]; documents := []; selectedDocument := None;
     message := str "Authentication successful!"; loading := false;
     searchQuery := []; sortOrder := desc; filterStatus := str "all" |}.

Definition sampleWorld : World := {| state := sampleState; trace := [] |}.

End Console.

(* ================================================================== *)
(** * The specification's wording *)
(* ================================================================== *)

Module Spec.
Import JS Chatbot.

(** [s] contains [p]. *)
Definition contains (s p : jsstring) : Prop :=
  exists u v, s = u ++ p ++ v.

(** Deduplication where the first occurrence wins and the order of the
    input is kept: an element stays, and its later copies go. *)
Fixpoint first_occurrences (l : list jsstring) : list jsstring :=
  match l with
  | [] => []
  | x :: l' =>
      x :: filter (fun y => negb (jsstring_eqb y x)) (first_occurrences l')
  end.

(** The numbered line ["{i}. **{path}**"]. *)
Definition numbered_line (i : nat) (path : jsstring) : jsstring :=
  decimal (N.of_nat i) ++ str ". **" ++ path ++ str "**".

(** The lines numbered from [i] on, each ended by a line feed. *)
Fixpoint numbered_lines (i : nat) (paths : list jsstring) : jsstring :=
  match paths with
  | [] => []
  | p :: rest => numbered_line i p ++ LF ++ numbered_lines (S i) rest
  end.

(** The listing intent of a query. *)
Definition listing_query (q : jsstring) : Prop :=
  contains (toLowerCase q) (str "show") /\
  (contains (toLowerCase q) (str "document") \/
   contains (toLowerCase q) (str "all")).

(** [score * 100] rounded to one decimal, as the text of the citation. *)
Definition percent (score : float) : jsstring := toFixed 1 (score * 100)%float.

(** The citation line of a snippet. *)
Definition citation_line (s : Snippet) : jsstring :=
  match s_page_span s with
  | Some (first, last) =>
      str "*Source: `" ++ s_path s ++ str "` (Pages "
        ++ NumberToString (first + 1)%float ++ str "-"
        ++ NumberToString (last + 1)%float
        ++ str ", Relevance: " ++ percent (s_score s) ++ str "%)*"
  | None =>
      str "*Source: `" ++ s_path s ++ str "` (Relevance: "
        ++ percent (s_score s) ++ str "%)*"
  end.

(** A snippet's block: its content, a blank line, its citation line, a blank
    line. *)
Definition snippet_rendering (s : Snippet) : jsstring :=
  s_content s ++ LF ++ LF ++ citation_line s ++ LF ++ LF.

(** The heading of a page's block. *)
Definition page_heading (p : Page) : jsstring :=
  str "From document `" ++ p_path p ++ str "` (Page "
    ++ NumberToString (p_page_index p + 1)%float ++ str "):".

(** A page's block: the heading on its line, the full content, and a blank
    line. *)
Definition page_rendering (p : Page) : jsstring :=
  page_heading p ++ LF ++ p_content p ++ LF ++ LF.

(** An input is empty when there are no documents, no snippets and no pages
    (none requested, or none found). *)
Definition empty_input (a : FormatArgs) : Prop :=
  documents a = [] /\ snippets a = [] /\
  (pages a = None \/ pages a = Some []).

(** All code units are white space. *)
Definition blank (s : jsstring) : Prop :=
  Forall (fun c => isWhiteSpace c = true) s.

(** One of the retrieval calls a query gives rise to fails. *)
Definition retrieval_fails (c : ZeroEntropy) (collection q : jsstring) : Prop :=
  (exists e, topDocuments c collection q 3%N true = Effects.Throw e) \/
  (exists e, topSnippets c collection q 3%N true = Effects.Throw e) \/
  (wants_pages q = true /\
   exists e, topPages c collection q 3%N true = Effects.Throw e).

(** The two messages of a submission: the user's text, and the answer with
    its content and snippets. *)
Definition user_message (now1 : float) (text : jsstring) : Message :=
  {| m_id := NumberToString now1; m_role := user; m_content := text;
     m_snippets := None |}.

Definition assistant_message (now2 : float) (content : jsstring)
  (snips : list Snippet) : Message :=
  {| m_id := NumberToString (now2 + 1)%float; m_role := assistant;
     m_content := content; m_snippets := Some snips |}.

(** The world when [processQuery] is awaited: the user's message appended,
    the field cleared, loading entered. *)
Definition begun (now1 : float) (w : World) : World :=
  {| messages := messages w ++ [user_message now1 (input w)];
     input := [];
     isLoading := true;
     trace := trace w ++ [PreventDefault] |}.

(** The page results a query retrieves: none when pages are not asked for. *)
Definition retrieved_pages (c : ZeroEntropy) (collection q : jsstring)
  : option (list Page) :=
  if wants_pages q then
    match topPages c collection q 3%N true with
    | Effects.Normal r => Some (results r)
    | Effects.Throw _ => None
    end
  else None.

End Spec.

From Stdlib Require Import Sorting.Permutation.
From Stdlib Require Import Numbers.DecimalPos.

(* ================================================================== *)
(** * Further parts of the two components *)
(* ================================================================== *)

(** What the chatbot's render derives from the state, and readings of the
    transcript and the trace. *)
Module ChatbotView.
Import JS Effects Chatbot.

(** Line 245: the [disabled] of the Ask button. *)
Definition askDisabled (w : World) : bool :=
  isLoading w || negb (truthy (trim (input w))).


(** The query texts of the document queries on a trace, in order. *)
Definition documentQueries (t : list Event) : list jsstring :=
  flat_map (fun ev =>
              match ev with
              | CallTopDocuments _ q _ _ => [q]
              | _ => []
              end) t.

Definition is_user (m : Message) : bool :=
  match m_role m with user => true | _ => false end.

(** The texts of the user's messages of a transcript, in order. *)
Definition userTexts (ms : list Message) : list jsstring :=
  map m_content (filter is_user ms).

(** The three retrieval calls of a query, in the order of the source. *)
Definition retrievalCalls (collection q : jsstring) : list Event :=
  [CallTopDocuments collection q 3 true;
   CallTopSnippets collection q 3 true;
   CallTopPages collection q 3 true].

(** A decimal digit. *)
Definition isDigit (c : char16) : bool := (48 <=? c)%N && (c <=? 57)%N.

(** An input that passes the emptiness test of line 98. *)
Definition nonempty (a : FormatArgs) : Prop :=
  documents a <> [] \/ snippets a <> [] \/ pages_nonempty (pages a) = true.

End ChatbotView.

(** The console's remaining handlers and what its render derives. *)
Module ConsoleView.
Import JS Effects Console.

(** Lines 334-338: the status banner is rendered for a non-empty message,
    in the error colours when the message includes "failed". *)
Definition messageShown (st : DocumentState) : bool := truthy (message st).

Definition messageIsError (st : DocumentState) : bool :=
  includes (message st) (str "failed").

(** [{ ...prev, message }]: the message alone. *)
Definition set_message (msg : jsstring) (prev : DocumentState)
  : DocumentState :=
  {| apiKey := apiKey prev; client := client prev; files := files prev;
     documents := documents prev; selectedDocument := selectedDocument prev;
     message := msg; loading := loading prev;
     searchQuery := searchQuery prev; sortOrder := sortOrder prev;
     filterStatus := filterStatus prev |}.

(** [{ ...prev, client, message: 'Authentication successful!' }]. *)
Definition authenticated (c : ZeroEntropy) (prev : DocumentState)
  : DocumentState :=
  {| apiKey := apiKey prev; client := Some c; files := files prev;
     documents := documents prev; selectedDocument := selectedDocument prev;
     message := str "Authentication successful!"; loading := loading prev;
     searchQuery := searchQuery prev; sortOrder := sortOrder prev;
     filterStatus := filterStatus prev |}.

Definition authenticationFailedMessage : jsstring :=
  str "Authentication failed. Please check your API key.".

(** ** handleAuthenticate (lines 37-52)

    [construct] is [new ZeroEntropy({ apiKey })], which returns a client or
    throws; [st] is the render's state. *)
Definition handleAuthenticate (construct : jsstring -> Completion ZeroEntropy)
  (st : DocumentState) : Eff World unit :=
  try_catch
    (c <- await (construct (apiKey st)) ;;
     setState (authenticated c))%eff
    (fun e =>
       setState (set_message authenticationFailedMessage) ;;;
       emit (ConsoleError (str "Authentication error:") e))%eff.

(** Line 237: the [disabled] of the upload button. *)
Definition uploadDisabled (st : DocumentState) : bool :=
  loading st || is_empty (files st).

(** ** The arrangement of the list (lines 64-84 of loadDocuments)

    The host supplies the full Unicode [toLowerCase], [Array.prototype.sort]
    and [localeCompare]; the filters and the comparator are the source's. *)
Section Arrange.

Variable lower : jsstring -> jsstring.
Variable sortWith :
  (DocumentInfo -> DocumentInfo -> Z) -> list DocumentInfo ->
  list DocumentInfo.
Variable localeCompare : jsstring -> jsstring -> Z.

(** Lines 68-70: the callback of the search filter. *)
Definition matchesSearch (searchQuery : jsstring) (d : DocumentInfo) : bool :=
  includes (lower (di_path d)) (lower searchQuery).

(** Lines 75-77: the callback of the status filter. *)
Definition matchesStatus (filterStatus : jsstring) (d : DocumentInfo) : bool :=
  jsstring_eqb (di_index_status d) filterStatus.

(** Lines 81-84: the comparator. *)
Definition comparator (order : SortOrder) (a b : DocumentInfo) : Z :=
  let comparison := localeCompare (di_path a) (di_path b) in
  match order with
  | asc => comparison
  | desc => (- comparison)%Z
  end.

Definition arrangeView (searchQuery filterStatus : jsstring)
  (order : SortOrder) (docs : list DocumentInfo) : list DocumentInfo :=
  let filtered1 :=
    if truthy searchQuery then filter (matchesSearch searchQuery) docs
    else docs in
  let filtered2 :=
    if negb (jsstring_eqb filterStatus (str "all"))
    then filter (matchesStatus filterStatus) filtered1
    else filtered1 in
  sortWith (comparator order) filtered2.

End Arrange.

(** A stable insertion sort, as one host's [sort]. *)
Fixpoint insertBy (cmp : DocumentInfo -> DocumentInfo -> Z) (x : DocumentInfo)
  (l : list DocumentInfo) : list DocumentInfo :=
  match l with
  | [] => [x]
  | y :: l' =>
      if (cmp x y <? 0)%Z then x :: l else y :: insertBy cmp x l'
  end.

Definition insertionSort (cmp : DocumentInfo -> DocumentInfo -> Z)
  (l : list DocumentInfo) : list DocumentInfo :=
  fold_right (insertBy cmp) [] l.

(** Code-unit order, as one host's comparison of strings. *)
Fixpoint compareUnits (a b : jsstring) : Z :=
  match a, b with
  | [], [] => 0
  | [], _ :: _ => (-1)
  | _ :: _, [] => 1
  | x :: a', y :: b' =>
      if (x <? y)%N then (-1)
      else if (y <? x)%N then 1
      else compareUnits a' b'
  end.

(** ** Readings of an upload's trace *)

(** The request object of the [i]-th file, read as [base64Content]. *)
Definition addRequest (browser : Browser) (file : File)
  (base64Content : jsstring) (i : nat) : AddRequest :=
  {| add_collection_name := str "default";
     add_path := str "documents/" ++ f_name file;
     add_content_type := str "auto";
     add_base64_data := base64Content;
     add_upload_timestamp := toISOString_now browser i;
     add_filename := f_name file;
     add_file_content_type := f_type file;
     add_size := NumberToString (f_size file) |}.

(** The files read, the file names of the requests made, and the number of
    list requests on a trace, in order. *)
Definition filesRead (t : list Event) : list File :=
  flat_map (fun ev =>
              match ev with ReadAsDataURL f => [f] | _ => [] end) t.

Definition namesAdded (t : list Event) : list jsstring :=
  flat_map (fun ev =>
              match ev with
              | CallDocumentsAdd r => [add_filename r]
              | _ => []
              end) t.

Definition listRequests (t : list Event) : nat :=
  List.length (filter (fun ev =>
                         match ev with
                         | CallGetInfoList _ _ => true
                         | _ => false
                         end) t).

(** The collection step is passed: the answer has no error, or one whose
    message includes "already exists". *)
Definition creationAccepted (browser : Browser) (st : DocumentState) : Prop :=
  creationOutcome browser st = Normal {| error := None |} \/
  exists err,
    creationOutcome browser st = Normal {| error := Some err |} /\
    includes (api_message err) (str "already exists") = true.

(** A file uploads: it is read, and the request for it is accepted. *)
Definition fileUploads (browser : Browser) (c : ZeroEntropy) (i : nat)
  (f : File) : Prop :=
  exists b,
    readCompletion browser f = Normal b /\
    documents_add c (addRequest browser f b i) = Normal tt.

(** A file fails: its reading fails, or the request for it is rejected. *)
Definition fileFails (browser : Browser) (c : ZeroEntropy) (i : nat)
  (f : File) : Prop :=
  (exists e, readCompletion browser f = Throw e) \/
  (exists b e,
     readCompletion browser f = Normal b /\
     documents_add c (addRequest browser f b i) = Throw e).

(** Each file of [fs] uploads, [i] being the index of the first. *)
Fixpoint allUpload (browser : Browser) (c : ZeroEntropy) (i : nat)
  (fs : list File) : Prop :=
  match fs with
  | [] => True
  | f :: rest => fileUploads browser c i f /\ allUpload browser c (S i) rest
  end.

(** A computation that leaves the component's state as it is. *)
Definition keeps_state {A} (m : Eff World A) : Prop :=
  forall w, state (snd (m w)) = state w.

(** ** Sample values *)

(** A service whose list request fails. *)
Definition unlistedService : ZeroEntropy :=
  {| documents_add := fun _ => Normal tt;
     documents_getInfoList := fun _ _ =>
       Throw (mkError (str "Service unavailable")) |}.

Definition secondFile : File := mkFile (str "more.txt") (str "text/plain") 7.

(** A constructor that accepts only the key ["key"]. *)
Definition constructFor (key : jsstring) : Completion ZeroEntropy :=
  if jsstring_eqb key (str "key") then Normal sampleService
  else Throw (mkError (str "Missing credentials")).

End ConsoleView.

(** The submit handler with its awaits: a submission is suspended at each
    [await] of [processQuery] (lines 48, 56, 65) and at the [await] of
    [handleSubmit] (line 157), and other events run in between. *)
Module Overlap.
Import JS Effects Chatbot.

(** Where a submission waits, with the variables its continuation uses. *)
Inductive Suspended :=
| AtDocuments (c : ZeroEntropy) (collection q : jsstring)
| AtSnippets (c : ZeroEntropy) (collection q : jsstring)
             (docsResponse : QueryResponse Document)
| AtPages (c : ZeroEntropy) (collection q : jsstring)
          (docsResponse : QueryResponse Document)
          (snippetsResponse : QueryResponse Snippet)
| AtAnswer (r : Response).

(** The component with the submissions that are under way, oldest first. *)
Record System := mkSystem {
  world : World;
  suspended : list Suspended
}.

(** The world after a synchronous stretch of the handler. *)
Definition exec (m : Eff World unit) (w : World) : World := snd (m w).

(** Lines 144-157 and 48: the handler up to its first [await].  The first
    retrieval call is made before the handler is suspended. *)
Definition submitStart (client : option ZeroEntropy)
  (collectionName : jsstring) (now1 : float) (s : System) : System :=
  let w0 := exec (emit PreventDefault) (world s) in
  match client with
  | None => {| world := w0; suspended := suspended s |}
  | Some c =>
      if negb (truthy (trim (input w0)))
      then {| world := w0; suspended := suspended s |}
      else
        let q := input w0 in
        let userMessage :=
          {| m_id := NumberToString now1; m_role := user;
             m_content := q; m_snippets := None |} in
        {| world :=
             exec (setMessages (fun prev => prev ++ [userMessage]) ;;;
                   setInput [] ;;;
                   setIsLoading true ;;;
                   emit (CallTopDocuments collectionName q 3 true))%eff w0;
           suspended := suspended s ++ [AtDocuments c collectionName q] |}
  end.

(** Lines 78-84: the [catch] of [processQuery]; its result is then awaited
    by [handleSubmit]. *)
Definition caught (e : JSError) (w : World) : World * option Suspended :=
  (exec (emit (ConsoleError (str "Error querying documents:") e)) w,
   Some (AtAnswer errorResponse)).

(** One continuation: from an [await] to the next one, or to the end of the
    handler.  [now2] is the reading of [Date.now()] of line 160. *)
Definition resumeTask (t : Suspended) (now2 : float) (w : World)
  : World * option Suspended :=
  match t with
  | AtDocuments c collection q =>
      match topDocuments c collection q 3%N true with
      | Normal docsResponse =>
          (exec (emit (CallTopSnippets collection q 3 true)) w,
           Some (AtSnippets c collection q docsResponse))
      | Throw e => caught e w
      end
  | AtSnippets c collection q docsResponse =>
      match topSnippets c collection q 3%N true with
      | Normal snippetsResponse =>
          if wants_pages q then
            (exec (emit (CallTopPages collection q 3 true)) w,
             Some (AtPages c collection q docsResponse snippetsResponse))
          else
            (w, Some (AtAnswer
                        (formatResponse
                           {| documents := results docsResponse;
                              snippets := results snippetsResponse;
                              pages := None;
                              query := q |})))
      | Throw e => caught e w
      end
  | AtPages c collection q docsResponse snippetsResponse =>
      match topPages c collection q 3%N true with
      | Normal pagesResponse =>
          (w, Some (AtAnswer
                      (formatResponse
                         {| documents := results docsResponse;
                            snippets := results snippetsResponse;
                            pages := Some (results pagesResponse);
                            query := q |})))
      | Throw e => caught e w
      end
  | AtAnswer r =>
      let assistantMessage :=
        {| m_id := NumberToString (now2 + 1)%float; m_role := assistant;
           m_content := r_content r; m_snippets := Some (r_snippets r) |} in
      (exec (setMessages (fun prev => prev ++ [assistantMessage]) ;;;
             setIsLoading false)%eff w,
       None)
  end.

(** The [i]-th suspended submission is resumed; nothing happens when there
    is none. *)
Definition resume (i : nat) (now2 : float) (s : System) : System :=
  match nth_error (suspended s) i with
  | None => s
  | Some t =>
      let (w', t') := resumeTask t now2 (world s) in
      {| world := w';
         suspended :=
           firstn i (suspended s)
             ++ match t' with Some t'' => [t''] | None => [] end
             ++ skipn (S i) (suspended s) |}
  end.





(** A submission resumed to its end with nothing in between: four
    continuations at most. *)
Definition settle (now2 : float) (s : System) : System :=
  resume 0 now2 (resume 0 now2 (resume 0 now2 (resume 0 now2 s))).








End Overlap.

(** The formatter over a store.  [formatResponse] is a closure of the
    component: the component's state is in its scope, its arguments and its
    result are references to arrays, and its body creates arrays, a set and
    the variable [response] that the [forEach] callbacks assign.  Here the
    body is written with these reads, allocations and assignments on one
    machine state. *)
Module Store.
Import JS Effects Chatbot.

(** An object of the heap: an array of results, an array of strings, a set
    of strings, or a variable that closures share. *)
Inductive Object :=
| DocumentArray (l : list Document)
| SnippetArray (l : list Snippet)
| PageArray (l : list Page)
| StringArray (l : list jsstring)
| StringSet (s : JSSet)
| StringVariable (v : jsstring).

Definition Ref := nat.

Record Machine := mkMachine {
  component : World;
  heap : list Object
}.

Definition typeError : JSError := mkError (str "TypeError").

(** The [length] of an array. *)
Definition lengthOf (r : Ref) : Eff Machine nat :=
  fun m =>
    match nth_error (heap m) r with
    | Some (DocumentArray l) => (Normal (List.length l), m)
    | Some (SnippetArray l) => (Normal (List.length l), m)
    | Some (PageArray l) => (Normal (List.length l), m)
    | Some (StringArray l) => (Normal (List.length l), m)
    | _ => (Throw typeError, m)
    end.

Definition readDocuments (r : Ref) : Eff Machine (list Document) :=
  fun m =>
    match nth_error (heap m) r with
    | Some (DocumentArray l) => (Normal l, m)
    | _ => (Throw typeError, m)
    end.

Definition readSnippets (r : Ref) : Eff Machine (list Snippet) :=
  fun m =>
    match nth_error (heap m) r with
    | Some (SnippetArray l) => (Normal l, m)
    | _ => (Throw typeError, m)
    end.

Definition readPages (r : Ref) : Eff Machine (list Page) :=
  fun m =>
    match nth_error (heap m) r with
    | Some (PageArray l) => (Normal l, m)
    | _ => (Throw typeError, m)
    end.

Definition readStrings (r : Ref) : Eff Machine (list jsstring) :=
  fun m =>
    match nth_error (heap m) r with
    | Some (StringArray l) => (Normal l, m)
    | _ => (Throw typeError, m)
    end.

Definition readSet (r : Ref) : Eff Machine JSSet :=
  fun m =>
    match nth_error (heap m) r with
    | Some (StringSet s) => (Normal s, m)
    | _ => (Throw typeError, m)
    end.

Definition readVariable (r : Ref) : Eff Machine jsstring :=
  fun m =>
    match nth_error (heap m) r with
    | Some (StringVariable v) => (Normal v, m)
    | _ => (Throw typeError, m)
    end.

(** A new object, at the end of the heap. *)
Definition allocate (o : Object) : Eff Machine Ref :=
  fun m =>
    (Normal (List.length (heap m)),
     {| component := component m; heap := heap m ++ [o] |}).

Fixpoint update (h : list Object) (r : Ref) (o : Object) : list Object :=
  match h, r with
  | [], _ => []
  | _ :: h', O => o :: h'
  | x :: h', S r' => x :: update h' r' o
  end.

(** An assignment to a variable. *)
Definition assign (r : Ref) (v : jsstring) : Eff Machine unit :=
  fun m =>
    match nth_error (heap m) r with
    | Some (StringVariable _) =>
        (Normal tt,
         {| component := component m;
            heap := update (heap m) r (StringVariable v) |})
    | _ => (Throw typeError, m)
    end.

(** [documents.map(d => d.path)]: a new array. *)
Definition mapPaths (documents : Ref) : Eff Machine Ref :=
  (l <- readDocuments documents ;;
   allocate (StringArray (map d_path l)))%eff.

(** [new Set(array)]: a new set, the values added in order. *)
Definition newSet (array : Ref) : Eff Machine Ref :=
  (l <- readStrings array ;;
   allocate (StringSet (fold_left Set_add l [])))%eff.

(** [Array.from(set)]: a new array. *)
Definition arrayFrom (set : Ref) : Eff Machine Ref :=
  (s <- readSet set ;;
   allocate (StringArray s))%eff.

(** [array.forEach(callback)] over the elements read from the array. *)
Fixpoint forEachFrom {A : Type} (callback : A -> nat -> Eff Machine unit)
  (l : list A) (i : nat) : Eff Machine unit :=
  match l with
  | [] => ret tt
  | x :: l' => (callback x i ;;; forEachFrom callback l' (S i))%eff
  end.

Definition forEach {A : Type} (callback : A -> nat -> Eff Machine unit)
  (l : list A) : Eff Machine unit :=
  forEachFrom callback l 0.

(** A callback that assigns [response]: it reads the variable and stores
    what the statements of its body make of it. *)
Definition appending {A : Type} (response : Ref)
  (body : A -> nat -> jsstring -> jsstring) (x : A) (i : nat)
  : Eff Machine unit :=
  (v <- readVariable response ;;
   assign response (body x i v))%eff.

(** The argument object and the returned object, with references. *)
Record ArgumentObject := mkArgumentObject {
  a_documents : Ref;
  a_snippets : Ref;
  a_pages : option Ref;
  a_query : jsstring
}.

Record ResponseObject := mkResponseObject {
  o_content : jsstring;
  o_snippets : Ref;
  o_documents : option Ref;
  o_pages : option Ref
}.

(** [pages?.length], as a truth value. *)
Definition pagesLength (pages : option Ref) : Eff Machine bool :=
  match pages with
  | None => ret false
  | Some r => (n <- lengthOf r ;; ret (negb (Nat.eqb n 0)))%eff
  end.

(** Line 98, with the short circuit of [&&]. *)
Definition nothingFound (a : ArgumentObject) : Eff Machine bool :=
  (nd <- lengthOf (a_documents a) ;;
   if negb (Nat.eqb nd 0) then ret false
   else
     ns <- lengthOf (a_snippets a) ;;
     if negb (Nat.eqb ns 0) then ret false
     else
       p <- pagesLength (a_pages a) ;;
       ret (negb p))%eff.

(** Lines 110-112. *)
Definition listingBranch (a : ArgumentObject) (response : Ref)
  : Eff Machine unit :=
  (paths <- mapPaths (a_documents a) ;;
   set <- newSet paths ;;
   uniqueDocs <- arrayFrom set ;;
   assign response (str "Here are the available documents:" ++ LF ++ LF) ;;;
   items <- readStrings uniqueDocs ;;
   forEach (appending response listing_line) items)%eff.

(** Lines 116-120. *)
Definition pagesBranch (pages : Ref) (response : Ref) : Eff Machine unit :=
  (assign response (str "Here are the relevant pages:" ++ LF ++ LF) ;;;
   items <- readPages pages ;;
   forEach (appending response page_block) items)%eff.

(** Lines 124-132. *)
Definition snippetsBranch (a : ArgumentObject) (response : Ref)
  : Eff Machine unit :=
  (assign response (str "Here's what I found:" ++ LF ++ LF) ;;;
   items <- readSnippets (a_snippets a) ;;
   forEach (appending response snippet_block) items)%eff.

(** Lines 87-141. *)
Definition formatResponse (a : ArgumentObject) : Eff Machine ResponseObject :=
  (nothing <- nothingFound a ;;
   if nothing then
     empty <- allocate (SnippetArray []) ;;
     ret {| o_content := notFoundMessage;
            o_snippets := empty;
            o_documents := None;
            o_pages := None |}
   else
     response <- allocate (StringVariable []) ;;
     (if listing_intent (a_query a) then listingBranch a response
      else
        match a_pages a with
        | Some pages =>
            n <- lengthOf pages ;;
            if negb (Nat.eqb n 0) then pagesBranch pages response
            else snippetsBranch a response
        | None => snippetsBranch a response
        end) ;;;
     content <- readVariable response ;;
     ret {| o_content := content;
            o_snippets := a_snippets a;
            o_documents := Some (a_documents a);
            o_pages := a_pages a |})%eff.

(** The arguments refer to arrays of the declared kinds that hold [ds], [ss]
    and, when there are pages, [ps]. *)
Definition holds (m : Machine) (a : ArgumentObject) (ds : list Document)
  (ss : list Snippet) (ps : option (list Page)) : Prop :=
  nth_error (heap m) (a_documents a) = Some (DocumentArray ds) /\
  nth_error (heap m) (a_snippets a) = Some (SnippetArray ss) /\
  match a_pages a, ps with
  | Some r, Some l => nth_error (heap m) r = Some (PageArray l)
  | None, None => True
  | _, _ => False
  end.

(** The machine after a call that has left what there was as it was and has
    created [fresh]. *)
Definition extended (m : Machine) (fresh : list Object) : Machine :=
  {| component := component m; heap := heap m ++ fresh |}.

(** What a caller finds in a returned object: its content and the arrays its
    properties refer to. *)
Definition observed (m : Machine) (r : ResponseObject) : option Response :=
  match nth_error (heap m) (o_snippets r) with
  | Some (SnippetArray ss) =>
      let found (ds : option (list Document)) (ps : option (list Page)) :=
        Some {| r_content := o_content r; r_snippets := ss;
                r_documents := ds; r_pages := ps |} in
      let withDocuments (ps : option (list Page)) :=
        match o_documents r with
        | None => found None ps
        | Some d =>
            match nth_error (heap m) d with
            | Some (DocumentArray ds) => found (Some ds) ps
            | _ => None
            end
        end in
      match o_pages r with
      | None => withDocuments None
      | Some p =>
          match nth_error (heap m) p with
          | Some (PageArray ps) => withDocuments (Some ps)
          | _ => None
          end
      end
  | _ => None
  end.

(** Two machines that hold the same three arrays at different places, among
    other objects, in components in different states. *)
Definition sampleMachine : Machine :=
  {| component := listingSubmission;
     heap := [StringArray [str "unrelated"];
              SnippetArray [snippetY None];
              DocumentArray [doc "a"; doc "b"; doc "a"];
              PageArray [pageX]] |}.

Definition sampleArguments : ArgumentObject :=
  {| a_documents := 2; a_snippets := 1; a_pages := Some 3;
     a_query := str "show all documents" |}.

Definition otherMachine : Machine :=
  {| component := initialWorld;
     heap := [PageArray [pageX];
              StringVariable (str "left by an earlier call");
              DocumentArray [doc "a"; doc "b"; doc "a"];
              StringSet [str "a"];
              SnippetArray [snippetY None]] |}.

Definition otherArguments : ArgumentObject :=
  {| a_documents := 2; a_snippets := 4; a_pages := Some 0;
     a_query := str "show all documents" |}.

End Store.

(* ================================================================== *)
(** * Facts about strings, arrays and sets *)
(* ================================================================== *)

Section StringFacts.
Import JS.

Lemma jsstring_eqb_eq (a b : jsstring) : jsstring_eqb a b = true <-> a = b.
Proof.
  revert b; induction a as [|x a IH]; intros [|y b]; simpl; split;
    try discriminate; try reflexivity.
  - intros H. apply andb_true_iff in H as [Hx Hab].
    apply N.eqb_eq in Hx. apply IH in Hab. congruence.
  - intros H. injection H as -> ->. apply andb_true_iff. split.
    + apply N.eqb_refl.
    + now apply IH.
Qed.

Lemma jsstring_eqb_refl (a : jsstring) : jsstring_eqb a a = true.
Proof. now apply jsstring_eqb_eq. Qed.

Lemma jsstring_eqb_neq (a b : jsstring) : jsstring_eqb a b = false <-> a <> b.
Proof.
  split.
  - intros H E. apply jsstring_eqb_eq in E. congruence.
  - intros H. destruct (jsstring_eqb a b) eqn:E; [|reflexivity].
    apply jsstring_eqb_eq in E. contradiction.
Qed.

Lemma jsstring_eqb_sym (a b : jsstring) : jsstring_eqb a b = jsstring_eqb b a.
Proof.
  destruct (jsstring_eqb a b) eqn:E.
  - apply jsstring_eqb_eq in E. subst. symmetry. apply jsstring_eqb_refl.
  - symmetry. apply jsstring_eqb_neq. apply jsstring_eqb_neq in E. congruence.
Qed.

Lemma isPrefixOf_spec (p s : jsstring) :
  isPrefixOf p s = true <-> exists v, s = p ++ v.
Proof.
  revert s; induction p as [|a p IH]; intros s; simpl.
  - split; [intros _; now exists s | reflexivity].
  - destruct s as [|b s].
    + split; [discriminate | intros [v H]; discriminate].
    + rewrite andb_true_iff, N.eqb_eq, IH. split.
      * intros [-> [v ->]]. now exists v.
      * intros [v H]. injection H as -> ->. split; [reflexivity | now exists v].
Qed.

(** [includes] is containment. *)
Lemma includes_spec (s p : jsstring) :
  includes s p = true <-> Spec.contains s p.
Proof.
  unfold Spec.contains. induction s as [|c s IH].
  - simpl. rewrite orb_false_r, isPrefixOf_spec. split.
    + intros [v H]. exists [], v. exact H.
    + intros [u [v H]]. destruct u; [now exists v | discriminate].
  - cbn [includes]. rewrite orb_true_iff, isPrefixOf_spec, IH. split.
    + intros [[v H] | [u [v H]]].
      * exists [], v. exact H.
      * exists (c :: u), v. simpl. now rewrite H.
    + intros [u [v H]]. destruct u as [|c' u].
      * left. now exists v.
      * right. injection H as _ H. now exists u, v.
Qed.

Lemma trimStart_head (s : jsstring) :
  trimStart s = [] \/
  exists c t, trimStart s = c :: t /\ isWhiteSpace c = false.
Proof.
  induction s as [|c s IH]; simpl.
  - now left.
  - destruct (isWhiteSpace c) eqn:E; [exact IH|].
    right. now exists c, s.
Qed.

Lemma trimStart_nil (s : jsstring) : trimStart s = [] <-> Spec.blank s.
Proof.
  unfold Spec.blank. induction s as [|c s IH]; simpl.
  - split; [constructor | reflexivity].
  - destruct (isWhiteSpace c) eqn:E.
    + rewrite IH. split; intros H.
      * now constructor.
      * now inversion H.
    + split; [discriminate|]. intros H. inversion H. congruence.
Qed.

(** [trim] leaves nothing exactly of the strings that are blank. *)
Lemma trim_nil (s : jsstring) : trim s = [] <-> Spec.blank s.
Proof.
  unfold trim, trimEnd. split.
  - intros H. apply (f_equal (@rev _)) in H. rewrite rev_involutive in H.
    simpl in H. apply trimStart_nil in H.
    destruct (trimStart_head s) as [E | (c & t & E & Hc)].
    + now apply trimStart_nil.
    + rewrite E in H. unfold Spec.blank in H.
      rewrite Forall_forall in H. specialize (H c).
      rewrite H in Hc; [discriminate|]. apply in_rev. rewrite rev_involutive.
      now left.
  - intros H. apply trimStart_nil in H. now rewrite H.
Qed.

Lemma truthy_trim (s : jsstring) : truthy (trim s) = false <-> Spec.blank s.
Proof.
  rewrite <- trim_nil. destruct (trim s); simpl; split; congruence.
Qed.

End StringFacts.

Section ArrayFacts.
Import JS Chatbot.

(** A [forEach] whose callback appends to the variable is the variable
    followed by the pieces, in the array's order. *)
Lemma forEach_from_append {A : Type} (f : A -> nat -> jsstring -> jsstring)
  (g : A -> nat -> jsstring) :
  (forall x i r, f x i r = r ++ g x i) ->
  forall l i acc,
    forEach_from f l i acc =
    acc ++ List.concat (map (fun p => g (snd p) (fst p))
                       (combine (seq i (List.length l)) l)).
Proof.
  intros Hf l. induction l as [|x l IH]; intros i acc; simpl.
  - now rewrite app_nil_r.
  - rewrite IH, Hf, <- app_assoc. reflexivity.
Qed.

Lemma forEach_append_map {A : Type} (f : A -> nat -> jsstring -> jsstring)
  (g : A -> jsstring) :
  (forall x i r, f x i r = r ++ g x) ->
  forall l acc, forEach f l acc = acc ++ List.concat (map g l).
Proof.
  intros Hf l acc. unfold forEach.
  rewrite (forEach_from_append f (fun x _ => g x) Hf).
  f_equal. f_equal. generalize 0. induction l as [|x l IH]; intros n; simpl.
  - reflexivity.
  - now rewrite IH.
Qed.

Lemma Set_has_app (s : JSSet) (x y : jsstring) :
  Set_has (s ++ [x]) y = Set_has s y || jsstring_eqb y x.
Proof.
  unfold Set_has. rewrite existsb_app. simpl. now rewrite orb_false_r.
Qed.

Lemma filter_filter_ext {A : Type} (p q r : A -> bool) (l : list A) :
  (forall x, r x = p x && q x) ->
  filter r l = filter p (filter q l).
Proof.
  intros H. induction l as [|x l IH]; simpl; [reflexivity|].
  rewrite H. destruct (q x); simpl.
  - rewrite andb_true_r. destruct (p x); now rewrite IH.
  - now rewrite andb_false_r.
Qed.

Lemma fold_Set_add (l : list jsstring) (acc : JSSet) :
  fold_left Set_add l acc =
  acc ++ filter (fun y => negb (Set_has acc y)) (Spec.first_occurrences l).
Proof.
  revert acc. induction l as [|x l IH]; intros acc; simpl.
  - now rewrite app_nil_r.
  - rewrite IH. unfold Set_add. destruct (Set_has acc x) eqn:Hx; simpl.
    + f_equal. apply filter_filter_ext. intros y.
      destruct (jsstring_eqb y x) eqn:E; simpl.
      * apply jsstring_eqb_eq in E. subst. now rewrite Hx.
      * now rewrite andb_true_r.
    + rewrite <- app_assoc. simpl. f_equal. f_equal.
      apply filter_filter_ext. intros y. rewrite Set_has_app.
      now rewrite negb_orb.
Qed.

(** [Array.from(new Set(l))] keeps the first occurrences, in order. *)
Lemma new_Set_first_occurrences (l : list jsstring) :
  Array_from (new_Set l) = Spec.first_occurrences l.
Proof.
  unfold Array_from, new_Set. rewrite fold_Set_add. simpl.
  induction (Spec.first_occurrences l) as [|x r IH]; simpl; congruence.
Qed.

Lemma first_occurrences_In (l : list jsstring) (x : jsstring) :
  In x (Spec.first_occurrences l) <-> In x l.
Proof.
  induction l as [|y l IH]; simpl; [tauto|].
  rewrite filter_In, IH. split.
  - intros [H | [H _]]; auto.
  - intros [H | H]; auto.
    destruct (jsstring_eqb x y) eqn:E.
    + left. apply jsstring_eqb_eq in E. congruence.
    + right. now split.
Qed.

Lemma first_occurrences_NoDup (l : list jsstring) :
  NoDup (Spec.first_occurrences l).
Proof.
  induction l as [|y l IH]; simpl; constructor.
  - rewrite filter_In. cbv beta. intros [_ H].
    now rewrite jsstring_eqb_refl in H.
  - now apply NoDup_filter.
Qed.

(** The lines the listing loop appends are the numbered lines from 1. *)
Lemma listing_lines (paths : list jsstring) (i : nat) (acc : jsstring) :
  forEach_from listing_line paths i acc =
  acc ++ Spec.numbered_lines (S i) paths.
Proof.
  revert i acc. induction paths as [|p paths IH]; intros i acc; simpl.
  - now rewrite app_nil_r.
  - rewrite IH. unfold listing_line, Spec.numbered_line.
    replace (i + 1) with (S i) by lia.
    now rewrite <- !app_assoc.
Qed.

Lemma page_blocks (ps : list Page) (acc : jsstring) :
  forEach page_block ps acc = acc ++ List.concat (map Spec.page_rendering ps).
Proof.
  apply forEach_append_map. intros x i r.
  unfold page_block, Spec.page_rendering, Spec.page_heading.
  now rewrite <- !app_assoc.
Qed.

Lemma snippet_blocks (ss : list Snippet) (acc : jsstring) :
  forEach snippet_block ss acc = acc ++ List.concat (map Spec.snippet_rendering ss).
Proof.
  apply forEach_append_map. intros x i r.
  unfold snippet_block, Spec.snippet_rendering, Spec.citation_line,
    Spec.percent, relevance.
  destruct (s_page_span x) as [[a b]|]; now rewrite <- !app_assoc.
Qed.

Lemma listing_intent_spec (q : jsstring) :
  listing_intent q = true <-> Spec.listing_query q.
Proof.
  unfold listing_intent, Spec.listing_query.
  now rewrite andb_true_iff, orb_true_iff, !includes_spec.
Qed.

Lemma nonempty_input (a : FormatArgs) :
  documents a <> [] \/ snippets a <> [] \/ pages_nonempty (pages a) = true ->
  is_empty (documents a) && is_empty (snippets a)
    && negb (pages_nonempty (pages a)) = false.
Proof.
  intros [H | [H | H]].
  - destruct (documents a); [contradiction | reflexivity].
  - destruct (snippets a); [contradiction|]. simpl. now rewrite andb_false_r.
  - rewrite H. simpl. now rewrite andb_false_r.
Qed.

Lemma pages_empty_or_absent (ps : option (list Page)) :
  ps = None \/ ps = Some [] <-> pages_nonempty ps = false.
Proof.
  destruct ps as [[|p ps]|]; simpl; split; intros H; auto; try discriminate.
  destruct H; discriminate.
Qed.

(** The three renderings, by the rule that selects them. *)
Lemma formatResponse_listing (a : FormatArgs) :
  documents a <> [] \/ snippets a <> [] \/ pages_nonempty (pages a) = true ->
  listing_intent (query a) = true ->
  formatResponse a =
  {| r_content :=
       str "Here are the available documents:" ++ LF ++ LF
         ++ Spec.numbered_lines 1
              (Spec.first_occurrences (map d_path (documents a)));
     r_snippets := snippets a;
     r_documents := Some (documents a);
     r_pages := pages a |}.
Proof.
  intros Hne Hl. unfold formatResponse.
  rewrite (nonempty_input a Hne), Hl, new_Set_first_occurrences.
  unfold forEach. rewrite listing_lines. now rewrite <- !app_assoc.
Qed.

Lemma formatResponse_pages (a : FormatArgs) (ps : list Page) :
  listing_intent (query a) = false ->
  pages a = Some ps -> ps <> [] ->
  formatResponse a =
  {| r_content :=
       str "Here are the relevant pages:" ++ LF ++ LF
         ++ List.concat (map Spec.page_rendering ps);
     r_snippets := snippets a;
     r_documents := Some (documents a);
     r_pages := pages a |}.
Proof.
  intros Hl Hp Hne. unfold formatResponse.
  assert (Hn : pages_nonempty (pages a) = true).
  { rewrite Hp. destruct ps; [contradiction | reflexivity]. }
  rewrite (nonempty_input a (or_intror (or_intror Hn))), Hl, Hn, Hp.
  rewrite page_blocks. now rewrite <- !app_assoc.
Qed.

Lemma formatResponse_snippets (a : FormatArgs) :
  documents a <> [] \/ snippets a <> [] ->
  listing_intent (query a) = false ->
  pages_nonempty (pages a) = false ->
  formatResponse a =
  {| r_content :=
       str "Here's what I found:" ++ LF ++ LF
         ++ List.concat (map Spec.snippet_rendering (snippets a));
     r_snippets := snippets a;
     r_documents := Some (documents a);
     r_pages := pages a |}.
Proof.
  intros Hne Hl Hp. unfold formatResponse.
  rewrite nonempty_input by tauto. rewrite Hl, Hp.
  rewrite snippet_blocks. now rewrite <- !app_assoc.
Qed.

Lemma formatResponse_empty (a : FormatArgs) :
  Spec.empty_input a ->
  formatResponse a =
  {| r_content := notFoundMessage; r_snippets := [];
     r_documents := None; r_pages := None |}.
Proof.
  intros (Hd & Hs & Hp). unfold formatResponse.
  apply pages_empty_or_absent in Hp. now rewrite Hd, Hs, Hp.
Qed.

End ArrayFacts.

Section NumberFacts.
Import JS.

(** [toFixed] on a positive double below 10^21 prints the nearest multiple
    of [10^-f]. *)
Lemma toFixed_finite_small (f : nat) (x : float) (m : positive) (e : Z) :
  Prim2SF x = S754_finite false m e ->
  (Z.pos m * pow2 e < 10 ^ 21 * pow2 (- e))%Z ->
  toFixed f x = fixed_digits f (nearest_scaled f m e).
Proof.
  intros Hx Hlt. unfold toFixed, toFixed_finite. rewrite Hx.
  destruct (10 ^ 21 * pow2 (- e) <=? Z.pos m * pow2 e)%Z eqn:E;
    [|reflexivity].
  apply Z.leb_le in E. lia.
Qed.

(** [nearest_scaled f m e] is within one half of [m * 2^e * 10^f]; both
    sides are scaled by [2^-e] when [e] is negative. *)
Lemma nearest_scaled_nearest (f : nat) (m : positive) (e : Z) :
  (2 * Z.abs (nearest_scaled f m e * pow2 (- e)
              - Z.pos m * 10 ^ Z.of_nat f * pow2 e) <= pow2 (- e))%Z.
Proof.
  unfold nearest_scaled, pow2.
  destruct (0 <=? e)%Z eqn:E.
  - apply Z.leb_le in E.
    rewrite (Z.max_r (- e) 0), (Z.max_l e 0) by lia.
    rewrite Z.pow_0_r. replace (_ - _)%Z with 0%Z by lia. simpl. lia.
  - apply Z.leb_gt in E.
    rewrite (Z.max_l (- e) 0), (Z.max_r e 0) by lia.
    rewrite Z.pow_0_r.
    set (t := (Z.pos m * 10 ^ Z.of_nat f)%Z).
    assert (HD : (0 < 2 ^ (- e))%Z) by (apply Z.pow_pos_nonneg; lia).
    set (D := (2 ^ (- e))%Z) in *.
    pose proof (Z.div_mod (2 * t + D) (2 * D) ltac:(lia)) as Hdm.
    pose proof (Z.mod_pos_bound (2 * t + D) (2 * D) ltac:(lia)) as Hb.
    set (n := ((2 * t + D) / (2 * D))%Z) in *.
    nia.
Qed.

End NumberFacts.

(* ================================================================== *)
(** * The answer formatter *)
(* ================================================================== *)

Section Formatter.
Import JS Chatbot.

(** C1. A query whose lower-cased form contains "show" and also "document"
    or "all" selects the listing rule on every non-empty input: the content
    is the heading followed by the paths of the documents, deduplicated with
    the first occurrence winning and the order kept, one line
    ["{i}. **{path}**"] each, numbered from 1.  The deduplicated list has no
    repetition and the same members as the input.  Listing intent is
    detected for exactly these queries.  The documents a, b, a give the two
    lines ["1. **a**"] and ["2. **b**"] after the heading and no other
    numbered line. *)
Theorem listing_rule :
  (forall a : FormatArgs,
      documents a <> [] \/ snippets a <> [] \/
        (exists p ps, pages a = Some (p :: ps)) ->
      Spec.listing_query (query a) ->
      formatResponse a =
      {| r_content :=
           str "Here are the available documents:" ++ LF ++ LF
             ++ Spec.numbered_lines 1
                  (Spec.first_occurrences (map d_path (documents a)));
         r_snippets := snippets a;
         r_documents := Some (documents a);
         r_pages := pages a |})
  /\ (forall l : list jsstring,
        NoDup (Spec.first_occurrences l) /\
        (forall x, In x (Spec.first_occurrences l) <-> In x l))
  /\ (forall q : jsstring, listing_intent q = true <-> Spec.listing_query q)
  /\ r_content
       (formatResponse
          {| documents := [doc "a"; doc "b"; doc "a"];
             snippets := [];
             pages := None;
             query := str "show all documents" |})
     = str "Here are the available documents:" ++ LF ++ LF
         ++ str "1. **a**" ++ LF ++ str "2. **b**" ++ LF
  /\ split 10%N
       (r_content
          (formatResponse
             {| documents := [doc "a"; doc "b"; doc "a"];
                snippets := [];
                pages := None;
                query := str "show all documents" |}))
     = [str "Here are the available documents:"; [];
        str "1. **a**"; str "2. **b**"; []].
Proof.
  split; [|split; [|split; [|split]]].
  - intros a Hne Hq. apply formatResponse_listing.
    + destruct Hne as [H | [H | (p & ps & H)]]; auto.
      right. right. now rewrite H.
    + now apply listing_intent_spec.
  - intros l. split.
    + apply first_occurrences_NoDup.
    + intros x. apply first_occurrences_In.
  - apply listing_intent_spec.
  - vm_compute. reflexivity.
  - vm_compute. reflexivity.
Qed.

Lemma listing_rule_witness :
  formatResponse
    {| documents := [doc "x.md"; doc "x.md"];
       snippets := [];
       pages := Some [mkPage (str "x.md") 4 (str "text")];
       query := str "Please SHOW me ALL of it" |}
  = {| r_content :=
         str "Here are the available documents:" ++ LF ++ LF
           ++ Spec.numbered_lines 1
                (Spec.first_occurrences (map d_path [doc "x.md"; doc "x.md"]));
       r_snippets := [];
       r_documents := Some [doc "x.md"; doc "x.md"];
       r_pages := Some [mkPage (str "x.md") 4 (str "text")] |}.
Proof.
  apply (proj1 listing_rule
           {| documents := [doc "x.md"; doc "x.md"];
              snippets := [];
              pages := Some [mkPage (str "x.md") 4 (str "text")];
              query := str "Please SHOW me ALL of it" |}).
  - left. discriminate.
  - apply listing_intent_spec. vm_compute. reflexivity.
Defined.

(** C2. Without listing intent and with pages empty or absent, an input with
    at least one snippet is rendered as the heading followed by one block per
    snippet, in the order given: the snippet's content, then its citation
    line.  With a page span the citation line is
    ["*Source: `{path}` (Pages {span[0]+1}-{span[1]+1}, Relevance: {p}%)*"],
    without one ["*Source: `{path}` (Relevance: {p}%)*"], where [p] is
    [score * 100] to one decimal: for a positive product below 10^21 the
    digits of the integer nearest to ten times the product, with the point
    before the last digit.  The snippet Y of b.pdf with score 0.842 and span
    1 to 3 is cited as ["*Source: `b.pdf` (Pages 2-4, Relevance: 84.2%)*"]. *)
Theorem snippet_rule :
  (forall a : FormatArgs,
      listing_intent (query a) = false ->
      pages a = None \/ pages a = Some [] ->
      snippets a <> [] ->
      r_content (formatResponse a) =
      str "Here's what I found:" ++ LF ++ LF
        ++ List.concat (map Spec.snippet_rendering (snippets a)))
  /\ (forall s first last,
        s_page_span s = Some (first, last) ->
        Spec.citation_line s =
        str "*Source: `" ++ s_path s ++ str "` (Pages "
          ++ NumberToString (first + 1)%float ++ str "-"
          ++ NumberToString (last + 1)%float
          ++ str ", Relevance: " ++ toFixed 1 (s_score s * 100)%float
          ++ str "%)*")
  /\ (forall s,
        s_page_span s = None ->
        Spec.citation_line s =
        str "*Source: `" ++ s_path s ++ str "` (Relevance: "
          ++ toFixed 1 (s_score s * 100)%float ++ str "%)*")
  /\ (forall (score : float) (m : positive) (e : Z),
        Prim2SF (score * 100)%float = S754_finite false m e ->
        (Z.pos m * pow2 e < 10 ^ 21 * pow2 (- e))%Z ->
        exists n : Z,
          toFixed 1 (score * 100)%float = fixed_digits 1 n /\
          (2 * Z.abs (n * pow2 (- e) - Z.pos m * 10 * pow2 e)
           <= pow2 (- e))%Z)
  /\ Spec.citation_line (snippetY (Some (1, 3)%float))
     = str "*Source: `b.pdf` (Pages 2-4, Relevance: 84.2%)*"
  /\ Spec.citation_line (snippetY None)
     = str "*Source: `b.pdf` (Relevance: 84.2%)*"
  /\ r_content
       (formatResponse
          {| documents := [];
             snippets := [snippetY (Some (1, 3)%float)];
             pages := None;
             query := str "what is Y" |})
     = str "Here's what I found:" ++ LF ++ LF ++ str "Y" ++ LF ++ LF
         ++ str "*Source: `b.pdf` (Pages 2-4, Relevance: 84.2%)*" ++ LF ++ LF.
Proof.
  split; [|split; [|split; [|split; [|split; [|split]]]]].
  - intros a Hl Hp Hs. rewrite formatResponse_snippets; auto.
    now apply pages_empty_or_absent.
  - intros s first last H. unfold Spec.citation_line. now rewrite H.
  - intros s H. unfold Spec.citation_line. now rewrite H.
  - intros score m e Hx Hlt. exists (nearest_scaled 1 m e). split.
    + now apply toFixed_finite_small.
    + exact (nearest_scaled_nearest 1 m e).
  - vm_compute. reflexivity.
  - vm_compute. reflexivity.
  - vm_compute. reflexivity.
Qed.

Lemma snippet_rule_witness :
  r_content
    (formatResponse
       {| documents := [doc "b.pdf"];
          snippets := [snippetY None; snippetY (Some (0, 0)%float)];
          pages := Some [];
          query := str "show me Y" |})
  = str "Here's what I found:" ++ LF ++ LF
      ++ List.concat (map Spec.snippet_rendering
                     [snippetY None; snippetY (Some (0, 0)%float)]).
Proof.
  apply (proj1 snippet_rule
           {| documents := [doc "b.pdf"];
              snippets := [snippetY None; snippetY (Some (0, 0)%float)];
              pages := Some [];
              query := str "show me Y" |}).
  - vm_compute. reflexivity.
  - right. reflexivity.
  - discriminate.
Defined.

(** C3. Whatever the query, when there are no documents, no snippets and no
    pages (an empty list, or none at all), the formatter returns the fixed
    message with an empty snippet list and nothing else: no heading and no
    block of any rule. *)
Theorem empty_rule :
  forall (q : jsstring) (ps : option (list Page)),
    ps = None \/ ps = Some [] ->
    formatResponse
      {| documents := []; snippets := []; pages := ps; query := q |}
    = {| r_content :=
           str "I couldn't find any relevant information. Please try rephrasing your question.";
         r_snippets := [];
         r_documents := None;
         r_pages := None |}.
Proof.
  intros q ps Hp. apply formatResponse_empty. repeat split; assumption.
Qed.

Lemma empty_rule_witness :
  formatResponse
    {| documents := []; snippets := []; pages := Some [];
       query := str "show all documents on page 2" |}
  = {| r_content :=
         str "I couldn't find any relevant information. Please try rephrasing your question.";
       r_snippets := [];
       r_documents := None;
       r_pages := None |}.
Proof.
  apply (empty_rule (str "show all documents on page 2") (Some [])).
  right. reflexivity.
Defined.

(** C4. Without listing intent, a non-empty list of pages is rendered as the
    heading followed by one block per page in the order given: the line
    ["From document `{path}` (Page {page_index+1}):"], the page's full
    content, and a blank line.  The rules are tried in the order listing,
    pages, snippets: listing intent wins over pages and snippets, and pages
    win over snippets.  The page 0 of a.pdf with content X is rendered as
    ["From document `a.pdf` (Page 1):"] followed by X. *)
Theorem page_rule :
  (forall (a : FormatArgs) (ps : list Page),
      listing_intent (query a) = false ->
      pages a = Some ps -> ps <> [] ->
      r_content (formatResponse a) =
      str "Here are the relevant pages:" ++ LF ++ LF
        ++ List.concat (map Spec.page_rendering ps))
  /\ (forall p : Page,
        Spec.page_rendering p =
        str "From document `" ++ p_path p ++ str "` (Page "
          ++ NumberToString (p_page_index p + 1)%float ++ str "):" ++ LF
          ++ p_content p ++ LF ++ LF)
  /\ (forall (a : FormatArgs) (ps : list Page),
        listing_intent (query a) = true ->
        pages a = Some ps -> ps <> [] ->
        r_content (formatResponse a) =
        str "Here are the available documents:" ++ LF ++ LF
          ++ Spec.numbered_lines 1
               (Spec.first_occurrences (map d_path (documents a))))
  /\ (forall a : FormatArgs,
        listing_intent (query a) = false ->
        pages a = None \/ pages a = Some [] ->
        documents a <> [] \/ snippets a <> [] ->
        r_content (formatResponse a) =
        str "Here's what I found:" ++ LF ++ LF
          ++ List.concat (map Spec.snippet_rendering (snippets a)))
  /\ r_content
       (formatResponse
          {| documents := []; snippets := []; pages := Some [pageX];
             query := str "what is on the first page" |})
     = str "Here are the relevant pages:" ++ LF ++ LF
         ++ str "From document `a.pdf` (Page 1):" ++ LF
         ++ str "X" ++ LF ++ LF.
Proof.
  split; [|split; [|split; [|split]]].
  - intros a ps Hl Hp Hne. now rewrite (formatResponse_pages a ps).
  - intros p. unfold Spec.page_rendering, Spec.page_heading.
    now rewrite <- !app_assoc.
  - intros a ps Hl Hp Hne. rewrite formatResponse_listing; auto.
    right. right. rewrite Hp. destruct ps; [contradiction | reflexivity].
  - intros a Hl Hp Hne. rewrite formatResponse_snippets; auto.
    now apply pages_empty_or_absent.
  - vm_compute. reflexivity.
Qed.

Lemma page_rule_witness :
  r_content
    (formatResponse
       {| documents := [doc "a.pdf"];
          snippets := [snippetY None];
          pages := Some [pageX; mkPage (str "a.pdf") 1 (str "Z")];
          query := str "page two please" |})
  = str "Here are the relevant pages:" ++ LF ++ LF
      ++ List.concat (map Spec.page_rendering
                     [pageX; mkPage (str "a.pdf") 1 (str "Z")]).
Proof.
  apply (proj1 page_rule
           {| documents := [doc "a.pdf"];
              snippets := [snippetY None];
              pages := Some [pageX; mkPage (str "a.pdf") 1 (str "Z")];
              query := str "page two please" |}
           [pageX; mkPage (str "a.pdf") 1 (str "Z")]).
  - vm_compute. reflexivity.
  - reflexivity.
  - discriminate.
Defined.

End Formatter.

(* ================================================================== *)
(** * The retrieval driver and the submit handler *)
(* ================================================================== *)

Section ChatbotFacts.
Import JS Effects Chatbot.

Variable c : ZeroEntropy.
Variables collection q : jsstring.

Let docsCall := CallTopDocuments collection q 3 true.
Let snippetsCall := CallTopSnippets collection q 3 true.
Let pagesCall := CallTopPages collection q 3 true.

Lemma logged_logged (a b : list Event) (w : World) :
  logged b (logged a w) = logged (a ++ b) w.
Proof. unfold logged. simpl. now rewrite app_assoc. Qed.

Lemma processQuery_documents_fail (w : World) (e : JSError) :
  topDocuments c collection q 3%N true = Throw e ->
  processQuery c collection q w =
  (Normal errorResponse,
   logged [docsCall; ConsoleError (str "Error querying documents:") e] w).
Proof.
  intros H. unfold processQuery, try_catch, bind, call, emit, modify, await.
  rewrite H. unfold logged. simpl. now rewrite <- app_assoc.
Qed.

Lemma processQuery_snippets_fail (w : World) d (e : JSError) :
  topDocuments c collection q 3%N true = Normal d ->
  topSnippets c collection q 3%N true = Throw e ->
  processQuery c collection q w =
  (Normal errorResponse,
   logged [docsCall; snippetsCall;
           ConsoleError (str "Error querying documents:") e] w).
Proof.
  intros Hd H. unfold processQuery, try_catch, bind, call, emit, modify, await.
  rewrite Hd, H. unfold logged. simpl. now rewrite <- !app_assoc.
Qed.

Lemma processQuery_pages_fail (w : World) d s (e : JSError) :
  topDocuments c collection q 3%N true = Normal d ->
  topSnippets c collection q 3%N true = Normal s ->
  wants_pages q = true ->
  topPages c collection q 3%N true = Throw e ->
  processQuery c collection q w =
  (Normal errorResponse,
   logged [docsCall; snippetsCall; pagesCall;
           ConsoleError (str "Error querying documents:") e] w).
Proof.
  intros Hd Hs Hw H.
  unfold processQuery, try_catch, bind, call, emit, modify, await.
  rewrite Hd, Hs, Hw. unfold bind. rewrite H. unfold logged. simpl.
  now rewrite <- !app_assoc.
Qed.

Lemma processQuery_success (w : World) d s :
  topDocuments c collection q 3%N true = Normal d ->
  topSnippets c collection q 3%N true = Normal s ->
  (wants_pages q = true ->
   exists p, topPages c collection q 3%N true = Normal p) ->
  processQuery c collection q w =
  (Normal (formatResponse
             {| documents := results d;
                snippets := results s;
                pages := Spec.retrieved_pages c collection q;
                query := q |}),
   logged ([docsCall; snippetsCall]
             ++ if wants_pages q then [pagesCall] else []) w).
Proof.
  intros Hd Hs Hp.
  unfold processQuery, try_catch, bind, call, emit, modify, await, ret,
    Spec.retrieved_pages.
  rewrite Hd, Hs. destruct (wants_pages q) eqn:Hw.
  - destruct (Hp eq_refl) as [p Hpn]. unfold bind. rewrite Hpn.
    unfold logged. simpl. now rewrite <- !app_assoc.
  - unfold logged. simpl. now rewrite <- !app_assoc.
Qed.

(** [processQuery] always returns: every rejection ends in its [catch]. *)
Lemma processQuery_returns (w : World) :
  exists r evs, processQuery c collection q w = (Normal r, logged evs w).
Proof.
  destruct (topDocuments c collection q 3%N true) as [d|e] eqn:Hd.
  2:{ eexists _, _. apply processQuery_documents_fail; eassumption. }
  destruct (topSnippets c collection q 3%N true) as [s|e] eqn:Hs.
  2:{ eexists _, _. apply (processQuery_snippets_fail w d); eassumption. }
  destruct (wants_pages q) eqn:Hw.
  - destruct (topPages c collection q 3%N true) as [p|e] eqn:Hp.
    + eexists _, _. apply (processQuery_success w d s); eauto.
    + eexists _, _. apply (processQuery_pages_fail w d s); eassumption.
  - eexists _, _. apply (processQuery_success w d s); auto.
    intros H. congruence.
Qed.

Lemma processQuery_fails (w : World) :
  Spec.retrieval_fails c collection q ->
  exists evs,
    processQuery c collection q w = (Normal errorResponse, logged evs w).
Proof.
  intros Hf.
  destruct (topDocuments c collection q 3%N true) as [d|e] eqn:Hd.
  2:{ eexists. apply processQuery_documents_fail; eassumption. }
  destruct (topSnippets c collection q 3%N true) as [s|e] eqn:Hs.
  2:{ eexists. apply (processQuery_snippets_fail w d); eassumption. }
  destruct Hf as [[e H] | [[e H] | [Hw [e H]]]]; try congruence.
  eexists. apply (processQuery_pages_fail w d s); eassumption.
Qed.

End ChatbotFacts.

Section SubmitFacts.
Import JS Effects Chatbot.

Lemma handleSubmit_idle (client : option ZeroEntropy) (collection : jsstring)
  (now1 now2 : float) (w : World) :
  Spec.blank (input w) \/ client = None ->
  handleSubmit client collection now1 now2 w =
  (Normal tt, logged [PreventDefault] w).
Proof.
  intros H. unfold handleSubmit, bind, emit, modify, get, ret. simpl.
  destruct client as [c|]; [|reflexivity].
  destruct H as [H | H]; [|discriminate].
  apply truthy_trim in H. now rewrite H.
Qed.

Lemma handleSubmit_active (c : ZeroEntropy) (collection : jsstring)
  (now1 now2 : float) (w : World) (r : Response) (evs : list Event) :
  ~ Spec.blank (input w) ->
  processQuery c collection (input w) (Spec.begun now1 w) =
    (Normal r, logged evs (Spec.begun now1 w)) ->
  handleSubmit (Some c) collection now1 now2 w =
  (Normal tt,
   {| messages :=
        messages w ++ [Spec.user_message now1 (input w);
                       Spec.assistant_message now2 (r_content r) (r_snippets r)];
      input := [];
      isLoading := false;
      trace := trace w ++ [PreventDefault] ++ evs |}).
Proof.
  intros Hb Hq.
  unfold handleSubmit, bind, emit, modify, get, ret. simpl.
  destruct (truthy (trim (input w))) eqn:Ht.
  2:{ apply truthy_trim in Ht. contradiction. }
  simpl. unfold setMessages, setInput, setIsLoading, modify. simpl.
  unfold Spec.begun, Spec.user_message in Hq. simpl in Hq. rewrite Hq.
  unfold logged, Spec.assistant_message, Spec.user_message. simpl.
  now rewrite <- !app_assoc.
Qed.

(** A submission only ever appends to the message list. *)
Lemma handleSubmit_appends (client : option ZeroEntropy)
  (collection : jsstring) (now1 now2 : float) (w : World) :
  exists suffix,
    messages (snd (handleSubmit client collection now1 now2 w)) =
    messages w ++ suffix.
Proof.
  destruct client as [c|].
  2:{ exists []. rewrite handleSubmit_idle by auto. simpl.
      now rewrite app_nil_r. }
  destruct (truthy (trim (input w))) eqn:Ht.
  - destruct (processQuery_returns c collection (input w) (Spec.begun now1 w))
      as (r & evs & Hq).
    eexists. rewrite (handleSubmit_active c collection now1 now2 w r evs).
    + reflexivity.
    + intros Hb. apply truthy_trim in Hb. congruence.
    + exact Hq.
  - exists []. rewrite handleSubmit_idle.
    + simpl. now rewrite app_nil_r.
    + left. now apply truthy_trim.
Qed.

Lemma dispatch_appends (ev : UIEvent) (w : World) :
  exists suffix, messages (dispatch ev w) = messages w ++ suffix.
Proof.
  destruct ev as [client collection now1 now2 | v]; simpl.
  - apply handleSubmit_appends.
  - exists []. now rewrite app_nil_r.
Qed.

Lemma run_session_appends (evs : list UIEvent) (w : World) :
  exists suffix, messages (run_session evs w) = messages w ++ suffix.
Proof.
  unfold run_session. revert w.
  induction evs as [|ev evs IH]; intros w; simpl.
  - exists []. now rewrite app_nil_r.
  - destruct (dispatch_appends ev w) as [s1 H1].
    destruct (IH (dispatch ev w)) as [s2 H2].
    exists (s1 ++ s2). now rewrite H2, H1, app_assoc.
Qed.

Lemma formatResponse_snippets_unchanged (a : FormatArgs) :
  r_snippets (formatResponse a) = snippets a.
Proof.
  unfold formatResponse.
  destruct (documents a), (snippets a), (pages_nonempty (pages a));
    reflexivity.
Qed.

End SubmitFacts.

(* ================================================================== *)
(** * The chatbot's transcript and retrieval *)
(* ================================================================== *)

Section Transcript.
Import JS Effects Chatbot.

(** C5, as the claim states it, fails: the message appended for the listing
    query carries the formatter's content, which was produced from the
    documents, and yet no documents; its evidence differs from the evidence
    the formatter returned. *)
Lemma attached_evidence_counterexample :
  exists m : Message,
    nth_error (messages listingSubmission) 2 = Some m /\
    m_role m = assistant /\
    m_content m = r_content listingResponse /\
    r_documents listingResponse = Some [sampleDocument] /\
    message_evidence m <> response_evidence listingResponse.
Proof.
  exists (Spec.assistant_message 2 (r_content listingResponse) []).
  split; [vm_compute; reflexivity|].
  split; [reflexivity|]. split; [reflexivity|].
  split; [vm_compute; reflexivity|].
  intros H. apply (f_equal ev_documents) in H. vm_compute in H. discriminate.
Qed.

(** C5, amended.  A successful submission appends two messages to the list
    and changes none of the earlier ones: the user's message, then the
    assistant's, whose content is the content the formatter returned for the
    retrieved documents, snippets and pages and whose snippets are the
    retrieved snippets.  The formatter's documents and pages are not
    attached.  Over any session of submissions and edits of the field the
    message list only grows at its end. *)
Theorem submission_appends_answer :
  (forall (c : ZeroEntropy) (collection : jsstring) (now1 now2 : float)
          (w : World) d s,
      ~ Spec.blank (input w) ->
      topDocuments c collection (input w) 3%N true = Normal d ->
      topSnippets c collection (input w) 3%N true = Normal s ->
      (wants_pages (input w) = true ->
       exists p, topPages c collection (input w) 3%N true = Normal p) ->
      messages (snd (handleSubmit (Some c) collection now1 now2 w)) =
      messages w ++
      [ {| m_id := NumberToString now1; m_role := user;
           m_content := input w; m_snippets := None |};
        {| m_id := NumberToString (now2 + 1)%float; m_role := assistant;
           m_content :=
             r_content
               (formatResponse
                  {| documents := results d;
                     snippets := results s;
                     pages := Spec.retrieved_pages c collection (input w);
                     query := input w |});
           m_snippets := Some (results s) |} ])
  /\ (forall m : Message,
        message_evidence m =
        {| ev_snippets := m_snippets m; ev_documents := None;
           ev_pages := None |})
  /\ (forall (evs : list UIEvent) (w : World),
        exists suffix, messages (run_session evs w) = messages w ++ suffix).
Proof.
  split; [|split].
  - intros c collection now1 now2 w d s Hb Hd Hs Hp.
    rewrite (handleSubmit_active c collection now1 now2 w _ _ Hb
               (processQuery_success c collection (input w)
                  (Spec.begun now1 w) d s Hd Hs Hp)).
    simpl. now rewrite formatResponse_snippets_unchanged.
  - reflexivity.
  - apply run_session_appends.
Qed.

Lemma submission_appends_answer_witness :
  messages listingSubmission =
  messages (typed (str "show all documents")) ++
  [ {| m_id := NumberToString 1; m_role := user;
       m_content := str "show all documents"; m_snippets := None |};
    {| m_id := NumberToString (2 + 1)%float; m_role := assistant;
       m_content :=
         r_content
           (formatResponse
              {| documents := [sampleDocument];
                 snippets := [];
                 pages :=
                   Spec.retrieved_pages oneDocumentService (str "default")
                     (str "show all documents");
                 query := str "show all documents" |});
       m_snippets := Some [] |} ].
Proof.
  apply (proj1 submission_appends_answer oneDocumentService (str "default")
           1%float 2%float (typed (str "show all documents"))
           (mkQueryResponse [sampleDocument]) (mkQueryResponse [])).
  - intros H. apply truthy_trim in H. vm_compute in H. discriminate.
  - reflexivity.
  - reflexivity.
  - intros _. exists (mkQueryResponse []). reflexivity.
Defined.

(** C6. When a retrieval call of a query fails, [processQuery] catches the
    failure and returns the fixed message with an empty snippet list, the
    component's state untouched.  It returns in every case and never throws.
    A submission whose retrieval fails appends the user's message and an
    assistant message with the fixed content and no snippets: nothing of the
    error reaches the message list. *)
Theorem retrieval_failure_is_caught :
  (forall (c : ZeroEntropy) (collection q : jsstring) (w : World),
      Spec.retrieval_fails c collection q ->
      exists evs,
        processQuery c collection q w =
        (Normal
           {| r_content :=
                str "Sorry, I encountered an error while searching the documentation.";
              r_snippets := [];
              r_documents := None;
              r_pages := None |},
         logged evs w))
  /\ (forall (c : ZeroEntropy) (collection q : jsstring) (w : World),
        exists r evs, processQuery c collection q w = (Normal r, logged evs w))
  /\ (forall (c : ZeroEntropy) (collection : jsstring) (now1 now2 : float)
             (w : World),
        ~ Spec.blank (input w) ->
        Spec.retrieval_fails c collection (input w) ->
        messages (snd (handleSubmit (Some c) collection now1 now2 w)) =
        messages w ++
        [ Spec.user_message now1 (input w);
          Spec.assistant_message now2
            (str "Sorry, I encountered an error while searching the documentation.")
            [] ]).
Proof.
  split; [|split].
  - intros c collection q w Hf. exact (processQuery_fails c collection q w Hf).
  - intros c collection q w. apply processQuery_returns.
  - intros c collection now1 now2 w Hb Hf.
    destruct (processQuery_fails c collection (input w) (Spec.begun now1 w) Hf)
      as [evs Hq].
    now rewrite (handleSubmit_active c collection now1 now2 w _ _ Hb Hq).
Qed.

Lemma retrieval_failure_is_caught_witness :
  exists evs,
    processQuery unreachableService (str "default") (str "page 3") initialWorld =
    (Normal
       {| r_content :=
            str "Sorry, I encountered an error while searching the documentation.";
          r_snippets := [];
          r_documents := None;
          r_pages := None |},
     logged evs initialWorld).
Proof.
  apply (proj1 retrieval_failure_is_caught unreachableService (str "default")
           (str "page 3") initialWorld).
  left. exists (mkError (str "Network Error")). reflexivity.
Defined.

(** C7, as the claim states it, fails: the query ["page 3"] contains "page",
    and when the document query is rejected no page query is issued. *)
Lemma page_call_counterexample :
  wants_pages (str "page 3") = true /\
  existsb is_page_call (trace unreachablePageQuery) = false.
Proof. split; vm_compute; reflexivity. Qed.

(** C7, amended.  The page query is issued exactly when the query contains
    "page" in any letter case and the document and snippet queries before it
    have succeeded.  When the two succeed and the query does not contain
    "page", the formatter receives no pages at all; when it does and the page
    query succeeds, the formatter receives the page results, be they empty. *)
Theorem page_call_rule :
  (forall (c : ZeroEntropy) (collection q : jsstring) (w : World),
      exists evs,
        trace (snd (processQuery c collection q w)) = trace w ++ evs /\
        (existsb is_page_call evs = true <->
         Spec.contains (toLowerCase q) (str "page") /\
         (exists d, topDocuments c collection q 3%N true = Normal d) /\
         (exists s, topSnippets c collection q 3%N true = Normal s)))
  /\ (forall (c : ZeroEntropy) (collection q : jsstring) (w : World) d s,
        topDocuments c collection q 3%N true = Normal d ->
        topSnippets c collection q 3%N true = Normal s ->
        ~ Spec.contains (toLowerCase q) (str "page") ->
        fst (processQuery c collection q w) =
        Normal (formatResponse
                  {| documents := results d; snippets := results s;
                     pages := None; query := q |}))
  /\ (forall (c : ZeroEntropy) (collection q : jsstring) (w : World) d s p,
        topDocuments c collection q 3%N true = Normal d ->
        topSnippets c collection q 3%N true = Normal s ->
        Spec.contains (toLowerCase q) (str "page") ->
        topPages c collection q 3%N true = Normal p ->
        fst (processQuery c collection q w) =
        Normal (formatResponse
                  {| documents := results d; snippets := results s;
                     pages := Some (results p); query := q |})).
Proof.
  split; [|split].
  - intros c collection q w.
    assert (Hw : wants_pages q = true <->
                 Spec.contains (toLowerCase q) (str "page"))
      by apply includes_spec.
    destruct (topDocuments c collection q 3%N true) as [d|e] eqn:Hd.
    2:{ rewrite (processQuery_documents_fail c collection q w e Hd).
        eexists. split; [reflexivity|]. simpl. split; [discriminate|].
        intros (_ & [d H] & _). discriminate. }
    destruct (topSnippets c collection q 3%N true) as [s|e] eqn:Hs.
    2:{ rewrite (processQuery_snippets_fail c collection q w d e Hd Hs).
        eexists. split; [reflexivity|]. simpl. split; [discriminate|].
        intros (_ & _ & [s H]). discriminate. }
    destruct (wants_pages q) eqn:Hq.
    + destruct (topPages c collection q 3%N true) as [p|e] eqn:Hp.
      * rewrite (processQuery_success c collection q w d s Hd Hs)
          by (intros _; now exists p).
        rewrite Hq. eexists. split; [reflexivity|]. simpl. split.
        -- intros _. split; [now apply Hw|]. split; eauto.
        -- reflexivity.
      * rewrite (processQuery_pages_fail c collection q w d s e Hd Hs Hq Hp).
        eexists. split; [reflexivity|]. simpl. split.
        -- intros _. split; [now apply Hw|]. split; eauto.
        -- reflexivity.
    + rewrite (processQuery_success c collection q w d s Hd Hs)
        by (intros H; congruence).
      rewrite Hq. eexists. split; [reflexivity|]. simpl.
      split; [discriminate|]. intros (H & _). apply Hw in H. discriminate.
  - intros c collection q w d s Hd Hs Hn.
    assert (Hq : wants_pages q = false).
    { destruct (wants_pages q) eqn:E; [|reflexivity].
      exfalso. apply Hn. now apply includes_spec. }
    rewrite (processQuery_success c collection q w d s Hd Hs)
      by (intros H; congruence).
    unfold Spec.retrieved_pages. now rewrite Hq.
  - intros c collection q w d s p Hd Hs Hc Hp.
    assert (Hq : wants_pages q = true) by now apply includes_spec.
    rewrite (processQuery_success c collection q w d s Hd Hs)
      by (intros _; now exists p).
    unfold Spec.retrieved_pages. now rewrite Hq, Hp.
Qed.

Lemma page_call_rule_witness :
  fst (processQuery oneDocumentService (str "default") (str "Page two")
         initialWorld) =
  Normal (formatResponse
            {| documents := [sampleDocument]; snippets := [];
               pages := Some []; query := str "Page two" |}).
Proof.
  apply (proj2 (proj2 page_call_rule) oneDocumentService (str "default")
           (str "Page two") initialWorld
           (mkQueryResponse [sampleDocument]) (mkQueryResponse [])
           (mkQueryResponse [])).
  - reflexivity.
  - reflexivity.
  - apply includes_spec. vm_compute. reflexivity.
  - reflexivity.
Defined.

(** C10. When the field is empty or holds white space only, or when there is
    no client, the submit handler prevents the form's default action and does
    nothing else: the messages, the field and the loading flag are as they
    were, and no retrieval call is recorded. *)
Theorem submit_is_noop_when_idle :
  forall (client : option ZeroEntropy) (collection : jsstring)
         (now1 now2 : float) (w : World),
    Spec.blank (input w) \/ client = None ->
    handleSubmit client collection now1 now2 w =
    (Normal tt,
     {| messages := messages w;
        input := input w;
        isLoading := isLoading w;
        trace := trace w ++ [PreventDefault] |})
    /\ filter is_retrieval_call
         (trace (snd (handleSubmit client collection now1 now2 w)))
       = filter is_retrieval_call (trace w).
Proof.
  intros client collection now1 now2 w H.
  rewrite handleSubmit_idle by exact H. split; [reflexivity|].
  simpl. rewrite filter_app. simpl. now rewrite app_nil_r.
Qed.

Lemma submit_is_noop_when_idle_witness :
  handleSubmit (Some oneDocumentService) (str "default") 1 2
    (typed [32%N; 9%N; 160%N]) =
  (Normal tt,
   {| messages := messages (typed [32%N; 9%N; 160%N]);
      input := input (typed [32%N; 9%N; 160%N]);
      isLoading := isLoading (typed [32%N; 9%N; 160%N]);
      trace := trace (typed [32%N; 9%N; 160%N]) ++ [PreventDefault] |}).
Proof.
  refine (proj1 (submit_is_noop_when_idle (Some oneDocumentService)
                   (str "default") 1%float 2%float
                   (typed [32%N; 9%N; 160%N]) _)).
  left. repeat constructor.
Defined.

End Transcript.

(* ================================================================== *)
(** * The upload handler of the console *)
(* ================================================================== *)

Section UploadFacts.
Import JS Effects Console.

Variable arrange :
  jsstring -> jsstring -> SortOrder -> list DocumentInfo -> list DocumentInfo.
Variable browser : Browser.

Lemma extends_ret {A} (a : A) : extends (ret a).
Proof. intros w. exists []. simpl. now rewrite app_nil_r. Qed.

Lemma extends_throw {A} (e : JSError) : extends (@throw World A e).
Proof. intros w. exists []. simpl. now rewrite app_nil_r. Qed.

Lemma extends_await {A} (r : Completion A) : extends (@await World A r).
Proof. intros w. exists []. simpl. now rewrite app_nil_r. Qed.

Lemma extends_emit (ev : Event) : extends (emit ev).
Proof. intros w. now exists [ev]. Qed.

Lemma extends_setState (f : DocumentState -> DocumentState) :
  extends (setState f).
Proof. intros w. exists []. simpl. now rewrite app_nil_r. Qed.

Lemma extends_bind {A B} (m : Eff World A) (k : A -> Eff World B) :
  extends m -> (forall a, extends (k a)) -> extends (bind m k).
Proof.
  intros Hm Hk w. unfold bind. destruct (Hm w) as [e1 H1].
  destruct (m w) as [[a|e] w1]; simpl in H1.
  - destruct (Hk a w1) as [e2 H2]. exists (e1 ++ e2).
    now rewrite H2, H1, app_assoc.
  - now exists e1.
Qed.

Lemma extends_try_catch {A} (m : Eff World A) (h : JSError -> Eff World A) :
  extends m -> (forall e, extends (h e)) -> extends (try_catch m h).
Proof.
  intros Hm Hh w. unfold try_catch. destruct (Hm w) as [e1 H1].
  destruct (m w) as [[a|e] w1]; simpl in H1.
  - now exists e1.
  - destruct (Hh e w1) as [e2 H2]. exists (e1 ++ e2).
    now rewrite H2, H1, app_assoc.
Qed.

Lemma extends_call {A} (ev : Event) (r : Completion A) : extends (call ev r).
Proof.
  apply extends_bind; [apply extends_emit | intros _; apply extends_await].
Qed.

Lemma extends_readBase64 (file : File) : extends (readBase64 browser file).
Proof. apply extends_call. Qed.

Lemma starts_with_call {A} (ev : Event) (r : Completion A) :
  starts_with ev (call ev r).
Proof. intros w. exists []. reflexivity. Qed.

Lemma starts_with_bind {A B} (ev : Event) (m : Eff World A)
  (k : A -> Eff World B) :
  starts_with ev m -> (forall a, extends (k a)) -> starts_with ev (bind m k).
Proof.
  intros Hm Hk w. unfold bind. destruct (Hm w) as [e1 H1].
  destruct (m w) as [[a|e] w1]; simpl in H1.
  - destruct (Hk a w1) as [e2 H2]. exists (e1 ++ e2).
    now rewrite H2, H1, <- app_assoc.
  - now exists e1.
Qed.

Lemma starts_with_try_catch {A} (ev : Event) (m : Eff World A)
  (h : JSError -> Eff World A) :
  starts_with ev m -> (forall e, extends (h e)) ->
  starts_with ev (try_catch m h).
Proof.
  intros Hm Hh w. unfold try_catch. destruct (Hm w) as [e1 H1].
  destruct (m w) as [[a|e] w1]; simpl in H1.
  - now exists e1.
  - destruct (Hh e w1) as [e2 H2]. exists (e1 ++ e2).
    now rewrite H2, H1, <- app_assoc.
Qed.

Lemma extends_uploadFiles (c : ZeroEntropy) (fs : list File) (i : nat) :
  extends (uploadFiles browser c fs i).
Proof.
  revert i. induction fs as [|f fs IH]; intros i; simpl.
  - apply extends_ret.
  - apply extends_bind; [apply extends_readBase64|]. intros b.
    apply extends_bind; [apply extends_call|]. intros _. apply IH.
Qed.

Lemma extends_loadDocuments (st : DocumentState) :
  extends (loadDocuments arrange st).
Proof.
  unfold loadDocuments. destruct (client st) as [c|]; [|apply extends_ret].
  apply extends_bind; [apply extends_setState|]. intros _.
  apply extends_try_catch.
  - apply extends_bind; [apply extends_call|]. intros r.
    apply extends_setState.
  - intros e. apply extends_bind; [apply extends_setState|]. intros _.
    apply extends_emit.
Qed.

Lemma extends_upload_handler (e : JSError) :
  extends
    (setState (with_message uploadFailedMessage false) ;;;
     emit (ConsoleError (str "Upload error:") e))%eff.
Proof.
  apply extends_bind; [apply extends_setState|]. intros _. apply extends_emit.
Qed.

(** With a file to upload, the first thing done after the collection step
    is to read that file. *)
Lemma afterCreation_reads_first (c : ZeroEntropy) (st : DocumentState)
  (f : File) (rest : list File) :
  files st = f :: rest ->
  starts_with (ReadAsDataURL f) (afterCreation arrange browser c st).
Proof.
  intros Hf. unfold afterCreation. rewrite Hf.
  apply starts_with_try_catch; [|apply extends_upload_handler].
  apply starts_with_bind.
  - simpl. apply starts_with_bind; [apply starts_with_call|]. intros b.
    apply extends_bind; [apply extends_call|]. intros _.
    apply extends_uploadFiles.
  - intros _. apply extends_bind; [apply extends_loadDocuments|].
    intros _. apply extends_setState.
Qed.

(** The collection step, by the answer to the request. *)
Lemma createCollection_created (st : DocumentState) (w : World) :
  creationOutcome browser st = Normal {| error := None |} ->
  createCollection browser st w = (Normal tt, logged [creationFetch st] w).
Proof.
  intros H. unfold creationOutcome in H.
  unfold createCollection, try_catch, bind, call, emit, modify, await.
  rewrite H. reflexivity.
Qed.

Lemma createCollection_exists (st : DocumentState) (w : World) (err : ApiError) :
  creationOutcome browser st = Normal {| error := Some err |} ->
  includes (api_message err) (str "already exists") = true ->
  createCollection browser st w =
  (Normal tt,
   logged [creationFetch st;
           ConsoleLog (str "Collection already exists, proceeding with upload.")]
          w).
Proof.
  intros H Hi. unfold creationOutcome in H.
  unfold createCollection, try_catch, bind, call, emit, modify, await.
  rewrite H. simpl. rewrite Hi. unfold logged. simpl.
  now rewrite <- app_assoc.
Qed.

Lemma createCollection_refused (st : DocumentState) (w : World) (err : ApiError) :
  creationOutcome browser st = Normal {| error := Some err |} ->
  includes (api_message err) (str "already exists") = false ->
  createCollection browser st w =
  (Throw (mkError (api_message err)),
   logged [creationFetch st;
           ConsoleError (str "Error creating collection:")
                        (mkError (api_message err))] w).
Proof.
  intros H Hi. unfold creationOutcome in H.
  unfold createCollection, try_catch, bind, call, emit, modify, await.
  rewrite H. simpl. rewrite Hi. unfold logged. simpl.
  now rewrite <- app_assoc.
Qed.

Lemma createCollection_rejected (st : DocumentState) (w : World) (e : JSError) :
  creationOutcome browser st = Throw e ->
  createCollection browser st w =
  (Throw e,
   logged [creationFetch st; ConsoleError (str "Error creating collection:") e]
          w).
Proof.
  intros H. unfold creationOutcome in H.
  unfold createCollection, try_catch, bind, call, emit, modify, await.
  rewrite H. unfold logged. simpl. now rewrite <- app_assoc.
Qed.

(** The handler, by the completion of the collection step. *)
Lemma handleFileUpload_proceeds (st : DocumentState) (c : ZeroEntropy)
  (w : World) (evs : list Event) :
  client st = Some c -> files st <> [] ->
  (forall w0, createCollection browser st w0 = (Normal tt, logged evs w0)) ->
  handleFileUpload arrange browser st w =
  afterCreation arrange browser c st
    {| state := with_loading true (state w); trace := trace w ++ evs |}.
Proof.
  intros Hc Hf Hcreate. unfold handleFileUpload. rewrite Hc.
  destruct (files st) as [|f fs] eqn:Hfs; [contradiction|].
  change (is_empty (f :: fs)) with false. cbv iota.
  unfold afterCreation. rewrite Hfs.
  unfold bind at 1. unfold setState at 1, modify at 1.
  unfold try_catch. unfold bind at 1. rewrite Hcreate. reflexivity.
Qed.

Lemma handleFileUpload_aborts (st : DocumentState) (c : ZeroEntropy)
  (w : World) (e : JSError) (evs : list Event) :
  client st = Some c -> files st <> [] ->
  (forall w0, createCollection browser st w0 = (Throw e, logged evs w0)) ->
  handleFileUpload arrange browser st w =
  (Normal tt,
   {| state := with_message uploadFailedMessage false
                 (with_loading true (state w));
      trace := trace w ++ evs ++ [ConsoleError (str "Upload error:") e] |}).
Proof.
  intros Hc Hf Hcreate. unfold handleFileUpload. rewrite Hc.
  destruct (files st) as [|f fs] eqn:Hfs; [contradiction|].
  change (is_empty (f :: fs)) with false. cbv iota.
  unfold bind at 1. unfold setState at 1, modify at 1.
  unfold try_catch. unfold bind at 1. rewrite Hcreate.
  unfold bind, setState, emit, modify, logged. simpl.
  now rewrite <- app_assoc.
Qed.

End UploadFacts.

Section Upload.
Import JS Effects Console.

(** C9. In an upload, an answer to the collection request whose error
    message contains "already exists" is taken as success: the handler goes
    on exactly as after an answer without error, starting with the reading of
    the first file.  Any other error of the request, in the answer or of the
    request itself, ends the upload there: no file is read or added, and the
    state changes only in its message, which becomes the fixed text
    ["Upload failed. Please try again."], and its loading flag. *)
Theorem collection_creation_at_upload :
  (forall arrange browser st c w err,
      client st = Some c -> files st <> [] ->
      creationOutcome browser st = Normal {| error := Some err |} ->
      Spec.contains (api_message err) (str "already exists") ->
      handleFileUpload arrange browser st w =
      afterCreation arrange browser c st
        {| state := with_loading true (state w);
           trace := trace w ++
             [creationFetch st;
              ConsoleLog
                (str "Collection already exists, proceeding with upload.")] |})
  /\ (forall arrange browser st c w,
        client st = Some c -> files st <> [] ->
        creationOutcome browser st = Normal {| error := None |} ->
        handleFileUpload arrange browser st w =
        afterCreation arrange browser c st
          {| state := with_loading true (state w);
             trace := trace w ++ [creationFetch st] |})
  /\ (forall arrange browser st c f rest,
        files st = f :: rest ->
        starts_with (ReadAsDataURL f) (afterCreation arrange browser c st))
  /\ (forall arrange browser st c w e,
        client st = Some c -> files st <> [] ->
        (creationOutcome browser st = Throw e \/
         exists err,
           creationOutcome browser st = Normal {| error := Some err |} /\
           ~ Spec.contains (api_message err) (str "already exists") /\
           e = mkError (api_message err)) ->
        handleFileUpload arrange browser st w =
        (Normal tt,
         {| state :=
              {| apiKey := apiKey (state w);
                 client := client (state w);
                 files := files (state w);
                 documents := documents (state w);
                 selectedDocument := selectedDocument (state w);
                 message := str "Upload failed. Please try again.";
                 loading := false;
                 searchQuery := searchQuery (state w);
                 sortOrder := sortOrder (state w);
                 filterStatus := filterStatus (state w) |};
            trace := trace w ++
              [creationFetch st;
               ConsoleError (str "Error creating collection:") e;
               ConsoleError (str "Upload error:") e] |}))
  /\ message (state (snd (handleFileUpload plainArrange
                            (browserAnswering alreadyExists)
                            sampleState sampleWorld)))
     = str "Files uploaded successfully!"
  /\ existsb is_add_call
       (trace (snd (handleFileUpload plainArrange
                      (browserAnswering alreadyExists)
                      sampleState sampleWorld)))
     = true
  /\ message (state (snd (handleFileUpload plainArrange
                            (browserAnswering quotaExceeded)
                            sampleState sampleWorld)))
     = str "Upload failed. Please try again."
  /\ existsb is_add_call
       (trace (snd (handleFileUpload plainArrange
                      (browserAnswering quotaExceeded)
                      sampleState sampleWorld)))
     = false.
Proof.
  split; [|split; [|split; [|split; [|split; [|split; [|split]]]]]].
  - intros arrange browser st c w err Hc Hf Ho Hi.
    apply includes_spec in Hi.
    apply (handleFileUpload_proceeds arrange browser st c w _ Hc Hf).
    intros w0. now apply (createCollection_exists browser st w0 err).
  - intros arrange browser st c w Hc Hf Ho.
    apply (handleFileUpload_proceeds arrange browser st c w _ Hc Hf).
    intros w0. now apply createCollection_created.
  - intros arrange browser st c f rest Hf.
    now apply (afterCreation_reads_first arrange browser c st f rest).
  - intros arrange browser st c w e Hc Hf [Ho | (err & Ho & Hn & ->)].
    + rewrite (handleFileUpload_aborts arrange browser st c w e
                 [creationFetch st;
                  ConsoleError (str "Error creating collection:") e] Hc Hf).
      * reflexivity.
      * intros w0. now apply createCollection_rejected.
    + rewrite (handleFileUpload_aborts arrange browser st c w
                 (mkError (api_message err))
                 [creationFetch st;
                  ConsoleError (str "Error creating collection:")
                               (mkError (api_message err))] Hc Hf).
      * reflexivity.
      * intros w0. apply createCollection_refused; [exact Ho|].
        destruct (includes (api_message err) (str "already exists")) eqn:E;
          [|reflexivity].
        exfalso. apply Hn. now apply includes_spec.
  - vm_compute. reflexivity.
  - vm_compute. reflexivity.
  - vm_compute. reflexivity.
  - vm_compute. reflexivity.
Qed.

Lemma collection_creation_at_upload_witness :
  handleFileUpload plainArrange (browserAnswering alreadyExists)
    sampleState sampleWorld =
  afterCreation plainArrange (browserAnswering alreadyExists) sampleService
    sampleState
    {| state := with_loading true (state sampleWorld);
       trace := trace sampleWorld ++
         [creationFetch sampleState;
          ConsoleLog
            (str "Collection already exists, proceeding with upload.")] |}.
Proof.
  apply (proj1 collection_creation_at_upload plainArrange
           (browserAnswering alreadyExists) sampleState sampleService
           sampleWorld
           (mkApiError (str "Collection default already exists"))).
  - reflexivity.
  - discriminate.
  - reflexivity.
  - apply includes_spec. vm_compute. reflexivity.
Defined.

End Upload.

(* ================================================================== *)
(** * The formatter over the store *)
(* ================================================================== *)

Section Purity.
Import JS Effects Chatbot Store.

Lemma read_old (h f : list Object) (r : Ref) (o : Object) :
  nth_error h r = Some o -> nth_error (h ++ f) r = Some o.
Proof.
  intros H. rewrite nth_error_app1; [assumption|].
  apply nth_error_Some. congruence.
Qed.

Lemma read_fresh (h f : list Object) (i : nat) :
  nth_error (h ++ f) (List.length h + i) = nth_error f i.
Proof.
  rewrite nth_error_app2 by lia. f_equal. lia.
Qed.

Lemma update_fresh (h f : list Object) (i : nat) (o : Object) :
  update (h ++ f) (List.length h + i) o = h ++ update f i o.
Proof.
  induction h as [|x h IH]; simpl; [reflexivity|]. now rewrite IH.
Qed.

Lemma allocate_run (w : World) (h f : list Object) (o : Object) :
  allocate o {| component := w; heap := h ++ f |} =
  (Normal (List.length h + List.length f),
   {| component := w; heap := h ++ f ++ [o] |}).
Proof.
  unfold allocate. cbn [heap component].
  now rewrite length_app, app_assoc.
Qed.

(** A callback that assigns [response] is run over an array: the variable
    ends with what the loop over the values makes of it, and nothing else
    of the heap changes. *)
Lemma forEachFrom_appending {A : Type} (w : World) (h tl : list Object)
  (body : A -> nat -> jsstring -> jsstring) (items : list A) :
  forall (i : nat) (acc : jsstring),
    forEachFrom (appending (List.length h + 0) body) items i
      {| component := w; heap := h ++ StringVariable acc :: tl |} =
    (Normal tt,
     {| component := w;
        heap := h ++ StringVariable (forEach_from body items i acc) :: tl |}).
Proof.
  induction items as [|x items IH]; intros i acc; [reflexivity|].
  cbn [forEachFrom forEach_from].
  unfold bind at 1, appending at 1, readVariable, assign, bind.
  cbn [heap component]. rewrite read_fresh. cbn [nth_error].
  cbn [heap component]. rewrite read_fresh. cbn [nth_error].
  rewrite update_fresh. cbn [update]. apply IH.
Qed.

Lemma nothingFound_run (w : World) (H : list Object) (a : ArgumentObject)
  (ds : list Document) (ss : list Snippet) (ps : option (list Page)) :
  holds {| component := w; heap := H |} a ds ss ps ->
  nothingFound a {| component := w; heap := H |} =
  (Normal (is_empty ds && is_empty ss && negb (pages_nonempty ps)),
   {| component := w; heap := H |}).
Proof.
  destruct a as [docs snips pgs q]. unfold holds.
  cbn [heap a_documents a_snippets a_pages]. intros (Hd & Hs & Hp).
  unfold nothingFound, pagesLength, lengthOf, bind, ret.
  cbn [heap a_documents a_snippets a_pages]. rewrite Hd.
  destruct ds as [|d ds]; [|reflexivity]. cbn.
  rewrite Hs. destruct ss as [|s ss]; [|reflexivity]. cbn.
  destruct pgs as [pg|], ps as [l|]; try contradiction; [|reflexivity].
  cbn. rewrite Hp. destruct l; reflexivity.
Qed.

Lemma holds_extended (w : World) (h f : list Object) (a : ArgumentObject)
  (ds : list Document) (ss : list Snippet) (ps : option (list Page)) :
  holds {| component := w; heap := h |} a ds ss ps ->
  holds {| component := w; heap := h ++ f |} a ds ss ps.
Proof.
  unfold holds. cbn [heap]. intros (Hd & Hs & Hp).
  split; [now apply read_old|]. split; [now apply read_old|].
  destruct (a_pages a), ps; try assumption. now apply read_old.
Qed.

Lemma listingBranch_run (w : World) (h : list Object) (a : ArgumentObject)
  (ds : list Document) :
  nth_error h (a_documents a) = Some (DocumentArray ds) ->
  listingBranch a (List.length h + 0)
    {| component := w; heap := h ++ [StringVariable []] |} =
  (Normal tt,
   {| component := w;
      heap := h ++
        [StringVariable
           (Chatbot.forEach listing_line
              (Array_from (new_Set (map d_path ds)))
              (str "Here are the available documents:" ++ LF ++ LF));
         StringArray (map d_path ds);
         StringSet (new_Set (map d_path ds));
         StringArray (Array_from (new_Set (map d_path ds)))] |}).
Proof.
  intros Hd. unfold listingBranch, mapPaths, newSet, arrayFrom.
  unfold bind at 1. unfold bind at 1. unfold readDocuments at 1.
  cbn [heap]. rewrite (read_old _ _ _ _ Hd). rewrite allocate_run.
  cbn [List.length app].
  unfold bind at 1. unfold bind at 1. unfold readStrings at 1.
  cbn [heap]. rewrite read_fresh. cbn [nth_error]. rewrite allocate_run.
  cbn [List.length app].
  unfold bind at 1. unfold bind at 1. unfold readSet at 1.
  cbn [heap]. rewrite read_fresh. cbn [nth_error]. rewrite allocate_run.
  cbn [List.length app].
  unfold bind at 1. unfold assign at 1.
  cbn [heap component]. rewrite read_fresh. cbn [nth_error].
  rewrite update_fresh. cbn [update].
  unfold bind at 1. unfold readStrings at 1.
  cbn [heap]. rewrite read_fresh. cbn [nth_error].
  unfold forEach. apply forEachFrom_appending.
Qed.

Lemma pagesBranch_run (w : World) (h : list Object) (pages : Ref)
  (l : list Page) :
  nth_error h pages = Some (PageArray l) ->
  pagesBranch pages (List.length h + 0)
    {| component := w; heap := h ++ [StringVariable []] |} =
  (Normal tt,
   {| component := w;
      heap := h ++
        [StringVariable
           (Chatbot.forEach page_block l
              (str "Here are the relevant pages:" ++ LF ++ LF))] |}).
Proof.
  intros Hp. unfold pagesBranch.
  unfold bind at 1. unfold assign at 1.
  cbn [heap component]. rewrite read_fresh. cbn [nth_error].
  rewrite update_fresh. cbn [update].
  unfold bind at 1. unfold readPages at 1.
  cbn [heap]. rewrite (read_old _ _ _ _ Hp).
  unfold forEach. apply forEachFrom_appending.
Qed.

Lemma snippetsBranch_run (w : World) (h : list Object) (a : ArgumentObject)
  (ss : list Snippet) :
  nth_error h (a_snippets a) = Some (SnippetArray ss) ->
  snippetsBranch a (List.length h + 0)
    {| component := w; heap := h ++ [StringVariable []] |} =
  (Normal tt,
   {| component := w;
      heap := h ++
        [StringVariable
           (Chatbot.forEach snippet_block ss
              (str "Here's what I found:" ++ LF ++ LF))] |}).
Proof.
  intros Hs. unfold snippetsBranch.
  unfold bind at 1. unfold assign at 1.
  cbn [heap component]. rewrite read_fresh. cbn [nth_error].
  rewrite update_fresh. cbn [update].
  unfold bind at 1. unfold readSnippets at 1.
  cbn [heap]. rewrite (read_old _ _ _ _ Hs).
  unfold forEach. apply forEachFrom_appending.
Qed.

(** What is read from the returned object when its properties are the
    argument's arrays. *)
Lemma observed_arguments (w : World) (h f : list Object)
  (a : ArgumentObject) (ds : list Document) (ss : list Snippet)
  (ps : option (list Page)) (content : jsstring) :
  holds {| component := w; heap := h |} a ds ss ps ->
  observed {| component := w; heap := h ++ f |}
    {| o_content := content; o_snippets := a_snippets a;
       o_documents := Some (a_documents a); o_pages := a_pages a |} =
  Some {| r_content := content; r_snippets := ss;
          r_documents := Some ds; r_pages := ps |}.
Proof.
  unfold holds, observed. cbn [heap o_snippets o_documents o_pages o_content].
  intros (Hd & Hs & Hp).
  rewrite (read_old _ f _ _ Hs), (read_old _ f _ _ Hd).
  destruct (a_pages a) as [pg|], ps as [l|]; try contradiction;
    [|reflexivity].
  now rewrite (read_old _ f _ _ Hp).
Qed.

(** A call of the formatter on arrays that hold [ds], [ss] and [ps]: it
    returns, the component and the objects of the heap are as before, and
    the returned object reads as the value of the formatter on these
    lists. *)
Lemma formatResponse_run (m : Machine) (a : ArgumentObject)
  (ds : list Document) (ss : list Snippet) (ps : option (list Page)) :
  holds m a ds ss ps ->
  exists (r : ResponseObject) (fresh : list Object),
    Store.formatResponse a m = (Normal r, extended m fresh) /\
    observed (extended m fresh) r =
    Some (Chatbot.formatResponse
            {| documents := ds; snippets := ss; pages := ps;
               query := a_query a |}).
Proof.
  destruct m as [w h]. intros Hh.
  pose proof Hh as (Hd & Hs & Hp). cbn [heap] in Hd, Hs, Hp.
  unfold Store.formatResponse, Chatbot.formatResponse, extended.
  cbn [documents snippets pages query component heap].
  unfold bind at 1. rewrite (nothingFound_run w h a ds ss ps Hh).
  destruct (is_empty ds && is_empty ss && negb (pages_nonempty ps)) eqn:E.
  - eexists; exists [SnippetArray []]. split; [reflexivity|].
    unfold observed. cbn [heap o_snippets o_documents o_pages o_content].
    rewrite <- (Nat.add_0_r (List.length h)), read_fresh. reflexivity.
  - unfold bind at 1. unfold allocate at 1. cbn [heap component].
    rewrite <- (Nat.add_0_r (List.length h)).
    destruct (listing_intent (a_query a)) eqn:L.
    + unfold bind at 1. rewrite (listingBranch_run w h a ds Hd).
      unfold bind, readVariable, ret. cbn [heap].
      rewrite read_fresh. cbn [nth_error].
      eexists; eexists. split; [reflexivity|].
      now apply observed_arguments.
    + destruct (pages_nonempty ps) eqn:P.
      * destruct ps as [[|p l]|]; try discriminate.
        destruct (a_pages a) as [pg|] eqn:Ea; [|contradiction].
        unfold bind at 1. unfold bind at 1. unfold lengthOf at 1.
        cbn [heap]. rewrite (read_old _ _ _ _ Hp).
        cbn [List.length Nat.eqb negb].
        rewrite (pagesBranch_run w h pg (p :: l) Hp).
        unfold bind, readVariable, ret. cbn [heap].
        rewrite read_fresh. cbn [nth_error].
        eexists; eexists. split; [reflexivity|].
        rewrite <- Ea. now apply observed_arguments.
      * assert (Hb : forall k : Eff Machine unit,
                   k {| component := w; heap := h ++ [StringVariable []] |} =
                   snippetsBranch a (List.length h + 0)
                     {| component := w; heap := h ++ [StringVariable []] |} ->
                   exists (r : ResponseObject) (fresh : list Object),
                     bind k
                       (fun _ =>
                          bind (readVariable (List.length h + 0))
                            (fun content =>
                               ret {| o_content := content;
                                      o_snippets := a_snippets a;
                                      o_documents := Some (a_documents a);
                                      o_pages := a_pages a |}))
                       {| component := w;
                          heap := h ++ [StringVariable []] |} =
                     (Normal r, {| component := w; heap := h ++ fresh |}) /\
                     observed {| component := w; heap := h ++ fresh |} r =
                     Some {| r_content :=
                               Chatbot.forEach snippet_block ss
                                 (str "Here's what I found:" ++ LF ++ LF);
                             r_snippets := ss;
                             r_documents := Some ds;
                             r_pages := ps |}).
        { intros k Hk. unfold bind at 1.
          rewrite Hk, (snippetsBranch_run w h a ss Hs).
          unfold bind, readVariable, ret. cbn [heap].
          rewrite read_fresh. cbn [nth_error].
          eexists; eexists. split; [reflexivity|].
          now apply observed_arguments. }
        destruct (a_pages a) as [pg|] eqn:Ea, ps as [l|];
          try contradiction.
        -- destruct l; [|discriminate].
           apply Hb. unfold bind at 1. unfold lengthOf at 1.
           cbn [heap]. rewrite (read_old _ _ _ _ Hp). reflexivity.
        -- now apply Hb.
Qed.

(** C8. The formatter, run on a machine where it can reach the component's
    state and every object of the heap, is a function of the query and of
    what its three arrays hold.  Two calls, in any two states of the
    component and with any other objects on the heap, on arrays that hold
    the same documents, snippets and pages and with the same query, both
    return, and what is read from the two returned objects is the same: the
    value of [formatResponse] on these lists.  Neither call has an effect:
    the component's state is as before, and the heap holds the objects it
    held, unchanged, followed by what the call has created.  A call made
    again after the first, on the machine the first has left, returns what
    the first returned. *)
Theorem formatResponse_is_pure (m1 m2 : Machine) (a1 a2 : ArgumentObject)
  (ds : list Document) (ss : list Snippet) (ps : option (list Page)) :
  holds m1 a1 ds ss ps ->
  holds m2 a2 ds ss ps ->
  a_query a1 = a_query a2 ->
  exists (r1 r2 : ResponseObject) (fresh1 fresh2 : list Object),
    Store.formatResponse a1 m1 =
    (Normal r1, {| component := component m1; heap := heap m1 ++ fresh1 |}) /\
    Store.formatResponse a2 m2 =
    (Normal r2, {| component := component m2; heap := heap m2 ++ fresh2 |}) /\
    observed (snd (Store.formatResponse a1 m1)) r1 =
    observed (snd (Store.formatResponse a2 m2)) r2 /\
    observed (snd (Store.formatResponse a1 m1)) r1 =
    Some (Chatbot.formatResponse
            {| documents := ds; snippets := ss; pages := ps;
               query := a_query a1 |}) /\
    exists (r3 : ResponseObject) (fresh3 : list Object),
      Store.formatResponse a1 (snd (Store.formatResponse a1 m1)) =
      (Normal r3,
       {| component := component m1;
          heap := (heap m1 ++ fresh1) ++ fresh3 |}) /\
      observed (snd (Store.formatResponse a1
                       (snd (Store.formatResponse a1 m1)))) r3 =
      observed (snd (Store.formatResponse a1 m1)) r1.
Proof.
  intros H1 H2 Hq.
  destruct (formatResponse_run m1 a1 ds ss ps H1) as (r1 & f1 & E1 & O1).
  destruct (formatResponse_run m2 a2 ds ss ps H2) as (r2 & f2 & E2 & O2).
  assert (H3 : holds (extended m1 f1) a1 ds ss ps).
  { destruct m1 as [w h]. now apply holds_extended. }
  destruct (formatResponse_run (extended m1 f1) a1 ds ss ps H3)
    as (r3 & f3 & E3 & O3).
  exists r1, r2, f1, f2. rewrite E1, E2. cbn [snd].
  split; [reflexivity|]. split; [reflexivity|].
  split; [rewrite O1, O2, Hq; reflexivity|].
  split; [exact O1|].
  exists r3, f3. fold (extended m1 f1). rewrite E3. cbn [snd].
  split; [reflexivity|]. now rewrite O3, O1.
Qed.

Lemma formatResponse_is_pure_witness :
  exists (r1 r2 : ResponseObject) (fresh1 fresh2 : list Object),
    Store.formatResponse sampleArguments sampleMachine =
    (Normal r1, {| component := component sampleMachine;
                   heap := heap sampleMachine ++ fresh1 |}) /\
    Store.formatResponse otherArguments otherMachine =
    (Normal r2, {| component := component otherMachine;
                   heap := heap otherMachine ++ fresh2 |}) /\
    observed (snd (Store.formatResponse sampleArguments sampleMachine)) r1 =
    observed (snd (Store.formatResponse otherArguments otherMachine)) r2 /\
    observed (snd (Store.formatResponse sampleArguments sampleMachine)) r1 =
    Some (Chatbot.formatResponse
            {| documents := [doc "a"; doc "b"; doc "a"];
               snippets := [snippetY None];
               pages := Some [pageX];
               query := a_query sampleArguments |}) /\
    exists (r3 : ResponseObject) (fresh3 : list Object),
      Store.formatResponse sampleArguments
        (snd (Store.formatResponse sampleArguments sampleMachine)) =
      (Normal r3,
       {| component := component sampleMachine;
          heap := (heap sampleMachine ++ fresh1) ++ fresh3 |}) /\
      observed (snd (Store.formatResponse sampleArguments
                       (snd (Store.formatResponse sampleArguments
                               sampleMachine)))) r3 =
      observed (snd (Store.formatResponse sampleArguments sampleMachine)) r1.
Proof.
  apply (formatResponse_is_pure sampleMachine otherMachine
           sampleArguments otherArguments
           [doc "a"; doc "b"; doc "a"] [snippetY None] (Some [pageX])).
  - vm_compute. repeat split; reflexivity.
  - vm_compute. repeat split; reflexivity.
  - reflexivity.
Defined.

End Purity.


(* ================================================================== *)
(** * Further properties of the chatbot *)
(* ================================================================== *)

Section ChatbotCoverage.
Import JS Effects Chatbot ChatbotView.

Lemma str_cons (a : ascii) (s : string) :
  str (String a s) = N_of_ascii a :: str s.
Proof. reflexivity. Qed.

Lemma heading_app_nonempty (a : ascii) (s : string) (rest : jsstring) :
  str (String a s) ++ rest <> [].
Proof. rewrite str_cons. discriminate. Qed.

Lemma formatResponse_content_nonempty (a : FormatArgs) :
  r_content (formatResponse a) <> [].
Proof.
  unfold formatResponse.
  destruct (is_empty (documents a) && is_empty (snippets a)
            && negb (pages_nonempty (pages a))); cbn [r_content].
  - unfold notFoundMessage. rewrite <- (app_nil_r (str _)).
    apply heading_app_nonempty.
  - destruct (listing_intent (query a)).
    + unfold forEach. rewrite listing_lines, <- app_assoc.
      apply heading_app_nonempty.
    + destruct (pages_nonempty (pages a)).
      * rewrite page_blocks, <- app_assoc. apply heading_app_nonempty.
      * rewrite snippet_blocks, <- app_assoc. apply heading_app_nonempty.
Qed.

(** What [processQuery] returns and records does not depend on the world it
    runs in. *)
Lemma processQuery_uniform (c : ZeroEntropy) (collection q : jsstring) :
  exists (r : Response) (evs : list Event) (n : nat),
    (forall w, processQuery c collection q w = (Normal r, logged evs w)) /\
    documentQueries evs = [q] /\
    1 <= n <= 3 /\
    filter is_retrieval_call evs = firstn n (retrievalCalls collection q) /\
    (n = 3 -> wants_pages q = true) /\
    r_content r <> [].
Proof.
  assert (He : r_content errorResponse <> []).
  { unfold errorResponse, errorMessage. cbn [r_content].
    rewrite <- (app_nil_r (str _)). apply heading_app_nonempty. }
  destruct (topDocuments c collection q 3%N true) as [d|e] eqn:Hd.
  2:{ eexists _, _, 1. split.
      - intros w. apply processQuery_documents_fail. exact Hd.
      - repeat split; auto; try lia. }
  destruct (topSnippets c collection q 3%N true) as [s|e] eqn:Hs.
  2:{ eexists _, _, 2. split.
      - intros w. apply (processQuery_snippets_fail c collection q w d e Hd Hs).
      - repeat split; auto; try lia. }
  destruct (wants_pages q) eqn:Hq.
  - destruct (topPages c collection q 3%N true) as [p|e] eqn:Hp.
    + eexists _, _, 3. split.
      * intros w. apply (processQuery_success c collection q w d s Hd Hs).
        intros _. now exists p.
      * rewrite Hq. repeat split; auto; try lia.
        apply formatResponse_content_nonempty.
    + eexists _, _, 3. split.
      * intros w.
        apply (processQuery_pages_fail c collection q w d s e Hd Hs Hq Hp).
      * repeat split; auto; try lia.
  - eexists _, _, 2. split.
    + intros w. apply (processQuery_success c collection q w d s Hd Hs).
      intros H. congruence.
    + rewrite Hq. repeat split; auto; try lia.
      apply formatResponse_content_nonempty.
Qed.

(** X1. Once the field holds more than white space and a client is set, a
    submission always completes, whatever the service answers: the handler
    returns, the transcript gains the user's message with the text as typed
    and one assistant message with a non-empty content, the field is empty
    and the loading flag is off.  An enabled Ask button implies such a
    field. *)
Theorem submit_always_settles :
  (forall (c : ZeroEntropy) (collection : jsstring) (now1 now2 : float)
          (w : World),
      ~ Spec.blank (input w) ->
      exists (r : Response) (evs : list Event),
        handleSubmit (Some c) collection now1 now2 w =
        (Normal tt,
         {| messages :=
              messages w ++
              [ {| m_id := NumberToString now1; m_role := user;
                   m_content := input w; m_snippets := None |};
                {| m_id := NumberToString (now2 + 1)%float;
                   m_role := assistant;
                   m_content := r_content r;
                   m_snippets := Some (r_snippets r) |} ];
            input := [];
            isLoading := false;
            trace := trace w ++ [PreventDefault] ++ evs |}) /\
        r_content r <> [])
  /\ (forall w : World, askDisabled w = false -> ~ Spec.blank (input w)).
Proof.
  split.
  - intros c collection now1 now2 w Hb.
    destruct (processQuery_uniform c collection (input w))
      as (r & evs & n & Hq & _ & _ & _ & _ & Hr).
    exists r, evs. split; [|exact Hr].
    exact (handleSubmit_active c collection now1 now2 w r evs Hb
             (Hq (Spec.begun now1 w))).
  - intros w Hd Hb. unfold askDisabled in Hd.
    apply orb_false_iff in Hd as [_ Hd]. apply truthy_trim in Hb.
    rewrite Hb in Hd. discriminate.
Qed.

Lemma submit_always_settles_witness :
  exists (r : Response) (evs : list Event),
    handleSubmit (Some unreachableService) (str "default") 5 6
      (typed (str " hello ")) =
    (Normal tt,
     {| messages :=
          messages (typed (str " hello ")) ++
          [ {| m_id := NumberToString 5; m_role := user;
               m_content := input (typed (str " hello "));
               m_snippets := None |};
            {| m_id := NumberToString (6 + 1)%float;
               m_role := assistant;
               m_content := r_content r;
               m_snippets := Some (r_snippets r) |} ];
        input := [];
        isLoading := false;
        trace := trace (typed (str " hello ")) ++ [PreventDefault] ++ evs |}) /\
    r_content r <> [].
Proof.
  apply (proj1 submit_always_settles unreachableService (str "default")
           5%float 6%float (typed (str " hello "))).
  intros H. apply truthy_trim in H. vm_compute in H. discriminate.
Defined.

(** The two ways a submission ends. *)
Lemma handleSubmit_outcome (client : option ZeroEntropy)
  (collection : jsstring) (now1 now2 : float) (w : World) :
  handleSubmit client collection now1 now2 w =
    (Normal tt, logged [PreventDefault] w) \/
  exists (c : ZeroEntropy) (r : Response) (evs : list Event),
    client = Some c /\
    documentQueries evs = [input w] /\
    handleSubmit client collection now1 now2 w =
    (Normal tt,
     {| messages :=
          messages w ++
          [Spec.user_message now1 (input w);
           Spec.assistant_message now2 (r_content r) (r_snippets r)];
        input := [];
        isLoading := false;
        trace := trace w ++ [PreventDefault] ++ evs |}).
Proof.
  destruct client as [c|]; [|left; apply handleSubmit_idle; now right].
  destruct (truthy (trim (input w))) eqn:Ht.
  - right.
    destruct (processQuery_uniform c collection (input w))
      as (r & evs & n & Hq & Hd & _).
    exists c, r, evs. split; [reflexivity|]. split; [exact Hd|].
    apply handleSubmit_active.
    + intros Hb. apply truthy_trim in Hb. congruence.
    + apply Hq.
  - left. apply handleSubmit_idle. left. now apply truthy_trim.
Qed.


(** X3. The retrieval calls of a query are a non-empty initial part of the
    sequence documents, snippets, pages, each with the collection name and
    the query text as given and with [k = 3]; the query is neither trimmed
    nor lower-cased, and the third call is made only for a query that
    contains "page". *)
Theorem retrieval_calls_in_order :
  forall (c : ZeroEntropy) (collection q : jsstring) (w : World),
    exists (evs : list Event) (n : nat),
      snd (processQuery c collection q w) = logged evs w /\
      1 <= n <= 3 /\
      filter is_retrieval_call evs =
      firstn n [CallTopDocuments collection q 3 true;
                CallTopSnippets collection q 3 true;
                CallTopPages collection q 3 true] /\
      (n = 3 -> Spec.contains (toLowerCase q) (str "page")).
Proof.
  intros c collection q w.
  destruct (processQuery_uniform c collection q)
    as (r & evs & n & Hq & _ & Hn & Hf & H3 & _).
  exists evs, n. rewrite Hq. repeat split; try tauto; try lia.
  intros E. apply includes_spec. now apply H3.
Qed.

End ChatbotCoverage.

Section TranscriptCoverage.
Import JS Effects Chatbot ChatbotView.

Lemma documentQueries_app (a b : list Event) :
  documentQueries (a ++ b) = documentQueries a ++ documentQueries b.
Proof. unfold documentQueries. apply flat_map_app. Qed.

Lemma dispatch_keeps_queries (ev : UIEvent) (w : World) :
  documentQueries (trace w) = userTexts (messages w) ->
  documentQueries (trace (dispatch ev w)) =
  userTexts (messages (dispatch ev w)).
Proof.
  intros Hw. destruct ev as [client collection now1 now2 | v];
    cbn [dispatch].
  - destruct (handleSubmit_outcome client collection now1 now2 w)
      as [H | (c & r & evs & _ & Hq & H)]; rewrite H;
      cbn [snd logged trace messages].
    + rewrite documentQueries_app, Hw. simpl. now rewrite app_nil_r.
    + rewrite !documentQueries_app, Hq, Hw. unfold userTexts.
      rewrite filter_app, map_app. reflexivity.
  - exact Hw.
Qed.

(** X5. Over any session from the first render, the document queries sent
    to the service are, in order, exactly the texts of the user messages of
    the transcript: one query per user message, none without a message. *)
Theorem one_document_query_per_user_message :
  forall evs : list UIEvent,
    documentQueries (trace (run_session evs initialWorld)) =
    userTexts (messages (run_session evs initialWorld)).
Proof.
  intros evs.
  assert (H : forall w,
             documentQueries (trace w) = userTexts (messages w) ->
             documentQueries (trace (run_session evs w)) =
             userTexts (messages (run_session evs w))).
  { unfold run_session. induction evs as [|ev evs IH]; intros w Hw.
    - exact Hw.
    - simpl. apply IH. now apply dispatch_keeps_queries. }
  apply H. reflexivity.
Qed.

End TranscriptCoverage.

Section FormatterCoverage.
Import JS Effects Chatbot ChatbotView.

(** X6. When the rule that is selected has nothing to render, the answer is
    that rule's heading alone: a listing query with snippets or pages but no
    document gives the listing heading and shows neither snippets nor pages;
    a query without listing intent that retrieved documents but neither
    pages nor snippets gives the snippet heading, the documents returned
    with it yet not shown. *)
Theorem heading_alone :
  (forall a : FormatArgs,
      listing_intent (query a) = true ->
      documents a = [] ->
      snippets a <> [] \/ pages_nonempty (pages a) = true ->
      r_content (formatResponse a) =
      str "Here are the available documents:" ++ LF ++ LF)
  /\ (forall a : FormatArgs,
        listing_intent (query a) = false ->
        pages_nonempty (pages a) = false ->
        snippets a = [] ->
        documents a <> [] ->
        r_content (formatResponse a) = str "Here's what I found:" ++ LF ++ LF
        /\ r_documents (formatResponse a) = Some (documents a)).
Proof.
  split.
  - intros a Hl Hd Hne. rewrite formatResponse_listing by tauto.
    rewrite Hd.
    cbn [r_content map Spec.first_occurrences Spec.numbered_lines].
    now rewrite app_nil_r.
  - intros a Hl Hp Hs Hd. rewrite formatResponse_snippets by tauto.
    rewrite Hs. cbn [r_content r_documents map List.concat].
    now rewrite app_nil_r.
Qed.

Lemma heading_alone_witness :
  r_content
    (formatResponse
       {| documents := []; snippets := [snippetY None];
          pages := Some [pageX]; query := str "Show all" |})
  = str "Here are the available documents:" ++ LF ++ LF.
Proof.
  apply (proj1 heading_alone
           {| documents := []; snippets := [snippetY None];
              pages := Some [pageX]; query := str "Show all" |}).
  - vm_compute. reflexivity.
  - reflexivity.
  - left. discriminate.
Defined.

Lemma lowerUnit_idempotent (c : char16) :
  flat_map lowerUnit (lowerUnit c) = lowerUnit c.
Proof.
  unfold lowerUnit at 2 3.
  destruct ((65 <=? c)%N && (c <=? 90)%N) eqn:Hu.
  - apply andb_true_iff in Hu as [H1 H2].
    apply N.leb_le in H1. apply N.leb_le in H2.
    simpl. rewrite app_nil_r. unfold lowerUnit.
    replace ((65 <=? c + 32)%N && (c + 32 <=? 90)%N) with false.
    2:{ symmetry. apply andb_false_iff. right. apply N.leb_gt. lia. }
    replace (c + 32 =? 304)%N with false
      by (symmetry; apply N.eqb_neq; lia).
    replace (c + 32 =? 8490)%N with false
      by (symmetry; apply N.eqb_neq; lia).
    reflexivity.
  - destruct (c =? 304)%N eqn:H304; [reflexivity|].
    destruct (c =? 8490)%N eqn:H8490; [reflexivity|].
    simpl. rewrite app_nil_r. unfold lowerUnit.
    now rewrite Hu, H304, H8490.
Qed.

Lemma toLowerCase_idempotent (s : jsstring) :
  toLowerCase (toLowerCase s) = toLowerCase s.
Proof.
  unfold toLowerCase. induction s as [|c s IH]; [reflexivity|].
  simpl. now rewrite flat_map_app, IH, lowerUnit_idempotent.
Qed.

Lemma toLowerCase_app (a b : jsstring) :
  toLowerCase (a ++ b) = toLowerCase a ++ toLowerCase b.
Proof. apply flat_map_app. Qed.

Lemma contains_context (s p u v : jsstring) :
  Spec.contains s p -> Spec.contains (u ++ s ++ v) p.
Proof.
  intros (a & b & ->). exists (u ++ a), (b ++ v).
  now rewrite <- !app_assoc.
Qed.

Lemma includes_context (s p u v : jsstring) :
  includes (toLowerCase s) p = true ->
  includes (toLowerCase (u ++ s ++ v)) p = true.
Proof.
  intros H. apply includes_spec. rewrite !toLowerCase_app.
  apply contains_context. now apply includes_spec.
Qed.

(** X7. The intents are read off the letters alone and off any part of the
    query: lower-casing the query first changes neither the listing intent
    nor the page intent, and text added before or after a query that has an
    intent never takes the intent away, the words "show", "document", "all"
    and "page" being matched wherever they occur, inside longer words too. *)
Theorem intent_is_by_substring :
  (forall q : jsstring,
      listing_intent (toLowerCase q) = listing_intent q /\
      wants_pages (toLowerCase q) = wants_pages q)
  /\ (forall u q v : jsstring,
        listing_intent q = true -> listing_intent (u ++ q ++ v) = true)
  /\ (forall u q v : jsstring,
        wants_pages q = true -> wants_pages (u ++ q ++ v) = true).
Proof.
  split; [|split].
  - intros q. unfold listing_intent, wants_pages.
    now rewrite toLowerCase_idempotent.
  - intros u q v H. unfold listing_intent in *.
    apply andb_true_iff in H as [Hs Hd]. apply andb_true_iff. split.
    + now apply includes_context.
    + apply orb_true_iff in Hd as [Hd | Hd]; apply orb_true_iff;
        [left | right]; now apply includes_context.
  - intros u q v H. unfold wants_pages in *. now apply includes_context.
Qed.

Lemma intent_is_by_substring_witness :
  wants_pages (str "the " ++ str "HomePage" ++ str " layout") = true.
Proof.
  apply (proj2 (proj2 intent_is_by_substring) (str "the ") (str "HomePage")
           (str " layout")).
  vm_compute. reflexivity.
Defined.

Lemma Set_has_In (s : JSSet) (x : jsstring) : Set_has s x = true <-> In x s.
Proof.
  unfold Set_has. rewrite existsb_exists. split.
  - intros (y & Hy & E). apply jsstring_eqb_eq in E. now subst.
  - intros H. exists x. split; [exact H | apply jsstring_eqb_refl].
Qed.

Lemma fold_Set_add_In (l : list jsstring) (acc : JSSet) (x : jsstring) :
  In x (fold_left Set_add l acc) <-> In x acc \/ In x l.
Proof.
  revert acc. induction l as [|y l IH]; intros acc; simpl.
  - tauto.
  - rewrite IH. unfold Set_add. destruct (Set_has acc y) eqn:Hy.
    + apply Set_has_In in Hy. split; [tauto|].
      intros [H | [H | H]]; subst; auto.
    + rewrite in_app_iff. simpl. tauto.
Qed.

(** A path that occurred before adds nothing to the set. *)
Lemma new_Set_repeat (l1 l2 : list jsstring) (x : jsstring) :
  In x l1 -> new_Set (l1 ++ x :: l2) = new_Set (l1 ++ l2).
Proof.
  intros H. unfold new_Set. rewrite !fold_left_app. simpl.
  unfold Set_add at 2.
  assert (Hx : Set_has (fold_left Set_add l1 []) x = true).
  { apply Set_has_In, fold_Set_add_In. now right. }
  now rewrite Hx.
Qed.

(** X8. In a listing, a document whose path has occurred earlier in the
    results changes nothing: the answer with it is the answer without it. *)
Theorem listing_ignores_repeats :
  forall (q : jsstring) (l1 l2 : list Document) (d : Document)
         (ss : list Snippet) (ps : option (list Page)),
    listing_intent q = true ->
    In (d_path d) (map d_path l1) ->
    r_content
      (formatResponse
         {| documents := l1 ++ d :: l2; snippets := ss; pages := ps;
            query := q |})
    = r_content
        (formatResponse
           {| documents := l1 ++ l2; snippets := ss; pages := ps;
              query := q |}).
Proof.
  intros q l1 l2 d ss ps Hl Hd.
  assert (E1 : is_empty (l1 ++ d :: l2) = false)
    by (destruct l1; [contradiction | reflexivity]).
  assert (E2 : is_empty (l1 ++ l2) = false)
    by (destruct l1; [contradiction | reflexivity]).
  unfold formatResponse. cbn [documents snippets pages query].
  rewrite Hl, E1, E2. cbn [andb r_content].
  rewrite !map_app. cbn [map].
  now rewrite (new_Set_repeat (map d_path l1) (map d_path l2) (d_path d) Hd).
Qed.

Lemma listing_ignores_repeats_witness :
  r_content
    (formatResponse
       {| documents := [doc "a"; doc "b"] ++ mkDocument (str "a") 7 [] :: [doc "c"];
          snippets := []; pages := None; query := str "show documents" |})
  = r_content
      (formatResponse
         {| documents := [doc "a"; doc "b"] ++ [doc "c"];
            snippets := []; pages := None; query := str "show documents" |}).
Proof.
  apply (listing_ignores_repeats (str "show documents") [doc "a"; doc "b"]
           [doc "c"] (mkDocument (str "a") 7 []) [] None).
  - vm_compute. reflexivity.
  - left. reflexivity.
Defined.

(** X9. Each rule's answer is made of its own evidence and of nothing else.
    A listing shows paths only: two non-empty inputs with listing intent and
    the same sequence of document paths have the same content, whatever the
    scores, the metadata, the snippets, the pages and the rest of the query.
    Without listing intent, inputs with the same non-empty pages have the
    same content; and inputs without pages and with the same snippets have
    the same content, the documents not entering it. *)
Theorem content_is_of_own_evidence :
  (forall a b : FormatArgs,
      nonempty a -> nonempty b ->
      listing_intent (query a) = true -> listing_intent (query b) = true ->
      map d_path (documents a) = map d_path (documents b) ->
      r_content (formatResponse a) = r_content (formatResponse b))
  /\ (forall a b : FormatArgs,
        listing_intent (query a) = false ->
        listing_intent (query b) = false ->
        pages_nonempty (pages a) = true ->
        pages a = pages b ->
        r_content (formatResponse a) = r_content (formatResponse b))
  /\ (forall a b : FormatArgs,
        listing_intent (query a) = false ->
        listing_intent (query b) = false ->
        pages_nonempty (pages a) = false ->
        pages_nonempty (pages b) = false ->
        documents a <> [] \/ snippets a <> [] ->
        documents b <> [] \/ snippets b <> [] ->
        snippets a = snippets b ->
        r_content (formatResponse a) = r_content (formatResponse b)).
Proof.
  split; [|split].
  - intros a b Ha Hb Hla Hlb Hp.
    rewrite (formatResponse_listing a Ha Hla),
      (formatResponse_listing b Hb Hlb). simpl. now rewrite Hp.
  - intros a b Hla Hlb Hn Hp.
    destruct (pages a) as [[|p ps]|] eqn:E; try discriminate.
    rewrite (formatResponse_pages a (p :: ps) Hla E) by discriminate.
    rewrite (formatResponse_pages b (p :: ps) Hlb) by (auto; discriminate).
    reflexivity.
  - intros a b Hla Hlb Hpa Hpb Ha Hb Hs.
    rewrite (formatResponse_snippets a Ha Hla Hpa),
      (formatResponse_snippets b Hb Hlb Hpb). simpl. now rewrite Hs.
Qed.

Lemma content_is_of_own_evidence_witness :
  r_content
    (formatResponse
       {| documents := [doc "a.md"]; snippets := [snippetY None];
          pages := None; query := str "show all" |})
  = r_content
      (formatResponse
         {| documents := [sampleDocument]; snippets := [];
            pages := Some [pageX]; query := str "SHOW me the documents" |}).
Proof.
  apply (proj1 content_is_of_own_evidence
           {| documents := [doc "a.md"]; snippets := [snippetY None];
              pages := None; query := str "show all" |}
           {| documents := [sampleDocument]; snippets := [];
              pages := Some [pageX]; query := str "SHOW me the documents" |}).
  - left. discriminate.
  - left. discriminate.
  - vm_compute. reflexivity.
  - vm_compute. reflexivity.
  - reflexivity.
Defined.

End FormatterCoverage.

(* ================================================================== *)
(** * Further properties of the console *)
(* ================================================================== *)

Section ConsoleCoverage.
Import JS Effects Console ConsoleView.

Variable arrange :
  jsstring -> jsstring -> SortOrder -> list DocumentInfo -> list DocumentInfo.
Variable browser : Browser.

Lemma console_logged_logged (a b : list Event) (w : World) :
  logged b (logged a w) = logged (a ++ b) w.
Proof. unfold logged. simpl. now rewrite app_assoc. Qed.

Lemma console_logged_nil (w : World) : logged [] w = w.
Proof. destruct w. unfold logged. simpl. now rewrite app_nil_r. Qed.

Lemma filesRead_app (a b : list Event) :
  filesRead (a ++ b) = filesRead a ++ filesRead b.
Proof. apply flat_map_app. Qed.

Lemma namesAdded_app (a b : list Event) :
  namesAdded (a ++ b) = namesAdded a ++ namesAdded b.
Proof. apply flat_map_app. Qed.

Lemma listRequests_app (a b : list Event) :
  listRequests (a ++ b) = listRequests a + listRequests b.
Proof. unfold listRequests. now rewrite filter_app, length_app. Qed.

(** The collection step ends the same way in every world, and adds to the
    trace the request and at most one console line. *)
Lemma createCollection_uniform (st : DocumentState) :
  exists (r : Completion unit) (evs : list Event),
    (forall w, createCollection browser st w = (r, logged evs w)) /\
    filesRead evs = [] /\ namesAdded evs = [] /\ listRequests evs = 0 /\
    (creationAccepted browser st -> r = Normal tt) /\
    exists rest, evs = creationFetch st :: rest.
Proof.
  unfold creationAccepted.
  destruct (creationOutcome browser st) as [[[err|]]|e] eqn:Ho.
  - destruct (includes (api_message err) (str "already exists")) eqn:Hi.
    + eexists _, _.
      split; [intros w; exact (createCollection_exists browser st w err Ho Hi)|].
      repeat split; eauto.
    + eexists _, _.
      split; [intros w; exact (createCollection_refused browser st w err Ho Hi)|].
      repeat split; eauto.
      intros [H | (err' & H & Hi')]; congruence.
  - eexists _, _.
    split; [intros w; exact (createCollection_created browser st w Ho)|].
    repeat split; eauto.
  - eexists _, _.
    split; [intros w; exact (createCollection_rejected browser st w e Ho)|].
    repeat split; eauto.
    intros [H | (err' & H & _)]; congruence.
Qed.

(** One file: read, then added. *)
Lemma uploadFiles_step (c : ZeroEntropy) (f : File) (rest : list File)
  (i : nat) (w : World) :
  uploadFiles browser c (f :: rest) i w =
  match readCompletion browser f with
  | Normal b =>
      match documents_add c (addRequest browser f b i) with
      | Normal _ =>
          uploadFiles browser c rest (S i)
            (logged [ReadAsDataURL f;
                     CallDocumentsAdd (addRequest browser f b i)] w)
      | Throw e =>
          (Throw e,
           logged [ReadAsDataURL f;
                   CallDocumentsAdd (addRequest browser f b i)] w)
      end
  | Throw e => (Throw e, logged [ReadAsDataURL f] w)
  end.
Proof.
  cbn [uploadFiles].
  cbv beta iota delta [bind readBase64 call emit modify await].
  destruct (readCompletion browser f) as [b|e]; [|reflexivity].
  cbv beta iota. fold (addRequest browser f b i).
  destruct (documents_add c (addRequest browser f b i)) as [u|e];
    unfold logged; cbn [state trace]; rewrite <- app_assoc; reflexivity.
Qed.

(** The files end the same way in every world and never ask for the list;
    when they all went through, each was read and added once, in order. *)
Lemma uploadFiles_uniform (c : ZeroEntropy) (fs : list File) (i : nat) :
  exists (r : Completion unit) (evs : list Event),
    (forall w, uploadFiles browser c fs i w = (r, logged evs w)) /\
    listRequests evs = 0 /\
    (forall u, r = Normal u ->
               filesRead evs = fs /\ namesAdded evs = map f_name fs).
Proof.
  revert i. induction fs as [|f fs IH]; intros i.
  - exists (Normal tt), []. split; [|split; [reflexivity | now split]].
    intros w. now rewrite console_logged_nil.
  - destruct (readCompletion browser f) as [b|e] eqn:Hr.
    + destruct (documents_add c (addRequest browser f b i)) as [u|e] eqn:Ha.
      * destruct (IH (S i)) as (r & evs & Hu & Hl & Hn).
        eexists r, (_ ++ evs). split; [|split].
        -- intros w. rewrite uploadFiles_step, Hr, Ha, Hu.
           now rewrite console_logged_logged.
        -- rewrite listRequests_app, Hl. reflexivity.
        -- intros u' Hu'. destruct (Hn u' Hu') as [H1 H2].
           rewrite filesRead_app, namesAdded_app, H1, H2. now split.
      * eexists _, _. split; [|split].
        -- intros w. rewrite uploadFiles_step, Hr, Ha. reflexivity.
        -- reflexivity.
        -- intros u' Hu'. discriminate.
    + eexists _, _. split; [|split].
      * intros w. rewrite uploadFiles_step, Hr. reflexivity.
      * reflexivity.
      * intros u' Hu'. discriminate.
Qed.

(** The three ways [loadDocuments] ends. *)
Lemma loadDocuments_outcome (st : DocumentState) (w : World) :
  match client st with
  | None => loadDocuments arrange st w = (Normal tt, w)
  | Some c =>
      match documents_getInfoList c (str "default") 1000%N with
      | Normal docs =>
          loadDocuments arrange st w =
          (Normal tt,
           {| state :=
                with_documents
                  (arrange (searchQuery st) (filterStatus st) (sortOrder st)
                           docs)
                  (with_loading true (state w));
              trace := trace w ++ [CallGetInfoList (str "default") 1000] |})
      | Throw e =>
          loadDocuments arrange st w =
          (Normal tt,
           {| state :=
                with_message (str "Failed to load documents") false
                  (with_loading true (state w));
              trace :=
                trace w ++ [CallGetInfoList (str "default") 1000;
                            ConsoleError (str "Loading error:") e] |})
      end
  end.
Proof.
  unfold loadDocuments. destruct (client st) as [c|]; [|reflexivity].
  cbv beta iota delta [bind try_catch call setState emit modify await].
  cbn [state trace].
  destruct (documents_getInfoList c (str "default") 1000%N) as [docs|e];
    cbv beta iota; cbn [state trace]; [reflexivity|].
  now rewrite <- app_assoc.
Qed.

Lemma loadDocuments_returns (st : DocumentState) (w : World) :
  exists w', loadDocuments arrange st w = (Normal tt, w').
Proof.
  pose proof (loadDocuments_outcome st w) as H.
  destruct (client st) as [c|]; [|eauto].
  destruct (documents_getInfoList c (str "default") 1000%N); eauto.
Qed.

(** X10. [loadDocuments] never rejects.  Without a client it does nothing.
    With one it sends one list request, for the collection "default" with
    limit 1000, and ends with loading off: when the request succeeds the
    list shown becomes the answer arranged by the search text, the status
    filter and the sort order of the render the function was made in, and
    the message stays; when it fails the list shown stays as it was and the
    message becomes ["Failed to load documents"].  Nothing else of the state
    changes. *)
Theorem loadDocuments_settles :
  forall (st : DocumentState) (w : World),
    exists w' : World,
      loadDocuments arrange st w = (Normal tt, w') /\
      apiKey (state w') = apiKey (state w) /\
      client (state w') = client (state w) /\
      files (state w') = files (state w) /\
      selectedDocument (state w') = selectedDocument (state w) /\
      searchQuery (state w') = searchQuery (state w) /\
      sortOrder (state w') = sortOrder (state w) /\
      filterStatus (state w') = filterStatus (state w) /\
      match client st with
      | None => w' = w
      | Some c =>
          loading (state w') = false /\
          match documents_getInfoList c (str "default") 1000%N with
          | Normal docs =>
              documents (state w') =
                arrange (searchQuery st) (filterStatus st) (sortOrder st) docs
              /\ message (state w') = message (state w)
              /\ trace w' =
                 trace w ++ [CallGetInfoList (str "default") 1000]
          | Throw e =>
              documents (state w') = documents (state w)
              /\ message (state w') = str "Failed to load documents"
              /\ trace w' =
                 trace w ++ [CallGetInfoList (str "default") 1000;
                             ConsoleError (str "Loading error:") e]
          end
      end.
Proof.
  intros st w. pose proof (loadDocuments_outcome st w) as H.
  destruct (client st) as [c|].
  - destruct (documents_getInfoList c (str "default") 1000%N) as [docs|e];
      eexists; (split; [exact H|]); cbn; repeat split; reflexivity.
  - exists w. split; [exact H|]. repeat split; reflexivity.
Qed.

(** A run of the upload handler, from how its two first steps end. *)
Lemma handleFileUpload_run (st : DocumentState) (c : ZeroEntropy) (w : World)
  (rA rU : Completion unit) (evA evU : list Event) :
  client st = Some c -> files st <> [] ->
  (forall w0, createCollection browser st w0 = (rA, logged evA w0)) ->
  (forall w0, uploadFiles browser c (files st) 0 w0 = (rU, logged evU w0)) ->
  handleFileUpload arrange browser st w =
  match rA, rU with
  | Throw e, _ =>
      (Normal tt,
       {| state := with_message uploadFailedMessage false
                     (with_loading true (state w));
          trace := trace w ++ evA ++ [ConsoleError (str "Upload error:") e] |})
  | Normal _, Throw e =>
      (Normal tt,
       {| state := with_message uploadFailedMessage false
                     (with_loading true (state w));
          trace := trace w ++ evA ++ evU
                     ++ [ConsoleError (str "Upload error:") e] |})
  | Normal _, Normal _ =>
      let wL :=
        snd (loadDocuments arrange st
               {| state := with_loading true (state w);
                  trace := trace w ++ evA ++ evU |}) in
      (Normal tt, {| state := uploaded (state wL); trace := trace wL |})
  end.
Proof.
  intros Hc Hf HA HU. unfold handleFileUpload. rewrite Hc.
  destruct (files st) as [|f fs] eqn:Hfs; [contradiction|].
  change (is_empty (f :: fs)) with false. cbv iota.
  cbv beta iota delta [bind try_catch setState modify emit].
  cbn [state trace]. rewrite HA. unfold logged. cbn [state trace].
  destruct rA as [u|e]; cbv beta iota; cbn [state trace].
  - rewrite HU. unfold logged. cbn [state trace].
    destruct rU as [u'|e]; cbv beta iota; cbn [state trace].
    + rewrite <- app_assoc.
      destruct (loadDocuments_returns st
                  {| state := with_loading true (state w);
                     trace := trace w ++ evA ++ evU |}) as (wL & HL).
      rewrite HL. reflexivity.
    + now rewrite <- !app_assoc.
  - now rewrite <- !app_assoc.
Qed.

(** X11. With a client and at least one file, the upload handler always
    returns, never throws, and ends with loading off in one of two states.
    Either the upload went through: the message is ["Files uploaded
    successfully!"] and the selection of files is cleared.  Or it did not:
    the message is ["Upload failed. Please try again."], the selection and
    the list shown are as before, and no list request was sent.  The key,
    the client, the open document and the three view settings are as
    before in both. *)
Theorem upload_always_settles :
  forall (st : DocumentState) (c : ZeroEntropy) (w : World),
    client st = Some c -> files st <> [] ->
    exists (w' : World) (evs : list Event),
      handleFileUpload arrange browser st w = (Normal tt, w') /\
      trace w' = trace w ++ evs /\
      loading (state w') = false /\
      apiKey (state w') = apiKey (state w) /\
      client (state w') = client (state w) /\
      selectedDocument (state w') = selectedDocument (state w) /\
      searchQuery (state w') = searchQuery (state w) /\
      sortOrder (state w') = sortOrder (state w) /\
      filterStatus (state w') = filterStatus (state w) /\
      ((message (state w') = str "Files uploaded successfully!" /\
        files (state w') = [] /\
        filesRead evs = files st) \/
       (message (state w') = str "Upload failed. Please try again." /\
        files (state w') = files (state w) /\
        documents (state w') = documents (state w) /\
        listRequests evs = 0)).
Proof.
  intros st c w Hc Hf.
  destruct (createCollection_uniform st)
    as (rA & evA & HA & HAr & HAn & HAl & _ & _).
  destruct (uploadFiles_uniform c (files st) 0)
    as (rU & evU & HU & HUl & HUn).
  rewrite (handleFileUpload_run st c w rA rU evA evU Hc Hf HA HU).
  destruct rA as [u|e].
  - destruct rU as [u'|e].
    + cbv zeta.
      pose proof (loadDocuments_outcome st
                    {| state := with_loading true (state w);
                       trace := trace w ++ evA ++ evU |}) as HL.
      rewrite Hc in HL. destruct (HUn u' eq_refl) as [HUr _].
      destruct (documents_getInfoList c (str "default") 1000%N) as [docs|e];
        rewrite HL; cbn [snd state trace];
        eexists _, ((evA ++ evU) ++ _);
        (split; [reflexivity|]);
        (split; [now rewrite <- !app_assoc|]);
        cbn [state uploaded with_documents with_message with_loading
             apiKey client selectedDocument searchQuery sortOrder
             filterStatus loading message files];
        repeat (split; [reflexivity|]);
        left; repeat split;
        rewrite !filesRead_app, HAr, HUr; cbn; now rewrite app_nil_r.
    + eexists _, _. split; [reflexivity|]. cbn.
      repeat (split; [reflexivity|]). right. repeat split.
      now rewrite !listRequests_app, HAl, HUl.
  - eexists _, _. split; [reflexivity|]. cbn.
    repeat (split; [reflexivity|]). right. repeat split.
    now rewrite listRequests_app, HAl.
Qed.

(** Files that all upload are passed one by one, in order. *)
Lemma uploadFiles_app_all (c : ZeroEntropy) (pre : list File) (i : nat) :
  allUpload browser c i pre ->
  exists evs : list Event,
    (forall rest w,
        uploadFiles browser c (pre ++ rest) i w =
        uploadFiles browser c rest (List.length pre + i) (logged evs w)) /\
    filesRead evs = pre /\
    namesAdded evs = map f_name pre /\
    listRequests evs = 0.
Proof.
  revert i. induction pre as [|f pre IH]; intros i Hall.
  - exists []. split; [|now repeat split].
    intros rest w. now rewrite console_logged_nil.
  - destruct Hall as [(b & Hr & Ha) Hall].
    destruct (IH (S i) Hall) as (evs & Hu & H1 & H2 & H3).
    eexists (_ ++ evs). split; [|split; [|split]].
    + intros rest w. cbn [app]. rewrite uploadFiles_step, Hr, Ha, Hu.
      rewrite console_logged_logged. cbn [List.length].
      now rewrite Nat.add_succ_r.
    + rewrite filesRead_app, H1. reflexivity.
    + rewrite namesAdded_app, H2. reflexivity.
    + rewrite listRequests_app, H3. reflexivity.
Qed.

Lemma uploadFiles_fails (c : ZeroEntropy) (f : File) (i : nat) :
  fileFails browser c i f ->
  exists (e : JSError) (evs : list Event),
    (forall post w,
        uploadFiles browser c (f :: post) i w = (Throw e, logged evs w)) /\
    filesRead evs = [f] /\
    namesAdded evs =
      match readCompletion browser f with
      | Normal _ => [f_name f]
      | Throw _ => []
      end /\
    listRequests evs = 0.
Proof.
  intros [(e & Hr) | (b & e & Hr & Ha)].
  - exists e. eexists.
    split; [intros post w; rewrite uploadFiles_step, Hr; reflexivity|].
    rewrite Hr. now repeat split.
  - exists e. eexists.
    split; [intros post w; rewrite uploadFiles_step, Hr, Ha; reflexivity|].
    rewrite Hr. now repeat split.
Qed.

(** X12. When the collection step is passed and every selected file is read
    and accepted, the upload ends in success whatever the reload of the list
    does, a failed reload included: each file has been read once and added
    once under its own name, in the order of the selection, one list request
    has been sent, the message is ["Files uploaded successfully!"] and the
    selection is cleared. *)
Theorem upload_of_good_files :
  forall (st : DocumentState) (c : ZeroEntropy) (w : World),
    client st = Some c -> files st <> [] ->
    creationAccepted browser st ->
    allUpload browser c 0 (files st) ->
    exists (w' : World) (evs : list Event),
      handleFileUpload arrange browser st w = (Normal tt, w') /\
      trace w' = trace w ++ evs /\
      filesRead evs = files st /\
      namesAdded evs = map f_name (files st) /\
      listRequests evs = 1 /\
      message (state w') = str "Files uploaded successfully!" /\
      files (state w') = [] /\
      loading (state w') = false.
Proof.
  intros st c w Hc Hf Hacc Hall.
  destruct (createCollection_uniform st)
    as (rA & evA & HA & HAr & HAn & HAl & HAok & _).
  rewrite (HAok Hacc) in HA.
  destruct (uploadFiles_app_all c (files st) 0 Hall)
    as (evU & HU & HUr & HUn & HUl).
  assert (HU' : forall w0,
             uploadFiles browser c (files st) 0 w0 = (Normal tt, logged evU w0)).
  { intros w0. specialize (HU [] w0). now rewrite app_nil_r in HU. }
  rewrite (handleFileUpload_run st c w _ _ evA evU Hc Hf HA HU'). cbv zeta.
  pose proof (loadDocuments_outcome st
                {| state := with_loading true (state w);
                   trace := trace w ++ evA ++ evU |}) as HL.
  rewrite Hc in HL.
  destruct (documents_getInfoList c (str "default") 1000%N) as [docs|e];
    rewrite HL; cbn [snd state trace];
    eexists _, ((evA ++ evU) ++ _);
    (split; [reflexivity|]);
    (split; [now rewrite <- !app_assoc|]);
    rewrite !filesRead_app, !namesAdded_app, !listRequests_app,
      HAr, HAn, HAl, HUr, HUn, HUl;
    cbn; now rewrite !app_nil_r.
Qed.

(** X13. The files are uploaded one after the other and the first one that
    fails ends the upload: the files before it have been added and stay
    added, the files after it are not even read, no list request is sent,
    and the state changes only in its message, which becomes ["Upload
    failed. Please try again."], and its loading flag, so that the whole
    selection, the files already added included, is still selected. *)
Theorem upload_stops_at_first_failure :
  forall (st : DocumentState) (c : ZeroEntropy) (w : World)
         (pre post : list File) (f : File),
    client st = Some c ->
    files st = pre ++ f :: post ->
    creationAccepted browser st ->
    allUpload browser c 0 pre ->
    fileFails browser c (List.length pre) f ->
    exists evs : list Event,
      handleFileUpload arrange browser st w =
      (Normal tt,
       {| state :=
            {| apiKey := apiKey (state w);
               client := client (state w);
               files := files (state w);
               documents := documents (state w);
               selectedDocument := selectedDocument (state w);
               message := str "Upload failed. Please try again.";
               loading := false;
               searchQuery := searchQuery (state w);
               sortOrder := sortOrder (state w);
               filterStatus := filterStatus (state w) |};
          trace := trace w ++ evs |}) /\
      filesRead evs = pre ++ [f] /\
      namesAdded evs =
        map f_name pre ++
        match readCompletion browser f with
        | Normal _ => [f_name f]
        | Throw _ => []
        end /\
      listRequests evs = 0.
Proof.
  intros st c w pre post f Hc Hfs Hacc Hall Hfail.
  assert (Hf : files st <> []).
  { rewrite Hfs. destruct pre; discriminate. }
  destruct (createCollection_uniform st)
    as (rA & evA & HA & HAr & HAn & HAl & HAok & _).
  rewrite (HAok Hacc) in HA.
  destruct (uploadFiles_app_all c pre 0 Hall)
    as (evP & HP & HPr & HPn & HPl).
  rewrite Nat.add_0_r in HP.
  destruct (uploadFiles_fails c f (List.length pre) Hfail)
    as (e & evF & HF & HFr & HFn & HFl).
  assert (HU : forall w0,
             uploadFiles browser c (files st) 0 w0 =
             (Throw e, logged (evP ++ evF) w0)).
  { intros w0. rewrite Hfs, HP, HF. now rewrite console_logged_logged. }
  rewrite (handleFileUpload_run st c w _ _ evA (evP ++ evF) Hc Hf HA HU).
  eexists. split; [reflexivity|].
  rewrite !filesRead_app, !namesAdded_app, !listRequests_app,
    HAr, HAn, HAl, HPr, HPn, HPl, HFr, HFn, HFl.
  cbn [app filesRead namesAdded listRequests flat_map filter List.length].
  rewrite !app_nil_r. now repeat split.
Qed.

End ConsoleCoverage.

Section ConsoleWitnesses.
Import JS Effects Console ConsoleView.

Lemma upload_of_good_files_witness :
  exists (w' : World) (evs : list Event),
    handleFileUpload plainArrange (browserAnswering alreadyExists)
      {| apiKey := str "key"; client := Some unlistedService;
         files := [sampleFile; secondFile]; documents := [];
         selectedDocument := None; message := []; loading := false;
         searchQuery := []; sortOrder := desc; filterStatus := str "all" |}
      sampleWorld = (Normal tt, w') /\
    trace w' = trace sampleWorld ++ evs /\
    filesRead evs = [sampleFile; secondFile] /\
    namesAdded evs = map f_name [sampleFile; secondFile] /\
    listRequests evs = 1 /\
    message (state w') = str "Files uploaded successfully!" /\
    files (state w') = [] /\
    loading (state w') = false.
Proof.
  apply (upload_of_good_files plainArrange (browserAnswering alreadyExists)
           {| apiKey := str "key"; client := Some unlistedService;
              files := [sampleFile; secondFile]; documents := [];
              selectedDocument := None; message := []; loading := false;
              searchQuery := []; sortOrder := desc;
              filterStatus := str "all" |}
           unlistedService sampleWorld).
  - reflexivity.
  - discriminate.
  - right. exists (mkApiError (str "Collection default already exists")).
    split; [reflexivity | vm_compute; reflexivity].
  - split; [|split; [|exact I]];
      exists (str "aGVsbG8="); split; vm_compute; reflexivity.
Defined.

Lemma upload_stops_at_first_failure_witness :
  exists evs : list Event,
    handleFileUpload plainArrange
      {| fetch_json := fun _ _ _ _ _ => Normal {| error := None |};
         readAsDataURL := fun file =>
           if jsstring_eqb (f_name file) (str "more.txt")
           then Loaded None
           else Loaded (Some (str "data:text/plain;base64,aGVsbG8="));
         toISOString_now := fun _ => str "2024-01-01T00:00:00.000Z" |}
      {| apiKey := str "key"; client := Some sampleService;
         files := [sampleFile] ++ secondFile :: [sampleFile];
         documents := []; selectedDocument := None; message := [];
         loading := false; searchQuery := []; sortOrder := desc;
         filterStatus := str "all" |}
      sampleWorld =
    (Normal tt,
     {| state :=
          {| apiKey := apiKey (state sampleWorld);
             client := client (state sampleWorld);
             files := files (state sampleWorld);
             documents := documents (state sampleWorld);
             selectedDocument := selectedDocument (state sampleWorld);
             message := str "Upload failed. Please try again.";
             loading := false;
             searchQuery := searchQuery (state sampleWorld);
             sortOrder := sortOrder (state sampleWorld);
             filterStatus := filterStatus (state sampleWorld) |};
        trace := trace sampleWorld ++ evs |}) /\
    filesRead evs = [sampleFile] ++ [secondFile] /\
    namesAdded evs =
      map f_name [sampleFile] ++
      match
        readCompletion
          {| fetch_json := fun _ _ _ _ _ => Normal {| error := None |};
             readAsDataURL := fun file =>
               if jsstring_eqb (f_name file) (str "more.txt")
               then Loaded None
               else Loaded (Some (str "data:text/plain;base64,aGVsbG8="));
             toISOString_now := fun _ => str "2024-01-01T00:00:00.000Z" |}
          secondFile
      with
      | Normal _ => [f_name secondFile]
      | Throw _ => []
      end /\
    listRequests evs = 0.
Proof.
  apply (upload_stops_at_first_failure plainArrange
           {| fetch_json := fun _ _ _ _ _ => Normal {| error := None |};
              readAsDataURL := fun file =>
                if jsstring_eqb (f_name file) (str "more.txt")
                then Loaded None
                else Loaded (Some (str "data:text/plain;base64,aGVsbG8="));
              toISOString_now := fun _ => str "2024-01-01T00:00:00.000Z" |}
           {| apiKey := str "key"; client := Some sampleService;
              files := [sampleFile] ++ secondFile :: [sampleFile];
              documents := []; selectedDocument := None; message := [];
              loading := false; searchQuery := []; sortOrder := desc;
              filterStatus := str "all" |}
           sampleService sampleWorld [sampleFile] [sampleFile] secondFile).
  - reflexivity.
  - reflexivity.
  - left. reflexivity.
  - split; [|exact I]. exists (str "aGVsbG8=").
    split; vm_compute; reflexivity.
  - left. exists (mkError (str "Failed to read file")).
    vm_compute. reflexivity.
Defined.

End ConsoleWitnesses.

Section ConsoleCoverageMore.
Import JS Effects Console ConsoleView.

Lemma split_from_no_sep (sep : char16) (h t cur : jsstring) :
  ~ In sep h ->
  split_from sep (h ++ t) cur = split_from sep t (rev h ++ cur).
Proof.
  revert cur. induction h as [|x h IH]; intros cur Hn; [reflexivity|].
  cbn [app split_from].
  destruct (N.eqb x sep) eqn:E.
  - apply N.eqb_eq in E. exfalso. apply Hn. now left.
  - rewrite IH by (intros H; apply Hn; now right).
    cbn [rev]. now rewrite <- app_assoc.
Qed.

Lemma split_at_sep (sep : char16) (h t : jsstring) :
  ~ In sep h -> split sep (h ++ sep :: t) = h :: split sep t.
Proof.
  intros Hn. unfold split. rewrite split_from_no_sep by exact Hn.
  cbn [split_from]. rewrite N.eqb_refl, app_nil_r, rev_involutive.
  reflexivity.
Qed.

Lemma split_no_sep (sep : char16) (h : jsstring) :
  ~ In sep h -> split sep h = [h].
Proof.
  intros Hn. unfold split. rewrite <- (app_nil_r h) at 1.
  rewrite split_from_no_sep by exact Hn.
  cbn [split_from]. now rewrite app_nil_r, rev_involutive.
Qed.

(** X14. What is uploaded as the content of a file is the part of its data
    URL between the first and the second comma, or to the end when there is
    one comma only: text after a second comma is dropped.  A data URL
    without a comma, an empty part after the first comma, and a reader
    without result all reject the file with ["Failed to read file"]. *)
Theorem uploaded_content_of_data_url :
  (forall (browser : Browser) (file : File) (h p : jsstring),
      readAsDataURL browser file = Loaded (Some (h ++ 44%N :: p)) ->
      ~ In 44%N h -> ~ In 44%N p -> p <> [] ->
      readCompletion browser file = Normal p)
  /\ (forall (browser : Browser) (file : File) (h p t : jsstring),
        readAsDataURL browser file =
          Loaded (Some (h ++ 44%N :: p ++ 44%N :: t)) ->
        ~ In 44%N h -> ~ In 44%N p -> p <> [] ->
        readCompletion browser file = Normal p)
  /\ (forall (browser : Browser) (file : File) (h t : jsstring),
        readAsDataURL browser file = Loaded (Some h) \/
        readAsDataURL browser file = Loaded (Some (h ++ [44%N])) \/
        readAsDataURL browser file = Loaded (Some (h ++ 44%N :: 44%N :: t)) \/
        readAsDataURL browser file = Loaded None ->
        ~ In 44%N h ->
        readCompletion browser file =
        Throw (mkError (str "Failed to read file"))).
Proof.
  split; [|split].
  - intros browser file h p Hr Hh Hp Hne. unfold readCompletion.
    rewrite Hr. cbn [base64Part].
    pose proof (split_at_sep 44%N h p Hh) as E1.
    pose proof (split_no_sep 44%N p Hp) as E2.
    unfold char16 in *. rewrite E1, E2.
    cbn [nth_error]. destruct p; [contradiction | reflexivity].
  - intros browser file h p t Hr Hh Hp Hne. unfold readCompletion.
    rewrite Hr. cbn [base64Part].
    pose proof (split_at_sep 44%N h (p ++ 44%N :: t) Hh) as E1.
    pose proof (split_at_sep 44%N p t Hp) as E2.
    unfold char16 in *. rewrite E1, E2.
    cbn [nth_error]. destruct p; [contradiction | reflexivity].
  - intros browser file h t Hr Hh.
    pose proof (split_no_sep 44%N h Hh) as E1.
    pose proof (split_at_sep 44%N h [] Hh) as E2.
    pose proof (split_at_sep 44%N h (44%N :: t) Hh) as E3.
    pose proof (split_at_sep 44%N [] t (fun H => H)) as E4.
    cbn [app] in E4.
    unfold readCompletion. unfold char16 in *.
    destruct Hr as [Hr | [Hr | [Hr | Hr]]]; rewrite Hr; cbn [base64Part].
    + now rewrite E1.
    + now rewrite E2.
    + now rewrite E3, E4.
    + reflexivity.
Qed.

Lemma uploaded_content_of_data_url_witness :
  readCompletion (browserAnswering alreadyExists) sampleFile =
  Normal (str "aGVsbG8=").
Proof.
  apply (proj1 uploaded_content_of_data_url (browserAnswering alreadyExists)
           sampleFile (str "data:text/plain;base64") (str "aGVsbG8=")).
  - reflexivity.
  - vm_compute. intuition discriminate.
  - vm_compute. intuition discriminate.
  - discriminate.
Defined.

(** The ways [handleAuthenticate] ends. *)
Lemma handleAuthenticate_outcome
  (construct : jsstring -> Completion ZeroEntropy) (st : DocumentState)
  (w : World) :
  handleAuthenticate construct st w =
  match construct (apiKey st) with
  | Normal c =>
      (Normal tt, {| state := authenticated c (state w); trace := trace w |})
  | Throw e =>
      (Normal tt,
       {| state := set_message authenticationFailedMessage (state w);
          trace := trace w ++ [ConsoleError (str "Authentication error:") e] |})
  end.
Proof.
  unfold handleAuthenticate.
  cbv beta iota delta [bind try_catch setState modify emit await].
  destruct (construct (apiKey st)); reflexivity.
Qed.

(** An upload that passes its guard begins with the collection request. *)
Lemma handleFileUpload_begins (arrange :
    jsstring -> jsstring -> SortOrder -> list DocumentInfo -> list DocumentInfo)
  (browser : Browser) (st : DocumentState) (c : ZeroEntropy) (w : World) :
  client st = Some c -> files st <> [] ->
  exists (w' : World) (evs : list Event),
    handleFileUpload arrange browser st w = (Normal tt, w') /\
    trace w' = trace w ++ creationFetch st :: evs /\
    (message (state w') = str "Files uploaded successfully!" \/
     message (state w') = str "Upload failed. Please try again.").
Proof.
  intros Hc Hf.
  destruct (createCollection_uniform browser st)
    as (rA & evA & HA & _ & _ & _ & _ & (restA & ->)).
  destruct (uploadFiles_uniform browser c (files st) 0)
    as (rU & evU & HU & _).
  rewrite (handleFileUpload_run arrange browser st c w rA rU _ evU
             Hc Hf HA HU).
  destruct rA as [u|e].
  - destruct rU as [u'|e].
    + cbv zeta.
      pose proof (loadDocuments_outcome arrange st
                    {| state := with_loading true (state w);
                       trace := trace w ++ (creationFetch st :: restA)
                                  ++ evU |}) as HL.
      rewrite Hc in HL.
      destruct (documents_getInfoList c (str "default") 1000%N);
        rewrite HL; cbn [snd state trace]; eexists _, _;
        (split; [reflexivity|]); (split; [|now left]);
        rewrite <- !app_assoc; reflexivity.
    + eexists _, _. split; [reflexivity|]. split; [|now right].
      cbn [trace]. rewrite <- !app_comm_cons. reflexivity.
  - eexists _, _. split; [reflexivity|]. split; [|now right].
    cbn [trace]. rewrite <- !app_comm_cons. reflexivity.
Qed.

(** X15. The status banner is coloured by whether the message includes
    "failed", letter case counting.  After an upload that passed its guard
    the banner is shown, in the error colours exactly when the upload
    failed.  After a failed authentication it is shown in the error colours.
    After a failed loading of the list it is shown too, but in the colours
    of success: its text, ["Failed to load documents"], has a capital F and
    does not include "failed". *)
Theorem banner_colours :
  (forall arrange browser (st : DocumentState) (c : ZeroEntropy) (w : World),
      client st = Some c -> files st <> [] ->
      let st' := state (snd (handleFileUpload arrange browser st w)) in
      messageShown st' = true /\
      (messageIsError st' = true <->
       message st' = str "Upload failed. Please try again."))
  /\ (forall construct (st : DocumentState) (w : World) (e : JSError),
        construct (apiKey st) = Throw e ->
        let st' := state (snd (handleAuthenticate construct st w)) in
        messageShown st' = true /\ messageIsError st' = true)
  /\ (forall arrange (st : DocumentState) (c : ZeroEntropy) (w : World)
             (e : JSError),
        client st = Some c ->
        documents_getInfoList c (str "default") 1000%N = Throw e ->
        let st' := state (snd (loadDocuments arrange st w)) in
        message st' = str "Failed to load documents" /\
        messageShown st' = true /\ messageIsError st' = false).
Proof.
  split; [|split].
  - intros arrange browser st c w Hc Hf.
    destruct (handleFileUpload_begins arrange browser st c w Hc Hf)
      as (w' & evs & H & _ & [Hm | Hm]); rewrite H; cbn [snd];
      unfold messageShown, messageIsError; rewrite Hm.
    + split; [reflexivity|]. split; intros E; vm_compute in E; discriminate.
    + split; [reflexivity|]. split; intros _; [reflexivity|].
      vm_compute. reflexivity.
  - intros construct st w e Hk. rewrite handleAuthenticate_outcome, Hk.
    split; vm_compute; reflexivity.
  - intros arrange st c w e Hc He.
    pose proof (loadDocuments_outcome arrange st w) as H.
    rewrite Hc, He in H. rewrite H.
    repeat split; vm_compute; reflexivity.
Qed.

Lemma banner_colours_witness :
  message
    (state (snd (loadDocuments plainArrange
                   {| apiKey := str "key"; client := Some unlistedService;
                      files := []; documents := []; selectedDocument := None;
                      message := []; loading := false; searchQuery := [];
                      sortOrder := desc; filterStatus := str "all" |}
                   sampleWorld)))
    = str "Failed to load documents" /\
  messageShown
    (state (snd (loadDocuments plainArrange
                   {| apiKey := str "key"; client := Some unlistedService;
                      files := []; documents := []; selectedDocument := None;
                      message := []; loading := false; searchQuery := [];
                      sortOrder := desc; filterStatus := str "all" |}
                   sampleWorld))) = true /\
  messageIsError
    (state (snd (loadDocuments plainArrange
                   {| apiKey := str "key"; client := Some unlistedService;
                      files := []; documents := []; selectedDocument := None;
                      message := []; loading := false; searchQuery := [];
                      sortOrder := desc; filterStatus := str "all" |}
                   sampleWorld))) = false.
Proof.
  apply (proj2 (proj2 banner_colours) plainArrange
           {| apiKey := str "key"; client := Some unlistedService;
              files := []; documents := []; selectedDocument := None;
              message := []; loading := false; searchQuery := [];
              sortOrder := desc; filterStatus := str "all" |}
           unlistedService sampleWorld
           (mkError (str "Service unavailable"))).
  - reflexivity.
  - reflexivity.
Defined.

(** X16. Authentication only builds the client and sends nothing: when the
    constructor returns, success is reported and the client replaced with
    the trace as it was.  When the constructor throws, only the message
    changes, so a client set earlier stays in place; an upload started next
    goes through that client, while its collection request is authorised
    with the key that has just been refused, the one in the key field. *)
Theorem failed_authentication_keeps_client :
  (forall construct (w : World) (c' : ZeroEntropy),
      construct (apiKey (state w)) = Normal c' ->
      handleAuthenticate construct (state w) w =
      (Normal tt,
       {| state :=
            {| apiKey := apiKey (state w);
               client := Some c';
               files := files (state w);
               documents := documents (state w);
               selectedDocument := selectedDocument (state w);
               message := str "Authentication successful!";
               loading := loading (state w);
               searchQuery := searchQuery (state w);
               sortOrder := sortOrder (state w);
               filterStatus := filterStatus (state w) |};
          trace := trace w |}))
  /\ (forall construct arrange browser (w : World) (c : ZeroEntropy)
             (e : JSError),
        client (state w) = Some c -> files (state w) <> [] ->
        construct (apiKey (state w)) = Throw e ->
        let w1 := snd (handleAuthenticate construct (state w) w) in
        client (state w1) = Some c /\
        apiKey (state w1) = apiKey (state w) /\
        message (state w1) =
          str "Authentication failed. Please check your API key." /\
        trace w1 =
          trace w ++ [ConsoleError (str "Authentication error:") e] /\
        exists evs,
          trace (snd (handleFileUpload arrange browser (state w1) w1)) =
          trace w1 ++
          Fetch creationUrl (str "POST") (str "Bearer " ++ apiKey (state w))
                (str "application/json") creationBody :: evs).
Proof.
  split.
  - intros construct w c' Hk. now rewrite handleAuthenticate_outcome, Hk.
  - intros construct arrange browser w c e Hc Hf Hk.
    rewrite handleAuthenticate_outcome, Hk. cbn [snd state trace].
    repeat (split; [reflexivity || assumption|]).
    destruct (handleFileUpload_begins arrange browser
                (set_message authenticationFailedMessage (state w)) c
                {| state := set_message authenticationFailedMessage (state w);
                   trace := trace w ++
                     [ConsoleError (str "Authentication error:") e] |}
                Hc Hf) as (w' & evs & H & Ht & _).
    exists evs. rewrite H. exact Ht.
Qed.

Lemma failed_authentication_keeps_client_witness :
  handleAuthenticate constructFor (state sampleWorld) sampleWorld =
  (Normal tt,
   {| state :=
        {| apiKey := apiKey (state sampleWorld);
           client := Some sampleService;
           files := files (state sampleWorld);
           documents := documents (state sampleWorld);
           selectedDocument := selectedDocument (state sampleWorld);
           message := str "Authentication successful!";
           loading := loading (state sampleWorld);
           searchQuery := searchQuery (state sampleWorld);
           sortOrder := sortOrder (state sampleWorld);
           filterStatus := filterStatus (state sampleWorld) |};
      trace := trace sampleWorld |}).
Proof.
  apply (proj1 failed_authentication_keeps_client constructFor sampleWorld
           sampleService).
  reflexivity.
Defined.

End ConsoleCoverageMore.

Section ListCoverage.
Import JS Effects Console ConsoleView.

Lemma insertBy_perm (cmp : DocumentInfo -> DocumentInfo -> Z)
  (x : DocumentInfo) (l : list DocumentInfo) :
  Permutation (insertBy cmp x l) (x :: l).
Proof.
  induction l as [|y l IH]; cbn [insertBy]; [reflexivity|].
  destruct (cmp x y <? 0)%Z; [reflexivity|].
  rewrite IH. apply perm_swap.
Qed.

Lemma insertionSort_perm (cmp : DocumentInfo -> DocumentInfo -> Z)
  (l : list DocumentInfo) :
  Permutation (insertionSort cmp l) l.
Proof.
  unfold insertionSort. induction l as [|x l IH]; cbn [fold_right].
  - reflexivity.
  - rewrite insertBy_perm. now constructor.
Qed.

Lemma truthy_false (s : jsstring) : truthy s = false <-> s = [].
Proof. destruct s; simpl; split; congruence. Qed.

Lemma filter_shorter {A : Type} (f : A -> bool) (l : list A) :
  List.length (filter f l) <= List.length l.
Proof.
  induction l as [|x l IH]; simpl; [lia|]. destruct (f x); simpl; lia.
Qed.

Section Host.

Variable lower : jsstring -> jsstring.
Variable sortWith :
  (DocumentInfo -> DocumentInfo -> Z) -> list DocumentInfo ->
  list DocumentInfo.
Variable localeCompare : jsstring -> jsstring -> Z.
Hypothesis sort_permutes : forall cmp l, Permutation (sortWith cmp l) l.

Lemma arrangeView_In (searchQuery filterStatus : jsstring) (order : SortOrder)
  (docs : list DocumentInfo) (d : DocumentInfo) :
  In d (arrangeView lower sortWith localeCompare searchQuery filterStatus
          order docs) <->
  In d docs /\
  (searchQuery = [] \/
   includes (lower (di_path d)) (lower searchQuery) = true) /\
  (filterStatus = str "all" \/ di_index_status d = filterStatus).
Proof.
  unfold arrangeView. split.
  - intros H. apply (Permutation_in _ (sort_permutes _ _)) in H.
    destruct (jsstring_eqb filterStatus (str "all")) eqn:Ef;
      cbn [negb] in H.
    + apply jsstring_eqb_eq in Ef.
      destruct (truthy searchQuery) eqn:Es.
      * apply filter_In in H as [H1 H2]. auto.
      * apply truthy_false in Es. auto.
    + apply filter_In in H as [H Hs]. apply jsstring_eqb_eq in Hs.
      destruct (truthy searchQuery) eqn:Es.
      * apply filter_In in H as [H1 H2]. auto.
      * apply truthy_false in Es. auto.
  - intros (Hd & Hq & Hs).
    apply (Permutation_in _ (Permutation_sym (sort_permutes _ _))).
    assert (H1 : In d (if truthy searchQuery
                       then filter (matchesSearch lower searchQuery) docs
                       else docs)).
    { destruct (truthy searchQuery) eqn:Es; [|exact Hd].
      apply filter_In. split; [exact Hd|].
      destruct Hq as [-> | Hq]; [discriminate | exact Hq]. }
    destruct (jsstring_eqb filterStatus (str "all")) eqn:Ef; cbn [negb];
      [exact H1|].
    apply filter_In. split; [exact H1|]. unfold matchesStatus.
    destruct Hs as [-> | Hs].
    + now rewrite jsstring_eqb_refl in Ef.
    + now apply jsstring_eqb_eq.
Qed.

Lemma arrangeView_length (searchQuery filterStatus : jsstring)
  (order : SortOrder) (docs : list DocumentInfo) :
  List.length (arrangeView lower sortWith localeCompare searchQuery
                 filterStatus order docs) <= List.length docs.
Proof.
  unfold arrangeView. rewrite (Permutation_length (sort_permutes _ _)).
  destruct (negb (jsstring_eqb filterStatus (str "all")));
    destruct (truthy searchQuery);
    repeat (etransitivity; [apply filter_shorter|]); lia.
Qed.

Lemma arrangeView_all (order : SortOrder) (docs : list DocumentInfo) :
  Permutation
    (arrangeView lower sortWith localeCompare [] (str "all") order docs) docs.
Proof. unfold arrangeView. cbn [truthy]. apply sort_permutes. Qed.

End Host.

(** X17. With the list arranged as [loadDocuments] arranges it, and a host
    sort that permutes its input, the documents shown after a successful
    load are exactly the documents of the answer that pass the two filters
    of the render: the lower-cased path includes the lower-cased search
    text, unless that text is empty, and the status equals the status
    filter, unless the filter is "all".  The list shown is never longer than
    the answer, and with an empty search text and the filter "all" it is the
    whole answer, reordered. *)
Theorem list_shown_after_load :
  forall (lower : jsstring -> jsstring)
         (sortWith : (DocumentInfo -> DocumentInfo -> Z) ->
                     list DocumentInfo -> list DocumentInfo)
         (localeCompare : jsstring -> jsstring -> Z),
    (forall cmp l, Permutation (sortWith cmp l) l) ->
    forall (st : DocumentState) (c : ZeroEntropy) (w : World)
           (docs : list DocumentInfo),
      client st = Some c ->
      documents_getInfoList c (str "default") 1000%N = Normal docs ->
      let shown :=
        documents
          (state (snd (loadDocuments
                         (arrangeView lower sortWith localeCompare) st w))) in
      (forall d : DocumentInfo,
          In d shown <->
          In d docs /\
          (searchQuery st = [] \/
           includes (lower (di_path d)) (lower (searchQuery st)) = true) /\
          (filterStatus st = str "all" \/
           di_index_status d = filterStatus st)) /\
      List.length shown <= List.length docs /\
      (searchQuery st = [] -> filterStatus st = str "all" ->
       Permutation shown docs).
Proof.
  intros lower sortWith localeCompare Hsort st c w docs Hc Hd shown.
  pose proof (loadDocuments_outcome
                (arrangeView lower sortWith localeCompare) st w) as H.
  rewrite Hc, Hd in H. subst shown. rewrite H.
  cbn [snd state with_documents documents]. split; [|split].
  - intros d. now apply arrangeView_In.
  - now apply arrangeView_length.
  - intros -> ->. now apply arrangeView_all.
Qed.

Lemma list_shown_after_load_witness :
  let shown :=
    documents
      (state (snd (loadDocuments
                     (arrangeView toLowerCase insertionSort compareUnits)
                     {| apiKey := str "key"; client := Some sampleService;
                        files := []; documents := [];
                        selectedDocument := None; message := [];
                        loading := false; searchQuery := str "NOTES";
                        sortOrder := asc; filterStatus := str "indexed" |}
                     sampleWorld))) in
  (forall d : DocumentInfo,
      In d shown <->
      In d [mkDocumentInfo (str "documents/notes.txt") (str "indexed")] /\
      (str "NOTES" = [] \/
       includes (toLowerCase (di_path d)) (toLowerCase (str "NOTES")) = true) /\
      (str "indexed" = str "all" \/ di_index_status d = str "indexed")) /\
  List.length shown <=
    List.length [mkDocumentInfo (str "documents/notes.txt") (str "indexed")] /\
  (str "NOTES" = [] -> str "indexed" = str "all" ->
   Permutation shown
     [mkDocumentInfo (str "documents/notes.txt") (str "indexed")]).
Proof.
  apply (list_shown_after_load toLowerCase insertionSort compareUnits
           insertionSort_perm
           {| apiKey := str "key"; client := Some sampleService;
              files := []; documents := [];
              selectedDocument := None; message := [];
              loading := false; searchQuery := str "NOTES";
              sortOrder := asc; filterStatus := str "indexed" |}
           sampleService sampleWorld
           [mkDocumentInfo (str "documents/notes.txt") (str "indexed")]).
  - reflexivity.
  - reflexivity.
Defined.

(** X18. The guard of the upload handler looks at the client and at the
    selection only.  Without a client, or with no file selected, the handler
    changes nothing and sends nothing.  With both it runs whatever the
    loading flag says, and the first thing it sends is the collection
    request: what keeps an upload from being started twice is the disabled
    button alone. *)
Theorem upload_guard :
  (forall arrange browser (st : DocumentState) (w : World),
      client st = None \/ files st = [] ->
      handleFileUpload arrange browser st w = (Normal tt, w))
  /\ (forall arrange browser (st : DocumentState) (c : ZeroEntropy)
             (w : World),
        client st = Some c -> files st <> [] ->
        exists (w' : World) (evs : list Event),
          handleFileUpload arrange browser st w = (Normal tt, w') /\
          trace w' = trace w ++ creationFetch st :: evs)
  /\ (forall st : DocumentState,
        files st = [] -> uploadDisabled st = true).
Proof.
  split; [|split].
  - intros arrange browser st w [H | H]; unfold handleFileUpload; rewrite H.
    + reflexivity.
    + destruct (client st); reflexivity.
  - intros arrange browser st c w Hc Hf.
    destruct (handleFileUpload_begins arrange browser st c w Hc Hf)
      as (w' & evs & H & Ht & _).
    now exists w', evs.
  - intros st H. unfold uploadDisabled. rewrite H. apply orb_true_r.
Qed.

Lemma upload_guard_witness :
  exists (w' : World) (evs : list Event),
    handleFileUpload plainArrange (browserAnswering quotaExceeded)
      sampleState
      {| state := with_loading true sampleState; trace := [] |}
    = (Normal tt, w') /\
    trace w' = [] ++ creationFetch sampleState :: evs.
Proof.
  apply (proj1 (proj2 upload_guard) plainArrange
           (browserAnswering quotaExceeded) sampleState sampleService
           {| state := with_loading true sampleState; trace := [] |}).
  - reflexivity.
  - discriminate.
Defined.

Lemma upload_always_settles_witness :
  exists (w' : World) (evs : list Event),
    handleFileUpload plainArrange (browserAnswering quotaExceeded)
      sampleState sampleWorld = (Normal tt, w') /\
    trace w' = trace sampleWorld ++ evs /\
    loading (state w') = false /\
    apiKey (state w') = apiKey (state sampleWorld) /\
    client (state w') = client (state sampleWorld) /\
    selectedDocument (state w') = selectedDocument (state sampleWorld) /\
    searchQuery (state w') = searchQuery (state sampleWorld) /\
    sortOrder (state w') = sortOrder (state sampleWorld) /\
    filterStatus (state w') = filterStatus (state sampleWorld) /\
    ((message (state w') = str "Files uploaded successfully!" /\
      files (state w') = [] /\
      filesRead evs = files sampleState) \/
     (message (state w') = str "Upload failed. Please try again." /\
      files (state w') = files (state sampleWorld) /\
      documents (state w') = documents (state sampleWorld) /\
      listRequests evs = 0)).
Proof.
  apply (upload_always_settles plainArrange (browserAnswering quotaExceeded)
           sampleState sampleService sampleWorld).
  - reflexivity.
  - discriminate.
Defined.

End ListCoverage.

Section RelevanceCoverage.
Import JS Effects Chatbot ChatbotView.

Lemma digits_of_uint_digits (u : Decimal.uint) :
  Forall (fun c => isDigit c = true) (digits_of_uint u).
Proof. induction u; cbn [digits_of_uint]; constructor; auto. Qed.

Lemma digits_of_uint_nonempty (u : Decimal.uint) :
  u <> Decimal.Nil -> digits_of_uint u <> [].
Proof. destruct u; [congruence | discriminate ..]. Qed.

Lemma decimal_nonempty (n : N) : decimal n <> [].
Proof.
  unfold decimal. apply digits_of_uint_nonempty. destruct n as [|p].
  - discriminate.
  - apply DecimalPos.Unsigned.to_uint_nonnil.
Qed.

Lemma decimal_digits (n : N) : Forall (fun c => isDigit c = true) (decimal n).
Proof. apply digits_of_uint_digits. Qed.

(** A digit string with the point before its last digit. *)
Lemma point_before_last (m : jsstring) :
  m <> [] -> Forall (fun c => isDigit c = true) m ->
  2 <= List.length m ->
  exists (a : jsstring) (d : char16),
    firstn (List.length m - 1) m ++ str "." ++ skipn (List.length m - 1) m
      = a ++ str "." ++ [d] /\
    a <> [] /\ Forall (fun c => isDigit c = true) a /\ isDigit d = true.
Proof.
  intros Hne Hd Hl.
  pose proof (firstn_skipn (List.length m - 1) m) as Hfs.
  pose proof (length_skipn (List.length m - 1) m) as Hs.
  pose proof (length_firstn (List.length m - 1) m) as Hf.
  rewrite <- Hfs in Hd. apply Forall_app in Hd as [Hd1 Hd2].
  destruct (skipn (List.length m - 1) m) as [|d [|d' r]];
    cbn [List.length] in Hs; try lia.
  exists (firstn (List.length m - 1) m), d.
  split; [reflexivity|]. split; [|split; [exact Hd1|]].
  - intros E. rewrite E in Hf. cbn [List.length] in Hf. lia.
  - now inversion Hd2.
Qed.

Lemma fixed_digits_one (n : Z) :
  exists (a : jsstring) (d : char16),
    fixed_digits 1 n = a ++ str "." ++ [d] /\
    a <> [] /\ Forall (fun c => isDigit c = true) a /\ isDigit d = true.
Proof.
  unfold fixed_digits, decimalZ.
  pose proof (decimal_nonempty (Z.to_N n)) as Hne.
  pose proof (decimal_digits (Z.to_N n)) as Hd.
  destruct (List.length (decimal (Z.to_N n)) <=? 1)%nat eqn:E.
  - apply Nat.leb_le in E.
    destruct (decimal (Z.to_N n)) as [|d [|d' r]];
      cbn [List.length] in E; try congruence; try lia.
    exists [48%N], d.
    split; [reflexivity|]. split; [discriminate|]. split.
    + repeat constructor.
    + now inversion Hd.
  - apply Nat.leb_gt in E. apply point_before_last; auto; lia.
Qed.

(** X19. The relevance of a citation is [score * 100] in fixed notation
    with one decimal whenever that product is zero or a positive number
    below 10^21: at least one digit, the point, and exactly one digit.  A
    product that is not a number is printed as ["NaN"]. *)
Theorem relevance_has_one_decimal :
  (forall (s : Snippet) (m : positive) (e : Z) (sign : bool),
      Prim2SF (s_score s * 100)%float = S754_zero sign \/
      (Prim2SF (s_score s * 100)%float = S754_finite false m e /\
       (Z.pos m * pow2 e < 10 ^ 21 * pow2 (- e))%Z) ->
      exists (a : jsstring) (d : char16),
        relevance s = a ++ str "." ++ [d] /\
        a <> [] /\
        Forall (fun c => isDigit c = true) a /\
        isDigit d = true)
  /\ (forall s : Snippet,
        Prim2SF (s_score s * 100)%float = S754_nan ->
        relevance s = str "NaN").
Proof.
  split.
  - intros s m e sign [Hz | [Hf Hlt]]; unfold relevance.
    + unfold toFixed. rewrite Hz. apply fixed_digits_one.
    + rewrite (toFixed_finite_small 1 _ m e Hf Hlt). apply fixed_digits_one.
  - intros s Hn. unfold relevance, toFixed. now rewrite Hn.
Qed.

Lemma relevance_has_one_decimal_witness :
  exists (a : jsstring) (d : char16),
    relevance (snippetY None) = a ++ str "." ++ [d] /\
    a <> [] /\
    Forall (fun c => isDigit c = true) a /\
    isDigit d = true.
Proof.
  apply (proj1 relevance_has_one_decimal (snippetY None)
           5925048259759309%positive (-46)%Z false).
  right. split; vm_compute; reflexivity.
Defined.

End RelevanceCoverage.

(* ================================================================== *)
(** * Overlapping submissions *)
(* ================================================================== *)

Section OverlapCoverage.
Import JS Effects Chatbot Overlap.








(** A submission whose continuations run with nothing in between is the
    handler run in one piece. *)
Lemma settle_is_handleSubmit (client : option ZeroEntropy)
  (collection : jsstring) (now1 now2 : float) (w : World) :
  settle now2 (submitStart client collection now1
                 {| world := w; suspended := [] |}) =
  {| world := snd (handleSubmit client collection now1 now2 w);
     suspended := [] |}.
Proof.
  destruct w as [ms inp ld tr].
  destruct client as [c|]; [|reflexivity].
  unfold settle, submitStart, handleSubmit, processQuery.
  cbv beta iota delta [bind get emit modify exec call try_catch await ret
                       setMessages setInput setIsLoading].
  cbn [input messages isLoading trace world suspended snd fst].
  destruct (negb (truthy (trim inp))); [reflexivity|].
  unfold resume at 4. cbn [suspended world nth_error app firstn skipn].
  unfold resumeTask at 1, caught.
  cbv beta iota delta [emit modify exec].
  destruct (topDocuments c collection inp 3%N true) as [d|e];
    [|reflexivity].
  destruct (topSnippets c collection inp 3%N true) as [sn|e] eqn:Hs;
    [|unfold resume, resumeTask; simpl; rewrite Hs; reflexivity].
  destruct (wants_pages inp) eqn:Hq.
  - destruct (topPages c collection inp 3%N true) as [pg|e] eqn:Hp;
      unfold resume, resumeTask; simpl; rewrite Hs, Hq; simpl;
        rewrite Hp; reflexivity.
  - unfold resume, resumeTask; simpl; rewrite Hs, Hq; reflexivity.
Qed.


End OverlapCoverage.
